(** * Verification of the email agent's orchestration core

    A shallow embedding of the turn-taking core of the email assistant
    ([email_agent/agent_graph.py], [email_agent/hitl_schemas.py]), of its
    REST layer ([email_agent/api.py]), of the email store
    ([email_agent/email_storage.py]) and of the normalisation of fetched
    emails ([email_agent/import_emails.py]), followed by the properties
    stated about them.

    Conventions of the embedding.
    - Python [str] is [string]; the text handled here is ASCII, so that
      [str.encode()] is the identity on bytes and [str.lower()] maps
      [A-Z] to [a-z].
    - JSON-like values ([Any]) are [pyval]; a [dict] keeps its insertion
      order and is an association list with first-match lookup.
    - A function that can raise returns a sum-like outcome type; [None]
      results are [option].
    - External collaborators (the completion service, the tools, the
      vector store, the clock) are fields of an environment record. *)

From Stdlib Require Import ZArith Ascii String DecimalString QArith Sorted.
From stdpp Require Import base option list strings gmap.

#[local] Open Scope Z_scope.
#[local] Open Scope stdpp_scope.

(** ** Python values *)

Set Warnings "-register-all".

Module Py.

Inductive pyval : Type :=
| PNone
| PBool (b : bool)
| PInt (z : Z)
| PStr (s : string)
| PList (l : list pyval)
| PDict (d : list (string * pyval)).

Definition pydict : Type := list (string * pyval).

(** [d.get(k)] *)
Fixpoint dict_get (k : string) (d : pydict) : option pyval :=
  match d with
  | [] => None
  | (k', v) :: d' => if String.eqb k k' then Some v else dict_get k d'
  end.

(** [d.get(k, dflt)] *)
Definition dict_get_default (k : string) (dflt : pyval) (d : pydict) : pyval :=
  default dflt (dict_get k d).

(** [d[k] = v]: replaces in place, or appends a new key. *)
Fixpoint dict_set (k : string) (v : pyval) (d : pydict) : pydict :=
  match d with
  | [] => [(k, v)]
  | (k', v') :: d' =>
      if String.eqb k k' then (k', v) :: d' else (k', v') :: dict_set k v d'
  end.

(** Truth value of an object, as in [if x:] and [not x]. *)
Definition truthy (v : pyval) : bool :=
  match v with
  | PNone => false
  | PBool b => b
  | PInt z => negb (z =? 0)
  | PStr s => negb (String.eqb s EmptyString)
  | PList l => match l with [] => false | _ => true end
  | PDict d => match d with [] => false | _ => true end
  end.

Definition str_truthy (s : string) : bool := negb (String.eqb s EmptyString).

Definition string_of_Z (z : Z) : string := NilZero.string_of_int (Z.to_int z).

(** [repr(v)]; the escaping of quotes inside strings is not modelled. *)
Fixpoint py_repr (v : pyval) : string :=
  match v with
  | PNone => "None"
  | PBool true => "True"
  | PBool false => "False"
  | PInt z => string_of_Z z
  | PStr s => "'" +:+ s +:+ "'"
  | PList l => "[" +:+ String.concat ", " (map py_repr l) +:+ "]"
  | PDict d =>
      "{" +:+ String.concat ", "
               (map (fun kv : string * pyval =>
                       let (k, x) := kv in "'" +:+ k +:+ "': " +:+ py_repr x) d)
          +:+ "}"
  end.

(** [str(v)], which is also what an f-string interpolates. *)
Definition py_str (v : pyval) : string :=
  match v with
  | PStr s => s
  | _ => py_repr v
  end.

(** [s[:n]] for a non-negative bound. *)
Definition str_upto (n : nat) (s : string) : string := String.substring 0 n s.

(** [l[-n:]] for a positive [n]. *)
Definition last_n {A : Type} (n : nat) (l : list A) : list A :=
  drop (length l - n) l.

(** [l[:-1]] *)
Definition all_but_last {A : Type} (l : list A) : list A :=
  take (length l - 1) l.

(** [sep.join(l)] *)
Definition join (sep : string) (l : list string) : string := String.concat sep l.

Definition nl : string := String (ascii_of_nat 10) EmptyString.
Definition dquote : string := String (ascii_of_nat 34) EmptyString.

End Py.

(** ** Outcomes of code that can raise *)

Module Exc.

Inductive result (A : Type) : Type :=
| Ok (a : A)
| Raise (err : string).

Arguments Ok {A} a.
Arguments Raise {A} err.

Definition bind {A B : Type} (r : result A) (k : A -> result B) : result B :=
  match r with
  | Ok a => k a
  | Raise e => Raise e
  end.

Definition is_ok {A : Type} (r : result A) : bool :=
  match r with Ok _ => true | Raise _ => false end.

End Exc.

#[export] Instance result_bind : MBind Exc.result := fun A B k r => Exc.bind r k.
#[export] Instance result_ret : MRet Exc.result := fun A a => Exc.Ok a.

(** ** Messages and the run state *)

Module Messages.
Import Py.

(** One entry of [AIMessage.tool_calls]: [{"name", "args", "id", "type"}]. *)
Record tool_call : Type := ToolCall {
  tc_name : string;
  tc_args : pyval;
  tc_id : string
}.

Inductive message : Type :=
| HumanMessage (content : string) (id : option string)
| AIMessage (content : string) (tool_calls : list tool_call) (id : option string)
| ToolMessage (content : string) (name : string) (tool_call_id : string)
              (id : option string).

Definition message_id (m : message) : option string :=
  match m with
  | HumanMessage _ i | AIMessage _ _ i | ToolMessage _ _ _ i => i
  end.

Definition with_id (i : string) (m : message) : message :=
  match m with
  | HumanMessage c _ => HumanMessage c (Some i)
  | AIMessage c tcs _ => AIMessage c tcs (Some i)
  | ToolMessage c n t _ => ToolMessage c n t (Some i)
  end.

(** [msg.tool_calls] when [hasattr(msg, "tool_calls")], else nothing. *)
Definition tool_calls_of (m : message) : list tool_call :=
  match m with
  | AIMessage _ tcs _ => tcs
  | _ => []
  end.

Definition is_tool_message (m : message) : bool :=
  match m with ToolMessage _ _ _ _ => true | _ => false end.

(** The state of a run: the [State] dict of the graph.  [next_uuid] stands
    for the supply of fresh message identifiers. *)
Record State : Type := {
  messages : list message;
  question : option string;
  email_input : option pyval;
  classification_decision : option string;
  next_uuid : nat
}.

Definition fresh_uuid (n : nat) : string := "msg-" +:+ string_of_Z (Z.of_nat n).

Definition assign_id (acc : nat * list message) (m : message) : nat * list message :=
  match message_id m with
  | Some _ => (acc.1, acc.2 ++ [m])
  | None => (S acc.1, acc.2 ++ [with_id (fresh_uuid acc.1) m])
  end.

Definition assign_ids (next : nat) (l : list message) : nat * list message :=
  foldl assign_id (next, []) l.

(** Position of the message carrying identifier [i] (the last one, as a dict
    comprehension over the enumerated list keeps the last index). *)
Fixpoint index_of_id (i : string) (l : list message) (pos : nat) : option nat :=
  match l with
  | [] => None
  | m :: l' =>
      match index_of_id i l' (S pos) with
      | Some k => Some k
      | None => if decide (message_id m = Some i) then Some pos else None
      end
  end.

Definition merge_message (merged : list message) (m : message) : list message :=
  match message_id m with
  | Some i =>
      match index_of_id i merged 0 with
      | Some k => <[k := m]> merged
      | None => merged ++ [m]
      end
  | None => merged ++ [m]
  end.

(** Every message of the list carries an identifier, as the messages of a
    log do once the channel has taken them in. *)
Definition identified (l : list message) : Prop :=
  Forall (fun m => is_Some (message_id m)) l.

(** Modelled from the spec: the [messages] channel of [State], whose
    declaration ([email_agent/schemas.py]) is not among the sources.  The log
    is append-only: the messages of a node's update are appended in order; a
    message that carries the identifier of a message already in the log takes
    that message's place instead of being appended; messages without an
    identifier receive a fresh one. *)
Definition add_messages (next : nat) (log update : list message)
  : nat * list message :=
  let l := assign_ids next log in
  let r := assign_ids l.1 update in
  (r.1, foldl merge_message l.2 r.2).

(** A channel without reducer, for comparison: the update replaces the log. *)
Definition overwrite_messages (next : nat) (log update : list message)
  : nat * list message :=
  (next, update).

Definition apply_update
    (channel : nat -> list message -> list message -> nat * list message)
    (st : State) (update : list message) : State :=
  let r := channel (next_uuid st) (messages st) update in
  {| messages := r.2;
     question := question st;
     email_input := email_input st;
     classification_decision := classification_decision st;
     next_uuid := r.1 |}.

End Messages.

(** ** Approval requests ([email_agent/hitl_schemas.py]) *)

Module HitlSchemas.
Import Py Exc.

Record ActionRequest : Type := {
  action : string;
  args : pyval
}.

Record HumanInterruptConfig : Type := {
  allow_ignore : bool;
  allow_respond : bool;
  allow_edit : bool;
  allow_accept : bool
}.

Record HumanInterrupt : Type := {
  action_request : ActionRequest;
  config : HumanInterruptConfig;
  description : option string
}.

Definition allow_all : HumanInterruptConfig :=
  {| allow_ignore := true; allow_respond := true;
     allow_edit := true; allow_accept := true |}.

Definition respond_or_ignore : HumanInterruptConfig :=
  {| allow_ignore := true; allow_respond := true;
     allow_edit := false; allow_accept := false |}.

Definition HITL_CONFIGS : list (string * HumanInterruptConfig) :=
  [ ("send-mail", allow_all);
    ("create-calendar-event", allow_all);
    ("create-specific-calendar-event", allow_all);
    ("Question", respond_or_ignore);
    ("default", allow_all) ].

Fixpoint config_lookup (k : string) (l : list (string * HumanInterruptConfig))
  : option HumanInterruptConfig :=
  match l with
  | [] => None
  | (k', c) :: l' => if String.eqb k k' then Some c else config_lookup k l'
  end.

Definition get_hitl_config (tool_name : string) : HumanInterruptConfig :=
  default allow_all (config_lookup tool_name HITL_CONFIGS).

(** [v[:n]]: strings and lists can be sliced, other values raise. *)
Definition slice_upto (n : nat) (v : pyval) : result pyval :=
  match v with
  | PStr s => Ok (PStr (str_upto n s))
  | PList l => Ok (PList (take n l))
  | _ => Raise "TypeError: object is not subscriptable"
  end.

Definition _generate_description (action : string) (args : pyval) : result string :=
  match args with
  | PDict d =>
      if String.eqb action "send-mail" then
        let to := dict_get_default "to"
                    (dict_get_default "toRecipients" (PStr "unknown") d) d in
        let subject := dict_get_default "subject" (PStr "no subject") d in
        Ok ("Send email to " +:+ py_str to +:+ ": " +:+ dquote +:+ py_str subject
            +:+ dquote)
      else if String.eqb action "create-calendar-event"
              || String.eqb action "create-specific-calendar-event" then
        let subject := dict_get_default "subject" (PStr "Untitled event") d in
        let start := dict_get_default "start"
                       (dict_get_default "startDateTime" (PStr "unknown") d) d in
        Ok ("Create calendar event: " +:+ dquote +:+ py_str subject +:+ dquote
            +:+ " at " +:+ py_str start)
      else if String.eqb action "Question" then
        Ok ("Agent is asking: " +:+ py_str (dict_get_default "question" (PStr "") d))
      else if String.eqb action "manage_email" then
        request ← slice_upto 100 (dict_get_default "request" (PStr "") d);
        Ok ("Email action: " +:+ py_str request +:+ "...")
      else if String.eqb action "schedule_event" then
        request ← slice_upto 100 (dict_get_default "request" (PStr "") d);
        Ok ("Calendar action: " +:+ py_str request +:+ "...")
      else
        let args_preview :=
          join ", " (map (fun kv : string * pyval => kv.1 +:+ "=" +:+ py_str kv.2)
                         (take 3 d)) in
        Ok (action +:+ "(" +:+ args_preview +:+ ")")
  | _ => Raise "AttributeError: object has no attribute 'get'"
  end.

(** [create_interrupt(action, args, description=None)] with the default
    configuration of the tool, as the approval gate calls it. *)
Definition create_interrupt (action : string) (args : pyval) : result HumanInterrupt :=
  d ← _generate_description action args;
  Ok {| action_request := {| action := action; args := args |};
        config := get_hitl_config action;
        description := Some d |}.

End HitlSchemas.

(** ** The agent graph ([email_agent/agent_graph.py]) *)

Module AgentGraph.
Import Py Exc Messages HitlSchemas.

(** Tools that require human approval. *)
Definition HITL_TOOL_NAMES : list string :=
  [ "send-mail"; "create-calendar-event"; "create-specific-calendar-event";
    "manage_email"; "Question" ].

Definition in_names (n : string) (l : list string) : bool :=
  existsb (String.eqb n) l.

(** A registered tool: its name and description, and its invocation, which
    returns the tool's output or raises. *)
Record tool : Type := {
  tool_name : string;
  tool_description : string;
  ainvoke : pyval -> result string
}.

(** The structured output of the completion service, [ToolCallRequest], or
    the exception raised when its output does not parse. *)
Record ToolCallRequest : Type := {
  req_tool_name : string;
  req_tool_args : pydict
}.

(** The collaborators of the graph.  [llm_tool_selector] is
    [llm.with_structured_output(ToolCallRequest).invoke]; [sub_llm] is the
    same service as the sub-agent calls it, told apart by the iteration;
    [tool_node] is the tool-execution node's run of one call, whose result
    text already holds the error description when the call failed. *)
Record env : Type := {
  CURRENT_DATE : string;
  now_timestamp : string;
  supervisor_tools : list tool;
  llm_tool_selector : string -> result ToolCallRequest;
  sub_llm : nat -> string -> result ToolCallRequest;
  parse_email : pyval -> string * string * string * string;
  tool_node : string -> pyval -> string
}.

(** *** The reconciling walk over the message log (supervisor, first half) *)

Record walk : Type := {
  conversation_history : list string;
  tool_results_for_current_turn : list string;
  previous_tool_results : list string;
  current_question_in_messages : option string
}.

Definition walk_start : walk :=
  {| conversation_history := [];
     tool_results_for_current_turn := [];
     previous_tool_results := [];
     current_question_in_messages := None |}.

(** [tc.get("args", {}).get("answer", "")] *)
Definition done_answer (a : pyval) : result pyval :=
  match a with
  | PDict d => Ok (dict_get_default "answer" (PStr "") d)
  | _ => Raise "AttributeError: object has no attribute 'get'"
  end.

Definition walk_tool_call (w : walk) (tc : tool_call) : result walk :=
  if String.eqb (tc_name tc) "Done" then
    answer ← done_answer (tc_args tc);
    Ok {| conversation_history :=
            conversation_history w ++ ["Assistant: " +:+ py_str answer];
          tool_results_for_current_turn := tool_results_for_current_turn w;
          previous_tool_results := previous_tool_results w;
          current_question_in_messages := None |}
  else Ok w.

Fixpoint walk_tool_calls (w : walk) (tcs : list tool_call) : result walk :=
  match tcs with
  | [] => Ok w
  | tc :: tcs' => w' ← walk_tool_call w tc; walk_tool_calls w' tcs'
  end.

Definition fresh_entry (name content : string) : string :=
  "Tool '" +:+ name +:+ "' returned: " +:+ str_upto 500 content +:+ "...".

Definition previous_entry (name content : string) : string :=
  "[Previous] Tool '" +:+ name +:+ "': " +:+ str_upto 300 content +:+ "...".

Definition walk_message (user_message : string) (w : walk) (msg : message)
  : result walk :=
  match msg with
  | HumanMessage content _ =>
      Ok {| conversation_history := conversation_history w ++ ["User: " +:+ content];
            tool_results_for_current_turn := tool_results_for_current_turn w;
            previous_tool_results := previous_tool_results w;
            current_question_in_messages := Some content |}
  | AIMessage content tool_calls _ =>
      match tool_calls with
      | _ :: _ => walk_tool_calls w tool_calls
      | [] =>
          if str_truthy content then
            Ok {| conversation_history :=
                    conversation_history w ++ ["Assistant: " +:+ content];
                  tool_results_for_current_turn := tool_results_for_current_turn w;
                  previous_tool_results := previous_tool_results w;
                  current_question_in_messages := current_question_in_messages w |}
          else Ok w
      end
  | ToolMessage content name _ _ =>
      if decide (current_question_in_messages w = Some user_message) then
        Ok {| conversation_history := conversation_history w;
              tool_results_for_current_turn :=
                tool_results_for_current_turn w ++ [fresh_entry name content];
              previous_tool_results := previous_tool_results w;
              current_question_in_messages := current_question_in_messages w |}
      else
        Ok {| conversation_history := conversation_history w;
              tool_results_for_current_turn := tool_results_for_current_turn w;
              previous_tool_results :=
                previous_tool_results w ++ [previous_entry name content];
              current_question_in_messages := current_question_in_messages w |}
  end.

Fixpoint walk_messages (user_message : string) (w : walk) (msgs : list message)
  : result walk :=
  match msgs with
  | [] => Ok w
  | msg :: msgs' =>
      w' ← walk_message user_message w msg; walk_messages user_message w' msgs'
  end.

Definition reconcile (user_message : string) (msgs : list message) : result walk :=
  walk_messages user_message walk_start msgs.

(** [any(f"User: {user_message}" == h for h in conversation_history)] *)
Definition current_user_in_history (user_message : string) (w : walk) : bool :=
  existsb (String.eqb ("User: " +:+ user_message)) (conversation_history w).

(** The transcript that enters the prompt: [conversation_history[-10:]]. *)
Definition history_window (w : walk) : list string :=
  last_n 10 (conversation_history w).

Definition history_text (w : walk) : string := join nl (history_window w).

Definition context_section (user_message : string) (w : walk) : string :=
  match conversation_history w with
  | _ :: _ =>
      if negb (current_user_in_history user_message w) then
        nl +:+ "PREVIOUS CONVERSATION:" +:+ nl +:+ history_text w +:+ nl +:+ nl
           +:+ "CURRENT USER MESSAGE: " +:+ user_message
      else
        nl +:+ "CONVERSATION SO FAR:" +:+ nl +:+ history_text w
  | [] => "USER REQUEST: " +:+ user_message
  end.

Definition tools_text (tools : list tool) : string :=
  join nl (map (fun t => "- " +:+ tool_name t +:+ ": " +:+ tool_description t) tools).

(** The fixed instruction prose of the two prompts is shortened here; the
    parts computed from the run are in place. *)
Definition PROMPT_HEADER : string :=
  "You are a tool-calling assistant. Your response must be ONLY valid JSON, nothing else.".

Definition SYNTHESIS_INSTRUCTIONS : string :=
  "Based on the tool results above, provide a final answer using the Done tool.".

Definition SELECTION_TOOLS : string :=
  "Available tools: manage_calendar, manage_email, search_email_history, Question, Done".

Definition SELECTION_INSTRUCTIONS : string :=
  "INSTRUCTIONS: answer with Done from the previous conversation when possible, otherwise select the appropriate tool; every tool call must include the required arguments.".

Definition tool_selection_prompt (E : env) (user_message : string) (w : walk) : string :=
  match tool_results_for_current_turn w with
  | _ :: _ =>
      PROMPT_HEADER +:+ nl +:+ nl +:+ "TODAY'S DATE: " +:+ CURRENT_DATE E +:+ nl +:+ nl
        +:+ context_section user_message w +:+ nl +:+ nl
        +:+ "TOOL RESULTS FOR CURRENT REQUEST:" +:+ nl
        +:+ join nl (tool_results_for_current_turn w) +:+ nl +:+ nl
        +:+ SYNTHESIS_INSTRUCTIONS +:+ nl +:+ nl
        +:+ "Available tools:" +:+ nl +:+ tools_text (supervisor_tools E) +:+ nl +:+ nl
        +:+ "JSON response:"
  | [] =>
      let previous_context :=
        match previous_tool_results w with
        | _ :: _ =>
            nl +:+ "PREVIOUS TOOL RESULTS (from earlier in conversation):" +:+ nl
               +:+ join nl (last_n 5 (previous_tool_results w)) +:+ nl
        | [] => EmptyString
        end in
      PROMPT_HEADER +:+ nl +:+ nl +:+ "TODAY'S DATE: " +:+ CURRENT_DATE E +:+ nl +:+ nl
        +:+ SELECTION_TOOLS +:+ nl +:+ nl
        +:+ context_section user_message w +:+ nl
        +:+ previous_context +:+ nl +:+ nl
        +:+ SELECTION_INSTRUCTIONS +:+ nl +:+ nl
        +:+ "JSON response:"
  end.

(** *** The supervisor node *)

(** [f"Email from {author} about: {subject}. Content: {email_thread}"] *)
Definition email_message (E : env) (e : pyval) : string :=
  let '(author, _, subject, email_thread) := parse_email E e in
  "Email from " +:+ author +:+ " about: " +:+ subject +:+ ". Content: " +:+ email_thread.

(** The input of the turn: the question, else the description of the email. *)
Definition user_message_of (E : env) (st : State) : option string :=
  if str_truthy (default EmptyString (question st)) then question st
  else if truthy (default PNone (email_input st)) then
    email_message E <$> email_input st
  else None.

(** Argument repair: a missing required argument defaults to the input. *)
Definition repair_args (tool_name user_message : string) (tool_args : pydict) : pydict :=
  if String.eqb tool_name "manage_calendar"
     && negb (truthy (dict_get_default "request" PNone tool_args)) then
    dict_set "request" (PStr user_message) tool_args
  else if String.eqb tool_name "manage_email"
     && negb (truthy (dict_get_default "request" PNone tool_args)) then
    dict_set "request" (PStr user_message) tool_args
  else if String.eqb tool_name "search_email_history"
     && negb (truthy (dict_get_default "query" PNone tool_args)) then
    let with_query := dict_set "query" (PStr user_message) tool_args in
    dict_set "top_k" (dict_get_default "top_k" (PInt 5) with_query) with_query
  else tool_args.

(** The supervisor's update of the [messages] channel; it raises only when
    the walk over the log does.  The preferences it reads from the memory
    store do not enter the prompt and are left out. *)
Definition supervisor (E : env) (st : State) : result (list message) :=
  match user_message_of E st with
  | None => Ok [AIMessage "No input provided." [] None]
  | Some user_message =>
      w ← reconcile user_message (messages st);
      let need_human_message :=
        match messages st with [] => true | _ => false end
        || negb (current_user_in_history user_message w) in
      let ai_message :=
        match llm_tool_selector E (tool_selection_prompt E user_message w) with
        | Ok tool_request =>
            let tool_args :=
              repair_args (req_tool_name tool_request) user_message
                          (req_tool_args tool_request) in
            AIMessage EmptyString
              [ {| tc_name := req_tool_name tool_request;
                   tc_args := PDict tool_args;
                   tc_id := "call_" +:+ now_timestamp E |} ] None
        | Raise e => AIMessage ("Error: " +:+ e) [] None
        end in
      if need_human_message then Ok [HumanMessage user_message None; ai_message]
      else Ok [ai_message]
  end.

(** *** The approval gate *)

(** How a run of the gate ends: suspended on an approval request (the
    [interrupt] call found no decision to return), returned with an update of
    the [messages] channel, or raised. *)
Inductive gate_outcome : Type :=
| Suspended (request : HumanInterrupt)
| Returned (update : list message)
| Raised (err : string).

Definition is_suspended (o : gate_outcome) : bool :=
  match o with Suspended _ => true | _ => false end.

(** [v == s] for a string [s]. *)
Definition is_str (v : pyval) (s : string) : bool :=
  match v with
  | PStr s' => String.eqb s' s
  | _ => false
  end.

(** [tool_call["args"] = new_args] *)
Definition with_args (tc : tool_call) (new_args : pyval) : tool_call :=
  {| tc_name := tc_name tc; tc_args := new_args; tc_id := tc_id tc |}.

(** [last_message.tool_calls[0]["args"] = new_args] *)
Definition set_first_args (new_args : pyval) (tcs : list tool_call) : list tool_call :=
  match tcs with
  | [] => []
  | tc :: rest => with_args tc new_args :: rest
  end.

(** The log with its last message carrying the tool calls [tcs]: the state
    the gate returns after mutating [last_message] in place. *)
Definition with_last_calls (msgs : list message) (tcs : list tool_call) : list message :=
  match last msgs with
  | Some (AIMessage c _ i) => all_but_last msgs ++ [AIMessage c tcs i]
  | _ => msgs
  end.

(** The loop over [last_message.tool_calls], from position [i], [todo] calls
    remaining.  [decisions] holds the human decisions not yet consumed: each
    [interrupt] call takes the next one, and suspends the run when there is
    none. *)
Fixpoint gate_loop (todo i : nat) (msgs : list message) (tcs : list tool_call)
    (decisions : list pyval) : gate_outcome :=
  match todo with
  | O => Returned (with_last_calls msgs tcs)
  | S todo' =>
      match tcs !! i with
      | None => Returned (with_last_calls msgs tcs)
      | Some tool_call =>
          let tool_name := tc_name tool_call in
          if in_names tool_name HITL_TOOL_NAMES then
            let tool_args := tc_args tool_call in
            match create_interrupt tool_name tool_args with
            | Raise e => Raised e
            | Ok interrupt_data =>
                match decisions with
                | [] => Suspended interrupt_data
                | response :: decisions' =>
                    match response with
                    | PDict r =>
                        let response_type := dict_get_default "type" (PStr "accept") r in
                        let response_args := dict_get_default "args" PNone r in
                        if is_str response_type "ignore" then
                          Returned (all_but_last msgs)
                        else if is_str response_type "edit" && truthy response_args then
                          match response_args with
                          | PDict ra =>
                              let new_args := dict_get_default "args" tool_args ra in
                              gate_loop todo' (S i) msgs (set_first_args new_args tcs)
                                        decisions'
                          | _ => Raised "AttributeError: object has no attribute 'get'"
                          end
                        else if is_str response_type "response" then
                          Returned (with_last_calls msgs tcs
                                    ++ [HumanMessage (py_str response_args) None])
                        else gate_loop todo' (S i) msgs tcs decisions'
                    | _ => gate_loop todo' (S i) msgs tcs decisions'
                    end
                end
            end
          else gate_loop todo' (S i) msgs tcs decisions
      end
  end.

Definition hitl_gate (msgs : list message) (decisions : list pyval) : gate_outcome :=
  match last msgs with
  | None => Returned msgs
  | Some last_message =>
      match tool_calls_of last_message with
      | [] => Returned msgs
      | tcs => gate_loop (length tcs) 0 msgs tcs decisions
      end
  end.

(** *** Routing and tool execution *)

Inductive node : Type := NSupervisor | NHitlGate | NTools | NEnd.

Definition should_continue (msgs : list message) : node :=
  match last msgs with
  | None => NEnd
  | Some last_message =>
      match tool_calls_of last_message with
      | [] => NEnd
      | tcs =>
          if existsb (fun tc => in_names (tc_name tc) ["Done"; "Question"]) tcs
          then NEnd else NHitlGate
      end
  end.

Definition after_hitl (msgs : list message) : node :=
  match last msgs with
  | None => NEnd
  | Some last_message =>
      match tool_calls_of last_message with
      | _ :: _ => NTools
      | [] =>
          match last_message with
          | HumanMessage _ _ => NSupervisor
          | _ => NEnd
          end
      end
  end.

(** The calls the tool node executes: those of the last message. *)
Definition pending_calls (msgs : list message) : list tool_call :=
  match last msgs with
  | Some last_message => tool_calls_of last_message
  | None => []
  end.

(** The tool node: one tool-result message per call of the last message. *)
Definition tools (E : env) (msgs : list message) : list message :=
  map (fun tc => ToolMessage (tool_node E (tc_name tc) (tc_args tc))
                             (tc_name tc) (tc_id tc) None)
      (pending_calls msgs).

(** *** Running the graph *)

Inductive run_status : Type :=
| Concluded (st : State)
| AwaitingApproval (st : State) (request : HumanInterrupt) (answered : list pyval)
| Failed (st : State) (err : string)
| Unfinished (st : State).

(** The graph from node [n] on.  [decisions] are the human decisions handed
    to the gate so far in the run of it that is resumed: a gate that
    suspends again keeps them as [answered], and they are gone once the gate
    has returned. *)
Fixpoint run_from (fuel : nat) (E : env) (n : node) (st : State)
    (decisions : list pyval) : run_status :=
  match fuel with
  | O => Unfinished st
  | S fuel' =>
      match n with
      | NEnd => Concluded st
      | NSupervisor =>
          match supervisor E st with
          | Raise e => Failed st e
          | Ok update =>
              let st' := apply_update add_messages st update in
              run_from fuel' E (should_continue (messages st')) st' []
          end
      | NHitlGate =>
          match hitl_gate (messages st) decisions with
          | Suspended request => AwaitingApproval st request decisions
          | Raised e => Failed st e
          | Returned update =>
              let st' := apply_update add_messages st update in
              run_from fuel' E (after_hitl (messages st')) st' []
          end
      | NTools =>
          let st' := apply_update add_messages st (tools E (messages st)) in
          run_from fuel' E NSupervisor st' []
      end
  end.

(** A new request on a thread: the input channels are overwritten and the
    graph starts at the supervisor. *)
Definition start_run (fuel : nat) (E : env) (st : State) (q : option string)
    (email : option pyval) : run_status :=
  run_from fuel E NSupervisor
    {| messages := messages st; question := q; email_input := email;
       classification_decision := None; next_uuid := next_uuid st |} [].

(** [Command(resume=decision)] on a run suspended in the gate, which had
    been given the decisions [answered] before. *)
Definition resume_run (fuel : nat) (E : env) (st : State) (answered : list pyval)
    (decision : pyval) : run_status :=
  run_from fuel E NHitlGate st (answered ++ [decision]).

(** *** The sub-agent loop ([run_sub_agent]) *)

Fixpoint lookup_tool (n : string) (tools_by_name : list (string * tool)) : option tool :=
  match tools_by_name with
  | [] => None
  | (k, t) :: rest => if String.eqb n k then Some t else lookup_tool n rest
  end.

Definition sub_agent_prompt (tools : list tool) (system_prompt user_request : string)
    (tool_results : list string) : string :=
  match tool_results with
  | _ :: _ =>
      system_prompt +:+ nl +:+ nl +:+ "USER REQUEST: " +:+ user_request +:+ nl +:+ nl
        +:+ "TOOL RESULTS:" +:+ nl +:+ join nl tool_results +:+ nl +:+ nl
        +:+ "Based on the ACTUAL tool results above, provide an accurate summary."
        +:+ nl +:+ "JSON response:"
  | [] =>
      system_prompt +:+ nl +:+ nl +:+ "Available tools:" +:+ nl +:+ tools_text tools
        +:+ nl +:+ nl +:+ "USER REQUEST: " +:+ user_request +:+ nl +:+ nl
        +:+ "Select a tool. Respond with ONLY valid JSON:" +:+ nl +:+ "JSON response:"
  end.

(** The state of the loop: the result lines gathered so far and the raw
    output of the latest tool that returned. *)
Record sub_state : Type := {
  tool_results : list string;
  last_raw_result : option string
}.

Inductive sub_step : Type :=
| SubReturn (answer : pyval)
| SubContinue (s : sub_state).

(** One iteration of the loop. *)
Definition sub_agent_iteration (E : env) (tools : list tool)
    (tools_by_name : list (string * tool)) (system_prompt user_request : string)
    (iteration : nat) (s : sub_state) : sub_step :=
  let prompt := sub_agent_prompt tools system_prompt user_request (tool_results s) in
  match sub_llm E iteration prompt with
  | Raise e =>
      match tool_results s with
      | _ :: _ =>
          if str_truthy (default EmptyString (last_raw_result s)) then
            SubReturn (PStr (str_upto 2000 (default EmptyString (last_raw_result s))))
          else SubReturn (PStr ("Error: " +:+ e))
      | [] => SubReturn (PStr ("Error: " +:+ e))
      end
  | Ok tool_request =>
      let name := req_tool_name tool_request in
      if String.eqb name "DONE" then
        SubReturn (dict_get_default "answer" (PStr "Task completed.")
                                    (req_tool_args tool_request))
      else
        match lookup_tool name tools_by_name with
        | None =>
            SubContinue
              {| tool_results :=
                   tool_results s
                   ++ ["Error: Tool '" +:+ name +:+ "' not found. Available: "
                       +:+ py_repr (PList (map (fun kt => PStr kt.1) tools_by_name))];
                 last_raw_result := last_raw_result s |}
        | Some t =>
            match ainvoke t (PDict (req_tool_args tool_request)) with
            | Ok r =>
                SubContinue
                  {| tool_results :=
                       tool_results s
                       ++ ["Tool '" +:+ name +:+ "' returned: " +:+ str_upto 1500 r];
                     last_raw_result := Some r |}
            | Raise e =>
                SubContinue
                  {| tool_results :=
                       tool_results s ++ ["Tool '" +:+ name +:+ "' error: " +:+ e];
                     last_raw_result := last_raw_result s |}
            end
        end
  end.

(** What is returned when the iterations are used up. *)
Definition sub_agent_exhausted (s : sub_state) : pyval :=
  if str_truthy (default EmptyString (last_raw_result s)) then
    PStr (str_upto 2000 (default EmptyString (last_raw_result s)))
  else
    match tool_results s with
    | _ :: _ => PStr (join nl (tool_results s))
    | [] => PStr "Could not complete the request."
    end.

Fixpoint sub_agent_loop (E : env) (tools : list tool)
    (tools_by_name : list (string * tool)) (system_prompt user_request : string)
    (todo iteration : nat) (s : sub_state) : pyval :=
  match todo with
  | O => sub_agent_exhausted s
  | S todo' =>
      match sub_agent_iteration E tools tools_by_name system_prompt user_request
                                iteration s with
      | SubReturn answer => answer
      | SubContinue s' =>
          sub_agent_loop E tools tools_by_name system_prompt user_request
                         todo' (S iteration) s'
      end
  end.

Definition run_sub_agent (E : env) (tools : list tool)
    (tools_by_name : list (string * tool)) (system_prompt user_request : string)
    (max_iterations : Z) : pyval :=
  sub_agent_loop E tools tools_by_name system_prompt user_request
                 (Z.to_nat max_iterations) 0
                 {| tool_results := []; last_raw_result := None |}.


(** The state in which iteration [k] of the loop starts, when the loop gets
    that far without returning. *)
Fixpoint sub_agent_state_at (E : env) (tools : list tool)
    (tools_by_name : list (string * tool)) (system_prompt user_request : string)
    (k : nat) : option sub_state :=
  match k with
  | O => Some {| tool_results := []; last_raw_result := None |}
  | S k' =>
      match sub_agent_state_at E tools tools_by_name system_prompt user_request k' with
      | Some s =>
          match sub_agent_iteration E tools tools_by_name system_prompt user_request
                                    k' s with
          | SubContinue s' => Some s'
          | SubReturn _ => None
          end
      | None => None
      end
  end.


End AgentGraph.

(** ** The REST layer ([email_agent/api.py]): threads and resumption *)

Module Api.
Import Py Exc.

(** One entry of [_extract_messages]. *)
Record message_view : Type := {
  view_type : string;
  view_content : string;
  view_tool_calls : list Messages.tool_call;
  view_name : option string
}.

Definition _extract_messages (st : Messages.State) : list message_view :=
  map (fun msg =>
         match msg with
         | Messages.HumanMessage c _ =>
             {| view_type := "HumanMessage"; view_content := c;
                view_tool_calls := []; view_name := None |}
         | Messages.AIMessage c tcs _ =>
             {| view_type := "AIMessage"; view_content := c;
                view_tool_calls := tcs; view_name := None |}
         | Messages.ToolMessage c n _ _ =>
             {| view_type := "ToolMessage"; view_content := c;
                view_tool_calls := []; view_name := Some n |}
         end)
      (Messages.messages st).

(** A thread of the [ThreadStore]. *)
Record thread : Type := {
  thread_id : string;
  status : string;
  created_at : string;
  updated_at : string;
  question : option string;
  messages : list message_view;
  interrupt : option HitlSchemas.HumanInterrupt;
  state : option Messages.State
}.

(** What the graph's checkpointer keeps of a thread: the state, and the
    decisions already given to the gate run that is suspended. *)
Record checkpoint : Type := {
  values : Messages.State;
  answered : list pyval
}.

(** The process state the endpoints work on: the thread store, the graph's
    checkpoints by thread, and the clock. *)
Record server : Type := {
  threads : gmap string thread;
  checkpoints : gmap string checkpoint;
  clock : nat
}.

Inductive response_type : Type := accept | ignore | response | edit.

Definition response_type_name (t : response_type) : string :=
  match t with
  | accept => "accept"
  | ignore => "ignore"
  | response => "response"
  | edit => "edit"
  end.

Record ResumeRequest : Type := {
  type : response_type;
  args : option pyval
}.

Record RunResponse : Type := {
  resp_thread_id : string;
  resp_status : string;
  resp_result : option (list message_view);
  resp_interrupt : option HitlSchemas.HumanInterrupt
}.

(** The deferred body of a streaming response: the arguments handed to
    [_run_graph_with_streaming], which runs after the endpoint returned. *)
Record StreamingResponse : Type := {
  stream_thread_id : string;
  stream_input : pyval
}.

Inductive http (A : Type) : Type :=
| Http200 (body : A)
| HTTPException (status_code : Z) (detail : string).

Arguments Http200 {A} body.
Arguments HTTPException {A} status_code detail.

Definition get_thread (srv : server) (id : string) : option thread :=
  threads srv !! id.

(** [datetime.now(UTC).isoformat()] at tick [n] of the clock. *)
Definition isoformat (n : nat) : string := "t" +:+ string_of_Z (Z.of_nat n).

(** [update_thread(thread_id, **updates)]: [f] applies the updates. *)
Definition update_thread (srv : server) (id : string) (f : thread -> thread)
  : result server :=
  match threads srv !! id with
  | None => Raise ("Thread " +:+ id +:+ " not found")
  | Some t =>
      let t' := f t in
      Ok {| threads :=
              <[id := {| thread_id := thread_id t'; status := status t';
                         created_at := created_at t';
                         updated_at := isoformat (clock srv);
                         question := question t'; messages := messages t';
                         interrupt := interrupt t'; state := state t' |}]>
                (threads srv);
            checkpoints := checkpoints srv;
            clock := S (clock srv) |}
  end.

Definition set_status (s : string) (t : thread) : thread :=
  {| thread_id := thread_id t; status := s; created_at := created_at t;
     updated_at := updated_at t; question := question t; messages := messages t;
     interrupt := interrupt t; state := state t |}.

Definition set_outcome (s : string) (i : option HitlSchemas.HumanInterrupt)
    (st : Messages.State) (t : thread) : thread :=
  {| thread_id := thread_id t; status := s; created_at := created_at t;
     updated_at := updated_at t; question := question t;
     messages := _extract_messages st; interrupt := i; state := Some st |}.

Definition save_checkpoint (srv : server) (id : string) (st : Messages.State)
    (given : list pyval) : server :=
  {| threads := threads srv;
     checkpoints := <[id := {| values := st; answered := given |}]> (checkpoints srv);
     clock := clock srv |}.

Definition human_response (request : ResumeRequest) : pyval :=
  PDict [ ("type", PStr (response_type_name (type request)));
          ("args", default PNone (args request)) ].

(** [update_thread] in a handler that lets its exception escape. *)
Definition updated (srv : server) (id : string) (f : thread -> thread) : server :=
  match update_thread srv id f with
  | Ok srv' => srv'
  | Raise _ => srv
  end.

(** The graph resumed with the human decision, then the thread brought up
    to date: the body of [resume_thread] after its checks. *)
Definition resume_graph (fuel : nat) (E : AgentGraph.env) (srv : server)
    (id : string) (request : ResumeRequest) : server * http RunResponse :=
  let failed (srv0 : server) (e : string) :=
    (updated srv0 id (set_status "error"), HTTPException 500 e) in
  match checkpoints srv !! id with
  | None => failed srv "no checkpoint to resume"
  | Some cp =>
      match AgentGraph.resume_run fuel E (values cp) (answered cp)
                                  (human_response request) with
      | AgentGraph.AwaitingApproval st' request' given =>
          let srv1 := save_checkpoint srv id st' given in
          match update_thread srv1 id (set_outcome "interrupted" (Some request') st') with
          | Ok srv2 =>
              (srv2, Http200 {| resp_thread_id := id; resp_status := "interrupted";
                                resp_result := None;
                                resp_interrupt := Some request' |})
          | Raise e => failed srv1 e
          end
      | AgentGraph.Concluded st' =>
          let srv1 := save_checkpoint srv id st' [] in
          match update_thread srv1 id (set_outcome "idle" None st') with
          | Ok srv2 =>
              (srv2, Http200 {| resp_thread_id := id; resp_status := "completed";
                                resp_result := Some (_extract_messages st');
                                resp_interrupt := None |})
          | Raise e => failed srv1 e
          end
      | AgentGraph.Failed st' e => failed (save_checkpoint srv id st' []) e
      | AgentGraph.Unfinished st' =>
          failed (save_checkpoint srv id st' []) "GraphRecursionError"
      end
  end.

(** [POST /threads/{thread_id}/resume] *)
Definition resume_thread (fuel : nat) (E : AgentGraph.env) (srv : server)
    (id : string) (request : ResumeRequest) : server * http RunResponse :=
  match get_thread srv id with
  | None => (srv, HTTPException 404 ("Thread " +:+ id +:+ " not found"))
  | Some t =>
      if negb (String.eqb (status t) "interrupted") then
        (srv, HTTPException 400
                ("Thread " +:+ id +:+ " is not interrupted (status: "
                 +:+ status t +:+ ")"))
      else
        match update_thread srv id (set_status "busy") with
        | Raise e => (srv, HTTPException 500 e)
        | Ok srv1 => resume_graph fuel E srv1 id request
        end
  end.

(** [POST /threads/{thread_id}/resume/stream] *)
Definition resume_thread_stream (srv : server) (id : string) (request : ResumeRequest)
  : server * http StreamingResponse :=
  match get_thread srv id with
  | None => (srv, HTTPException 404 ("Thread " +:+ id +:+ " not found"))
  | Some t =>
      if negb (String.eqb (status t) "interrupted") then
        (srv, HTTPException 400
                ("Thread " +:+ id +:+ " is not interrupted (status: "
                 +:+ status t +:+ ")"))
      else
        match update_thread srv id (set_status "busy") with
        | Raise e => (srv, HTTPException 500 e)
        | Ok srv1 =>
            (srv1, Http200 {| stream_thread_id := id;
                              stream_input := human_response request |})
        end
  end.

End Api.

(** ** SHA-256 ([hashlib.sha256]), on byte strings *)

Module Sha256.

Definition w32 (x : Z) : Z := x mod 4294967296.

Definition rotr (n x : Z) : Z := Z.lor (Z.shiftr x n) (w32 (Z.shiftl x (32 - n))).

Definition Ch (x y z : Z) : Z :=
  Z.lxor (Z.land x y) (Z.land (Z.lxor x 4294967295) z).

Definition Maj (x y z : Z) : Z :=
  Z.lxor (Z.lxor (Z.land x y) (Z.land x z)) (Z.land y z).

Definition Sigma0 (x : Z) : Z := Z.lxor (Z.lxor (rotr 2 x) (rotr 13 x)) (rotr 22 x).
Definition Sigma1 (x : Z) : Z := Z.lxor (Z.lxor (rotr 6 x) (rotr 11 x)) (rotr 25 x).
Definition sigma0 (x : Z) : Z := Z.lxor (Z.lxor (rotr 7 x) (rotr 18 x)) (Z.shiftr x 3).
Definition sigma1 (x : Z) : Z := Z.lxor (Z.lxor (rotr 17 x) (rotr 19 x)) (Z.shiftr x 10).

Definition K : list Z :=
  [
    1116352408; 1899447441; 3049323471; 3921009573; 961987163; 1508970993; 2453635748; 2870763221;
    3624381080; 310598401; 607225278; 1426881987; 1925078388; 2162078206; 2614888103; 3248222580;
    3835390401; 4022224774; 264347078; 604807628; 770255983; 1249150122; 1555081692; 1996064986;
    2554220882; 2821834349; 2952996808; 3210313671; 3336571891; 3584528711; 113926993; 338241895;
    666307205; 773529912; 1294757372; 1396182291; 1695183700; 1986661051; 2177026350; 2456956037;
    2730485921; 2820302411; 3259730800; 3345764771; 3516065817; 3600352804; 4094571909; 275423344;
    430227734; 506948616; 659060556; 883997877; 958139571; 1322822218; 1537002063; 1747873779;
    1955562222; 2024104815; 2227730452; 2361852424; 2428436474; 2756734187; 3204031479; 3329325298
  ].

Definition H0 : list Z :=
  [ 1779033703; 3144134277; 1013904242; 2773480762;
    1359893119; 2600822924; 528734635; 1541459225 ].

Definition bytes_of_string (s : string) : list Z :=
  map (fun c => Z.of_N (N_of_ascii c)) (list_ascii_of_string s).

(** The 64-bit big-endian encoding of [n]. *)
Definition be64 (n : Z) : list Z :=
  map (fun i => Z.shiftr n (8 * i) mod 256) [7; 6; 5; 4; 3; 2; 1; 0].

(** The message followed by the bit 1, zeros up to 56 modulo 64 bytes, and
    its length in bits. *)
Definition pad (msg : list Z) : list Z :=
  let len := Z.of_nat (length msg) in
  let zeros := Z.to_nat ((55 - len) mod 64) in
  msg ++ [128] ++ replicate zeros 0 ++ be64 (8 * len).

Fixpoint words_be (n : nat) (bytes : list Z) : list Z :=
  match n, bytes with
  | S n', b0 :: b1 :: b2 :: b3 :: rest =>
      (b0 * 16777216 + b1 * 65536 + b2 * 256 + b3) :: words_be n' rest
  | _, _ => []
  end.

(** The message schedule: sixteen words extended by [k] more. *)
Fixpoint extend (k : nat) (w : list Z) : list Z :=
  match k with
  | O => w
  | S k' =>
      let t := length w in
      extend k'
        (w ++ [w32 (sigma1 (nth (t - 2) w 0) + nth (t - 7) w 0
                    + sigma0 (nth (t - 15) w 0) + nth (t - 16) w 0)])
  end.

Definition round (h : list Z) (kw : Z * Z) : list Z :=
  match h with
  | [a; b; c; d; e; f; g; hh] =>
      let t1 := w32 (hh + Sigma1 e + Ch e f g + kw.1 + kw.2) in
      let t2 := w32 (Sigma0 a + Maj a b c) in
      [w32 (t1 + t2); a; b; c; w32 (d + t1); e; f; g]
  | _ => h
  end.

Definition compress (h : list Z) (block : list Z) : list Z :=
  let w := extend 48 (words_be 16 block) in
  zip_with (fun x y => w32 (x + y)) h (foldl round h (zip K w)).

Fixpoint blocks (n : nat) (h : list Z) (bytes : list Z) : list Z :=
  match n with
  | O => h
  | S n' => blocks n' (compress h (take 64 bytes)) (drop 64 bytes)
  end.

Definition digest (msg : list Z) : list Z :=
  let p := pad msg in
  blocks (length p / 64) H0 p.

Definition hex_digit (n : Z) : ascii :=
  ascii_of_N (Z.to_N (if n <? 10 then 48 + n else 87 + n)).

(** The eight hexadecimal digits of a word. *)
Definition hex32 (x : Z) : list ascii :=
  map (fun i => hex_digit (Z.shiftr x (4 * i) mod 16)) [7; 6; 5; 4; 3; 2; 1; 0].

(** [hashlib.sha256(s.encode()).hexdigest()] *)
Definition hexdigest (s : string) : string :=
  string_of_list_ascii (concat (map hex32 (digest (bytes_of_string s)))).

Definition is_hex_digit (c : ascii) : bool :=
  existsb (Ascii.eqb c) (list_ascii_of_string "0123456789abcdef").

End Sha256.

(** ** The email store ([email_agent/email_storage.py]) *)

Module EmailStorage.
Import Py Exc.

(** An email as imported: a dict from field names to values. *)
Abbreviation email := (gmap string pyval).

(** [email_data.get(k, '')] *)
Definition get_field (email_data : email) (k : string) : pyval :=
  default (PStr EmptyString) (email_data !! k).

(** The identifier of an email: the first sixteen hexadecimal digits of the
    SHA-256 hash of author, subject and body put end to end. *)
Definition email_id_of (email_data : email) : string :=
  str_upto 16
    (Sha256.hexdigest
       (py_str (get_field email_data "author")
        +:+ py_str (get_field email_data "subject")
        +:+ py_str (get_field email_data "body"))).

(** What a file of the storage directory holds: the dict a JSON document
    decodes to, or something [json.load] or the later [.get] calls reject. *)
Inductive file_content : Type :=
| JsonDict (d : email)
| Unreadable.

Record Document : Type := {
  page_content : string;
  md_email_id : string;
  md_author : pyval;
  md_subject : pyval
}.

(** The storage backends as the operations see them.  [local_files] is the
    listing of [blob_storage_path] by file name, [blobs] the container of
    the blob service, [vector_store] the indexed documents by identifier. *)
Record storage : Type := {
  storage_type : string;
  blob_storage_path : option string;
  local_files : gmap string file_content;
  blob_service : option (gmap string file_content);
  vector_store : option (gmap string Document)
}.

(** What the environment does to one call: which of the I/O steps raise. *)
Record io : Type := {
  blob_exists_raises : bool;
  file_write_raises : bool;
  blob_upload_raises : bool;
  add_documents_raises : bool
}.

Definition io_ok : io :=
  {| blob_exists_raises := false; file_write_raises := false;
     blob_upload_raises := false; add_documents_raises := false |}.

Definition file_name (email_id : string) : string := email_id +:+ ".json".

Definition stored_json (email_data : email) (email_id : string) : file_content :=
  JsonDict (<["email_id" := PStr email_id]> email_data).

(** The existence check at the head of [store_email]. *)
Definition already_stored (self : storage) (o : io) (email_id : string) : bool :=
  if String.eqb (storage_type self) "local" then
    bool_decide (is_Some (local_files self !! file_name email_id))
  else
    match blob_service self with
    | Some blobs =>
        if blob_exists_raises o then false
        else bool_decide (is_Some (blobs !! file_name email_id))
    | None => false
    end.

(** [str(uuid.UUID(email_id.ljust(32, '0')))] *)
Definition doc_uuid (email_id : string) : string :=
  let s := email_id +:+ "0000000000000000" in
  String.substring 0 8 s +:+ "-" +:+ String.substring 8 4 s +:+ "-"
    +:+ String.substring 12 4 s +:+ "-" +:+ String.substring 16 4 s +:+ "-"
    +:+ String.substring 20 12 s.

Definition document_of (email_data : email) (email_id : string) : Document :=
  {| page_content :=
       "From: " +:+ py_str (get_field email_data "author") +:+ nl
         +:+ "Subject: " +:+ py_str (get_field email_data "subject") +:+ nl +:+ nl
         +:+ py_str (get_field email_data "body");
     md_email_id := email_id;
     md_author := get_field email_data "author";
     md_subject := get_field email_data "subject" |}.

Definition store_file (self : storage) (o : io) (email_data : email) (email_id : string)
  : storage :=
  if String.eqb (storage_type self) "local" then
    if file_write_raises o then self
    else
      {| storage_type := storage_type self;
         blob_storage_path := blob_storage_path self;
         local_files :=
           <[file_name email_id := stored_json email_data email_id]> (local_files self);
         blob_service := blob_service self;
         vector_store := vector_store self |}
  else
    match blob_service self with
    | Some blobs =>
        if blob_upload_raises o
           || bool_decide (is_Some (blobs !! file_name email_id)) then self
        else
          {| storage_type := storage_type self;
             blob_storage_path := blob_storage_path self;
             local_files := local_files self;
             blob_service :=
               Some (<[file_name email_id := stored_json email_data email_id]> blobs);
             vector_store := vector_store self |}
    | None => self
    end.

Definition store_vector (self : storage) (o : io) (email_data : email) (email_id : string)
  : storage :=
  match vector_store self with
  | Some docs =>
      if add_documents_raises o then self
      else
        {| storage_type := storage_type self;
           blob_storage_path := blob_storage_path self;
           local_files := local_files self;
           blob_service := blob_service self;
           vector_store :=
             Some (<[doc_uuid email_id := document_of email_data email_id]> docs) |}
  | None => self
  end.

(** [store_email]: the store afterwards, and the identifier, or [None] for a
    duplicate that was skipped.  The two storing tasks touch different
    backends, so the order in which they run does not show. *)
Definition store_email (self : storage) (o : io) (email_data : email)
  : storage * option string :=
  let email_id := email_id_of email_data in
  if already_stored self o email_id then (self, None)
  else (store_vector (store_file self o email_data email_id) o email_data email_id,
        Some email_id).

(** The decision [bulk_import_emails] takes for one email, whose identifier
    it derives as [store_email] does. *)
Inductive import_action : Type :=
| SkipDuplicate
| RestoreFile
| StoreNew
| Reindex.

Definition bulk_import_action (vector_exists file_exists : bool) : import_action :=
  if vector_exists && file_exists then SkipDuplicate
  else if vector_exists && negb file_exists then RestoreFile
  else if negb file_exists then StoreNew
  else Reindex.

(** The identifier and the decision of [bulk_import_emails] for one email of
    a batch; [indexed] is the outcome of its query for the identifier in the
    embeddings table ([false] when there is no vector store or the query
    raises). *)
Definition bulk_import_plan (self : storage) (o : io) (indexed : string -> bool)
    (email_data : email) : string * import_action :=
  let email_id := email_id_of email_data in
  let vector_exists :=
    match vector_store self with
    | Some _ => indexed email_id
    | None => false
    end in
  (email_id, bulk_import_action vector_exists (already_stored self o email_id)).

(** *** Search *)

Record search_result : Type := {
  score : Q;
  content : string;
  snippet : string;
  author : pyval;
  subject : pyval;
  email_id : pyval
}.

(** [c.lower()] on ASCII. *)
Definition lower_ascii (c : ascii) : ascii :=
  let n := nat_of_ascii c in
  if (65 <=? n)%nat && (n <=? 90)%nat then ascii_of_nat (n + 32) else c.

Fixpoint lower (s : string) : string :=
  match s with
  | EmptyString => EmptyString
  | String c s' => String (lower_ascii c) (lower s')
  end.

(** The characters [str.split()] splits at. *)
Definition is_space (c : ascii) : bool :=
  let n := nat_of_ascii c in
  ((9 <=? n)%nat && (n <=? 13)%nat) || ((28 <=? n)%nat && (n <=? 32)%nat).

(** [s.split()]: the maximal runs of characters that are not white space.
    [cur] is the run being read, reversed. *)
Fixpoint split_go (cur : list ascii) (s : string) : list string :=
  match s with
  | EmptyString =>
      match cur with
      | [] => []
      | _ => [string_of_list_ascii (rev cur)]
      end
  | String c s' =>
      if is_space c then
        match cur with
        | [] => split_go [] s'
        | _ => string_of_list_ascii (rev cur) :: split_go [] s'
        end
      else split_go (c :: cur) s'
  end.

Definition split (s : string) : list string := split_go [] s.

Fixpoint starts_with (p s : string) : bool :=
  match p, s with
  | EmptyString, _ => true
  | String a p', String b s' => if Ascii.eqb a b then starts_with p' s' else false
  | String _ _, EmptyString => false
  end.

(** [word in text] *)
Fixpoint contains (word text : string) : bool :=
  starts_with word text
  || match text with
     | EmptyString => false
     | String _ text' => contains word text'
     end.

(** [sum(1 for word in query_words if word in text_lower)] *)
Definition match_score (query_words : list string) (text_lower : string) : Z :=
  Z.of_nat (length (filter (fun word => contains word text_lower = true) query_words)).

(** [text[:200] + '...' if len(text) > 200 else text] *)
Definition snippet_of (text : string) : string :=
  if (200 <? String.length text)%nat then str_upto 200 text +:+ "..." else text.

(** [f"{author} {subject} {body}"], the text a query is matched against. *)
Definition searchable_text (email_data : email) : string :=
  py_str (get_field email_data "author") +:+ " "
    +:+ py_str (get_field email_data "subject") +:+ " "
    +:+ py_str (get_field email_data "body").

(** The body of the loop over the files: the result for a file that decodes
    and matches at least one query word. *)
Definition text_match (query_words : list string) (f : file_content)
  : option search_result :=
  match f with
  | Unreadable => None
  | JsonDict email_data =>
      let text := searchable_text email_data in
      let s := match_score query_words (lower text) in
      if 0 <? s then
        Some {| score := inject_Z s;
                content := str_upto 500 text;
                snippet := snippet_of text;
                author := get_field email_data "author";
                subject := get_field email_data "subject";
                email_id := get_field email_data "email_id" |}
      else None
  end.

(** [glob("*.json")]: the names that end in [.json] and do not start with a
    dot.  The order of the listing is the file system's. *)
Definition ends_with (suffix s : string) : bool :=
  starts_with (String.rev suffix) (String.rev s).

Definition glob_json (files : gmap string file_content) : list file_content :=
  omap (fun kv : string * file_content =>
          if ends_with ".json" kv.1 && negb (starts_with "." kv.1)
          then Some kv.2 else None)
       (map_to_list files).

(** Insertion of [x] before the first result it does not score below. *)
Fixpoint insert_desc (x : search_result) (l : list search_result) : list search_result :=
  match l with
  | [] => [x]
  | y :: l' =>
      if Qle_bool (score y) (score x) then x :: y :: l'
      else y :: insert_desc x l'
  end.

(** [results.sort(key=lambda x: x['score'], reverse=True)]: a stable sort
    into descending order of score. *)
Definition sort_desc (l : list search_result) : list search_result :=
  foldr insert_desc [] l.

(** [l[:k]] for any integer [k]. *)
Definition slice_upto {A : Type} (k : Z) (l : list A) : list A :=
  if 0 <=? k then take (Z.to_nat k) l
  else take (length l - Z.to_nat (- k)) l.

Definition _text_search (self : storage) (query : string) (top_k : Z)
  : list search_result :=
  let query_words := split (lower query) in
  if String.eqb (storage_type self) "local"
     && str_truthy (default EmptyString (blob_storage_path self)) then
    slice_upto top_k (sort_desc (omap (text_match query_words) (glob_json (local_files self))))
  else [].

(** [vector_store.similarity_search_with_score(query, k)], a collaborator:
    the documents found with their scores, or an exception. *)
Definition similarity_search : Type :=
  gmap string Document -> string -> Z -> result (list (Document * Q)).

Definition format_result (r : Document * Q) : search_result :=
  {| score := r.2;
     content := page_content r.1;
     snippet := snippet_of (page_content r.1);
     author := md_author r.1;
     subject := md_subject r.1;
     email_id := PStr (md_email_id r.1) |}.

Definition search (similarity_search_with_score : similarity_search) (self : storage)
    (query : string) (top_k : Z) : list search_result :=
  match vector_store self with
  | Some docs =>
      match similarity_search_with_score docs query top_k with
      | Ok results => map format_result results
      | Raise _ => _text_search self query top_k
      end
  | None => _text_search self query top_k
  end.

(** Descending order of score. *)
Definition descending (l : list search_result) : Prop :=
  Sorted (fun a b => (score b <= score a)%Q) l.

(** The result stands for a stored email that holds one of the query's
    words. *)
Definition matches_query (self : storage) (query : string) (r : search_result) : Prop :=
  exists email_data word,
    JsonDict email_data ∈ glob_json (local_files self)
    /\ word ∈ split (lower query)
    /\ contains word (lower (searchable_text email_data)) = true
    /\ text_match (split (lower query)) (JsonDict email_data) = Some r.

(** What [search] relies on from the vector store: at most [k] documents,
    best score first. *)
Definition ranked_at_most (k : Z) (results : list (Document * Q)) : Prop :=
  Z.of_nat (length results) <= k
  /\ Sorted (fun a b : Document * Q => (b.2 <= a.2)%Q) results.

End EmailStorage.

(** ** The reconciler in the words of the specification

    A second description of what the supervisor's walk computes, to compare
    the walk with: the question open at a point of the log, and the two
    classes of tool results. *)

Module Reconciler.
Import Py Exc Messages AgentGraph.

(** A terminal answer: an assistant message with a [Done] tool call. *)
Definition is_terminal_answer (m : message) : bool :=
  existsb (fun tc => String.eqb (tc_name tc) "Done") (tool_calls_of m).

(** The question open after the messages [rev_log], latest first: that of
    the latest user message, unless a terminal answer came after it. *)
Fixpoint open_question_back (rev_log : list message) : option string :=
  match rev_log with
  | [] => None
  | HumanMessage q _ :: _ => Some q
  | m :: earlier =>
      if is_terminal_answer m then None else open_question_back earlier
  end.

Definition open_question (log : list message) : option string :=
  open_question_back (rev log).

(** The tool result at position [i] of [log] is fresh for [input] when the
    question open in front of it is [input]. *)
Definition is_fresh (input : string) (log : list message) (i : nat) : bool :=
  bool_decide (open_question (take i log) = Some input).

Definition fresh_at (input : string) (log : list message) (i : nat) (m : message)
  : option string :=
  match m with
  | ToolMessage content name _ _ =>
      if is_fresh input log i then Some (fresh_entry name content) else None
  | _ => None
  end.

Definition archived_at (input : string) (log : list message) (i : nat) (m : message)
  : option string :=
  match m with
  | ToolMessage content name _ _ =>
      if is_fresh input log i then None else Some (previous_entry name content)
  | _ => None
  end.

Definition freshToolResults (input : string) (log : list message) : list string :=
  omap id (imap (fresh_at input log) log).

Definition archivedToolResults (input : string) (log : list message) : list string :=
  omap id (imap (archived_at input log) log).

(** Every [Done] call of the log carries a dict of arguments, as all calls
    the supervisor builds do. *)
Definition answer_is_dict (tc : tool_call) : bool :=
  if String.eqb (tc_name tc) "Done" then
    match tc_args tc with PDict _ => true | _ => false end
  else true.

Definition answers_are_dicts (log : list message) : bool :=
  forallb (fun m => forallb answer_is_dict (tool_calls_of m)) log.

(** A completed exchange: the question, the tool calls made for it with
    their results, and the terminal answer. *)
Record tool_step : Type := {
  step_call : tool_call;
  step_result : string
}.

Definition step_messages (s : tool_step) : list message :=
  [ AIMessage EmptyString [step_call s] None;
    ToolMessage (step_result s) (tc_name (step_call s)) (tc_id (step_call s)) None ].

Definition done_call (answer : string) : tool_call :=
  {| tc_name := "Done"; tc_args := PDict [("answer", PStr answer)];
     tc_id := "call_done" |}.

Definition exchange (q : string) (steps : list tool_step) (answer : string)
  : list message :=
  HumanMessage q None :: concat (map step_messages steps)
    ++ [AIMessage EmptyString [done_call answer] None].

Definition not_done (s : tool_step) : bool :=
  negb (String.eqb (tc_name (step_call s)) "Done").

(** A log of completed exchanges without tool calls, and its transcript. *)
Definition plain_log (es : list (string * string)) : list message :=
  concat (map (fun qa : string * string => exchange qa.1 [] qa.2) es).

Definition transcript (es : list (string * string)) : list string :=
  concat (map (fun qa : string * string =>
                 ["User: " +:+ qa.1; "Assistant: " +:+ qa.2]) es).


End Reconciler.

(** ** Dates and date ranges ([get_date_range_for_query] in
    [email_agent/agent_graph.py]) *)

Module DateRange.
Import Py EmailStorage.

(** A [datetime.date] is its proleptic Gregorian ordinal
    ([date.toordinal()]): day 1 is 0001-01-01.  Adding a [timedelta] of [n]
    days adds [n]; the dates handled are far from [date.min] and [date.max],
    so that no addition overflows. *)
Definition date : Type := Z.

(** [d.weekday()]: Monday is 0. *)
Definition weekday (d : date) : Z := (d + 6) mod 7.

Definition is_leap (year : Z) : bool :=
  (year mod 4 =? 0) && (negb (year mod 100 =? 0) || (year mod 400 =? 0)).

Definition days_before_year (year : Z) : Z :=
  let y := year - 1 in y * 365 + y / 4 - y / 100 + y / 400.

Definition days_in_month (year month : Z) : Z :=
  if month =? 2 then (if is_leap year then 29 else 28)
  else if (month =? 4) || (month =? 6) || (month =? 9) || (month =? 11) then 30
  else 31.

Definition days_before_month (year month : Z) : Z :=
  fold_right Z.add 0
    (map (days_in_month year) (map Z.of_nat (seq 1 (Z.to_nat (month - 1))))).

(** [date(year, month, day).toordinal()] *)
Definition ymd2ord (year month day : Z) : date :=
  days_before_year year + days_before_month year month + day.

(** [(d.year, d.month, d.day)], as [datetime._ord2ymd] computes it. *)
Definition ord2ymd (d : date) : Z * Z * Z :=
  let n := d - 1 in
  let n400 := n / 146097 in
  let n := n mod 146097 in
  let n100 := n / 36524 in
  let n := n mod 36524 in
  let n4 := n / 1461 in
  let n := n mod 1461 in
  let n1 := n / 365 in
  let n := n mod 365 in
  let year := n400 * 400 + 1 + n100 * 100 + n4 * 4 + n1 in
  if (n1 =? 4) || (n100 =? 4) then (year - 1, 12, 31)
  else
    let leapyear := (n1 =? 3) && (negb (n4 =? 24) || (n100 =? 3)) in
    let month := Z.shiftr (n + 50) 5 in
    let preceding :=
      days_before_month 1 month + (if (2 <? month) && leapyear then 1 else 0) in
    if n <? preceding then
      let month' := month - 1 in
      let preceding' :=
        preceding - (days_in_month 1 month'
                     + (if (month' =? 2) && leapyear then 1 else 0)) in
      (year, month', n - preceding' + 1)
    else (year, month, n - preceding + 1).

(** [str(n).zfill(width)] for a non-negative [n]. *)
Definition zfill (width : nat) (n : Z) : string :=
  let s := string_of_Z n in
  string_of_list_ascii (replicate (width - String.length s) "0"%char) +:+ s.

(** [d.isoformat()] *)
Definition isoformat (d : date) : string :=
  let '(y, m, dd) := ord2ymd d in
  zfill 4 y +:+ "-" +:+ zfill 2 m +:+ "-" +:+ zfill 2 dd.

(** The range of dates chosen for a query, before it is formatted. *)
Definition date_range (today : date) (query : string) : date * date :=
  let query_lower := lower query in
  if contains "today" query_lower then (today, today + 1)
  else if contains "tomorrow" query_lower then (today + 1, today + 2)
  else if contains "this week" query_lower || contains "week" query_lower then
    let start := today - weekday today in
    (start, start + 7)
  else if contains "next week" query_lower then
    let start := today - weekday today + 7 in
    (start, start + 7)
  else if contains "this month" query_lower || contains "month" query_lower then
    let '(year, month, _) := ord2ymd today in
    (ymd2ord year month 1,
     if month =? 12 then ymd2ord (year + 1) 1 1 else ymd2ord year (month + 1) 1)
  else (today, today + 7).

Definition get_date_range_for_query (today : date) (query : string) : string * string :=
  let (start, end_) := date_range today query in
  (isoformat start +:+ "T00:00:00", isoformat end_ +:+ "T23:59:59").

Definition date_keywords : list string :=
  ["today"; "tomorrow"; "this week"; "next week"; "week"; "this month"; "month"].

(** The hint [calendar_sub_agent] adds to the system prompt of the calendar
    specialist. *)
Definition date_hint (today : date) (request : string) : string :=
  let request_lower := lower request in
  if existsb (fun kw => contains kw request_lower) date_keywords then
    let (start_dt, end_dt) := get_date_range_for_query today request in
    nl +:+ nl +:+ "DATE RANGE HINT: For this query, use these dates:" +:+ nl
      +:+ "- startDateTime: " +:+ dquote +:+ start_dt +:+ dquote +:+ nl
      +:+ "- endDateTime: " +:+ dquote +:+ end_dt +:+ dquote +:+ nl
  else EmptyString.

End DateRange.

(** ** The search tool of the supervisor ([search_email_history] in
    [email_agent/agent_graph.py]) *)

Module SearchTool.
Import Py Exc EmailStorage.

(** One numbered entry per result, or a fixed text when there is none. *)
Definition search_email_history (similarity_search_with_score : similarity_search)
    (email_storage : storage) (query : string) (top_k : Z) : string :=
  match search similarity_search_with_score email_storage query top_k with
  | [] => "No emails found."
  | results =>
      join (nl +:+ nl)
           (imap (fun i r =>
                    string_of_Z (Z.of_nat i + 1) +:+ ". From: " +:+ py_str (author r)
                      +:+ ", Subject: " +:+ py_str (subject r) +:+ nl +:+ snippet r)
                 results)
  end.

End SearchTool.


(** ** The REST layer: the thread store, new runs and the end of a
    streamed run *)

Module Threads.
Import Py Exc Api.

(** [ThreadStore.create_thread]: a thread stored under an identifier in use
    takes the place of the one that was there. *)
Definition create_thread (srv : server) (id : string) (q : option string) : server :=
  let now := isoformat (clock srv) in
  {| threads :=
       <[id := {| thread_id := id; status := "idle"; created_at := now;
                  updated_at := now; question := q; messages := [];
                  interrupt := None; state := None |}]>
         (threads srv);
     checkpoints := checkpoints srv;
     clock := S (clock srv) |}.

(** [ThreadStore.delete_thread]: the graph's checkpoints are not touched. *)
Definition delete_thread (srv : server) (id : string) : server * bool :=
  match threads srv !! id with
  | Some _ =>
      ({| threads := delete id (threads srv); checkpoints := checkpoints srv;
          clock := clock srv |}, true)
  | None => (srv, false)
  end.

(** Insertion of [x] before the first thread that was not updated later. *)
Fixpoint insert_latest (x : thread) (l : list thread) : list thread :=
  match l with
  | [] => [x]
  | y :: l' =>
      if String.leb (updated_at y) (updated_at x) then x :: y :: l'
      else y :: insert_latest x l'
  end.

(** [threads.sort(key=lambda t: t["updated_at"], reverse=True)] *)
Definition sort_latest (l : list thread) : list thread := foldr insert_latest [] l.

(** [ThreadStore.list_threads].  [self.threads.values()] lists the threads
    in the order in which they were created; the map lists them in an order
    of its own, which shows only among threads updated at the same
    instant. *)
Definition list_threads (srv : server) (status_filter : option string) (limit : Z)
  : list thread :=
  let all := (map_to_list (threads srv)).*2 in
  let selected :=
    if str_truthy (default EmptyString status_filter) then
      filter (fun t => status t = default EmptyString status_filter) all
    else all in
  EmailStorage.slice_upto limit (sort_latest selected).

Definition latest_first (l : list thread) : Prop :=
  Sorted (fun a b => String.leb (updated_at b) (updated_at a) = true) l.

Record ThreadDetail : Type := {
  detail_thread_id : string;
  detail_status : string;
  detail_created_at : string;
  detail_updated_at : string;
  detail_messages : list message_view;
  detail_interrupt : option HitlSchemas.HumanInterrupt
}.

Definition not_found {A : Type} (id : string) : http A :=
  HTTPException 404 ("Thread " +:+ id +:+ " not found").

(** [GET /threads/{thread_id}] *)
Definition get_thread_detail (srv : server) (id : string) : http ThreadDetail :=
  match get_thread srv id with
  | None => not_found id
  | Some t =>
      Http200 {| detail_thread_id := thread_id t; detail_status := status t;
                 detail_created_at := created_at t; detail_updated_at := updated_at t;
                 detail_messages := messages t; detail_interrupt := interrupt t |}
  end.

(** [GET /threads/{thread_id}/state] *)
Definition get_thread_state (srv : server) (id : string)
  : http (string * option Messages.State * option HitlSchemas.HumanInterrupt) :=
  match get_thread srv id with
  | None => not_found id
  | Some t => Http200 (id, state t, interrupt t)
  end.

(** [DELETE /threads/{thread_id}] *)
Definition delete_thread_endpoint (srv : server) (id : string)
  : server * http (string * string) :=
  let (srv', deleted) := delete_thread srv id in
  if deleted then (srv', Http200 ("deleted", id)) else (srv', not_found id).

Record RunRequest : Type := {
  run_question : option string;
  run_email_input : option string;
  run_thread_id : option string
}.

(** The state of a thread the graph has no checkpoint of. *)
Definition initial_state : Messages.State :=
  {| Messages.messages := []; Messages.question := None;
     Messages.email_input := None; Messages.classification_decision := None;
     Messages.next_uuid := 0 |}.

(** [str(e)] of an [HTTPException], as Starlette defines it: the status
    code, a colon and the detail. *)
Definition str_http_exception (status_code : Z) (detail : string) : string :=
  string_of_Z status_code +:+ ": " +:+ detail.

(** [request.thread_id or f"thread_{uuid.uuid4().hex[:12]}"]; [fresh_hex]
    is [uuid.uuid4().hex]. *)
Definition thread_id_of_run (fresh_hex : string) (request : RunRequest) : string :=
  if str_truthy (default EmptyString (run_thread_id request))
  then default EmptyString (run_thread_id request)
  else "thread_" +:+ str_upto 12 fresh_hex.

(** [POST /runs].  [get_graph] is the outcome of [await get_graph()]: the
    graph with its collaborators, or the exception its initialisation
    raises, which only the handler of the outer [try] sees.  The handler of
    the inner [try], around the run of the graph, raises an [HTTPException],
    which the handler of the outer [try] catches in turn. *)
Definition create_run (fuel : nat) (get_graph : result AgentGraph.env)
    (fresh_hex : string) (srv : server) (request : RunRequest)
  : server * http RunResponse :=
  let id := thread_id_of_run fresh_hex request in
  let srv0 :=
    match get_thread srv id with
    | Some _ => srv
    | None => create_thread srv id (run_question request)
    end in
  match update_thread srv0 id (set_status "busy") with
  | Raise e => (srv0, HTTPException 500 e)
  | Ok srv1 =>
      match get_graph with
      | Raise e => (updated srv1 id (set_status "error"), HTTPException 500 e)
      | Ok E =>
          let failed (srv' : server) (e : string) :=
            (updated (updated srv' id (set_status "error")) id (set_status "error"),
             HTTPException 500 (str_http_exception 500 e)) in
          let st :=
            match checkpoints srv1 !! id with
            | Some cp => values cp
            | None => initial_state
            end in
          match AgentGraph.start_run fuel E st (run_question request)
                                     (PStr <$> run_email_input request) with
          | AgentGraph.AwaitingApproval st' request' given =>
              let srv2 := save_checkpoint srv1 id st' given in
              match update_thread srv2 id
                                  (set_outcome "interrupted" (Some request') st') with
              | Ok srv3 =>
                  (srv3, Http200 {| resp_thread_id := id;
                                    resp_status := "interrupted";
                                    resp_result := None;
                                    resp_interrupt := Some request' |})
              | Raise e => failed srv2 e
              end
          | AgentGraph.Concluded st' =>
              let srv2 := save_checkpoint srv1 id st' [] in
              match update_thread srv2 id (set_outcome "idle" None st') with
              | Ok srv3 =>
                  (srv3, Http200 {| resp_thread_id := id; resp_status := "completed";
                                    resp_result := Some (_extract_messages st');
                                    resp_interrupt := None |})
              | Raise e => failed srv2 e
              end
          | AgentGraph.Failed st' e => failed (save_checkpoint srv1 id st' []) e
          | AgentGraph.Unfinished st' =>
              failed (save_checkpoint srv1 id st' []) "GraphRecursionError"
          end
      end
  end.

(** *** The end of a streamed run ([_run_graph_with_streaming]) *)

(** [tc.get("args", {}).get("answer")] of the first call named [Done]. *)
Definition first_done_answer (tcs : list Messages.tool_call) (otherwise : pyval)
  : result pyval :=
  match List.find (fun tc => String.eqb (Messages.tc_name tc) "Done") tcs with
  | None => Ok otherwise
  | Some tc =>
      match Messages.tc_args tc with
      | PDict d => Ok (dict_get_default "answer" PNone d)
      | _ => Raise "AttributeError: object has no attribute 'get'"
      end
  end.

(** The first loop over [reversed(messages)]. *)
Fixpoint done_answer_from (reversed : list message_view) (final_answer : pyval)
  : result pyval :=
  match reversed with
  | [] => Ok final_answer
  | msg :: rest =>
      final_answer' ←
        (if String.eqb (view_type msg) "AIMessage"
            && match view_tool_calls msg with [] => false | _ => true end
         then first_done_answer (view_tool_calls msg) final_answer
         else Ok final_answer);
      if truthy final_answer' then Ok final_answer'
      else done_answer_from rest final_answer'
  end.

(** The answer of the [done] event. *)
Definition final_answer (messages : list message_view) : result pyval :=
  found ← done_answer_from (rev messages) PNone;
  let final_answer :=
    if truthy found then found
    else
      match List.find (fun msg => str_truthy (view_content msg)) (rev messages) with
      | Some msg => PStr (view_content msg)
      | None => found
      end in
  Ok (if truthy final_answer then final_answer else PStr "Task completed.").

Inductive sse_event : Type :=
| InterruptEvent (thread_id : string) (interrupt : option HitlSchemas.HumanInterrupt)
| DoneEvent (thread_id : string) (answer : pyval) (messages : list message_view)
| ErrorEvent (thread_id : string) (error : string).

(** What [_run_graph_with_streaming] does once the graph has stopped with
    [outcome]: the thread is brought up to date and the last event of the
    stream is produced.  The events of the steps before are not modelled. *)
Definition finish_stream (srv : server) (id : string) (outcome : AgentGraph.run_status)
  : server * sse_event :=
  let failed (srv' : server) (e : string) :=
    (updated srv' id (set_status "error"), ErrorEvent id e) in
  match outcome with
  | AgentGraph.AwaitingApproval st' request' given =>
      let srv1 := save_checkpoint srv id st' given in
      match update_thread srv1 id (set_outcome "interrupted" (Some request') st') with
      | Ok srv2 => (srv2, InterruptEvent id (Some request'))
      | Raise e => failed srv1 e
      end
  | AgentGraph.Concluded st' =>
      let srv1 := save_checkpoint srv id st' [] in
      match final_answer (_extract_messages st') with
      | Raise e => failed srv1 e
      | Ok answer =>
          match update_thread srv1 id (set_outcome "idle" None st') with
          | Ok srv2 => (srv2, DoneEvent id answer (_extract_messages st'))
          | Raise e => failed srv1 e
          end
      end
  | AgentGraph.Failed st' e => failed (save_checkpoint srv id st' []) e
  | AgentGraph.Unfinished st' =>
      failed (save_checkpoint srv id st' []) "GraphRecursionError"
  end.

End Threads.

(** ** Bulk import ([EmailStorage.bulk_import_emails]) *)

Module BulkImport.
Import Py Exc EmailStorage.

Record stats : Type := {
  stored : Z;
  skipped : Z;
  failed : Z
}.

Definition no_stats : stats := {| stored := 0; skipped := 0; failed := 0 |}.

(** The emails accounted for. *)
Definition counted (st : stats) : Z := stored st + skipped st + failed st.

(** What the environment does during an import: the I/O of the email at a
    position of the list, whether the query of the embeddings table for it
    raises, and whether the indexing of the batch that starts at a position
    raises. *)
Record import_env : Type := {
  email_io : nat -> io;
  index_query_raises : nat -> bool;
  batch_index_raises : nat -> bool
}.

(** The check of the embeddings table.  [self.connection_pool] is set by
    [_init_local_vector_store] only, together with the vector store; a store
    of another type has no such attribute, and reading it raises. *)
Definition vector_exists (self : storage) (env : import_env) (position : nat)
    (email_id : string) : result bool :=
  match vector_store self with
  | None => Ok false
  | Some docs =>
      if String.eqb (storage_type self) "local" then
        if index_query_raises env position then Ok false
        else Ok (existsb (fun kv : string * Document =>
                            String.eqb (md_email_id kv.2) email_id)
                         (map_to_list docs))
      else
        Raise "AttributeError: 'EmailStorage' object has no attribute 'connection_pool'"
  end.

(** One email of a batch, with its position in the list, its identifier and
    what is to be done with it. *)
Record planned : Type := {
  position : nat;
  email_data : email;
  planned_id : string;
  todo : import_action
}.

Definition plan_email (self : storage) (env : import_env) (position : nat)
    (email_data : email) : result planned :=
  let email_id := email_id_of email_data in
  v ← vector_exists self env position email_id;
  Ok {| position := position; email_data := email_data; planned_id := email_id;
        todo := bulk_import_action
                  v (already_stored self (email_io env position) email_id) |}.

(** The first loop over the batch: all emails are looked up before anything
    is stored. *)
Fixpoint plan_batch (self : storage) (env : import_env) (position : nat)
    (batch : list email) : result (list planned) :=
  match batch with
  | [] => Ok []
  | email_data :: rest =>
      p ← plan_email self env position email_data;
      ps ← plan_batch self env (S position) rest;
      Ok (p :: ps)
  end.

Definition is_skip (p : planned) : bool :=
  match todo p with SkipDuplicate => true | _ => false end.

(** [file_only_emails] *)
Definition is_file_only (p : planned) : bool :=
  match todo p with RestoreFile => true | _ => false end.

(** [new_emails] *)
Definition is_new (p : planned) : bool :=
  match todo p with StoreNew | Reindex => true | _ => false end.

(** The emails a file-storing task is created for. *)
Definition needs_file (p : planned) : bool :=
  match todo p with RestoreFile | StoreNew => true | _ => false end.

(** The file-storing tasks ([_store_file_async]), run in the order of the
    list; run concurrently they differ only in which of two emails with the
    same identifier is written last. *)
Definition store_files (self : storage) (env : import_env) (plan : list planned)
  : storage :=
  foldl (fun s p =>
           if needs_file p
           then store_file s (email_io env (position p)) (email_data p) (planned_id p)
           else s)
        self plan.

(** [_batch_index_vectors] on the documents of [new_emails]. *)
Definition index_batch (docs : gmap string Document) (new_emails : list planned)
  : gmap string Document :=
  foldl (fun d p =>
           <[doc_uuid (planned_id p) := document_of (email_data p) (planned_id p)]> d)
        docs new_emails.

Definition count {A : Type} (f : A -> bool) (l : list A) : Z :=
  Z.of_nat (length (filter (fun x => f x = true) l)).

(** One turn of the loop over the batches. *)
Definition import_batch (self : storage) (env : import_env) (start : nat)
    (batch : list email) (st : stats) : result (storage * stats) :=
  plan ← plan_batch self env start batch;
  let self1 := store_files self env plan in
  let new_emails := filter (fun p => is_new p = true) plan in
  let st1 := {| stored := stored st + count is_file_only plan;
                skipped := skipped st + count is_skip plan;
                failed := failed st |} in
  match new_emails with
  | [] => Ok (self1, st1)
  | _ :: _ =>
      match vector_store self1 with
      | Some docs =>
          if batch_index_raises env start then
            Ok (self1, {| stored := stored st1; skipped := skipped st1;
                          failed := failed st1 + count is_new plan |})
          else
            Ok ({| storage_type := storage_type self1;
                   blob_storage_path := blob_storage_path self1;
                   local_files := local_files self1;
                   blob_service := blob_service self1;
                   vector_store := Some (index_batch docs new_emails) |},
                {| stored := stored st1 + count is_new plan; skipped := skipped st1;
                   failed := failed st1 |})
      | None =>
          Ok (self1, {| stored := stored st1 + count is_new plan; skipped := skipped st1;
                        failed := failed st1 |})
      end
  end.

(** [for i in range(0, total, batch_size)], for a positive size; [fuel]
    bounds the number of batches. *)
Fixpoint import_batches (fuel batch_size : nat) (self : storage) (env : import_env)
    (start : nat) (rest : list email) (st : stats) : result (storage * stats) :=
  match fuel, rest with
  | _, [] => Ok (self, st)
  | O, _ => Ok (self, st)
  | S fuel', _ =>
      r ← import_batch self env start (take batch_size rest) st;
      import_batches fuel' batch_size r.1 env (start + batch_size)
                     (drop batch_size rest) r.2
  end.

Definition bulk_import_emails (self : storage) (env : import_env)
    (email_list : list email) (batch_size : Z) : result (storage * stats) :=
  if batch_size =? 0 then Raise "ValueError: range() arg 3 must not be zero"
  else if batch_size <? 0 then Ok (self, no_stats)
  else import_batches (length email_list) (Z.to_nat batch_size) self env 0 email_list
                      no_stats.

End BulkImport.

(** ** Normalising fetched emails ([email_agent/import_emails.py]) *)

Module ImportEmails.
Import Py Exc EmailStorage.

(** [d.get(k) or dflt] *)
Definition get_or (k : string) (dflt : pyval) (d : pydict) : pyval :=
  match dict_get k d with
  | Some v => if truthy v then v else dflt
  | None => dflt
  end.

(** The address of one entry of [toRecipients], when it has one. *)
Definition recipient_address (recip : pyval) : option pyval :=
  match recip with
  | PDict r =>
      match get_or "emailAddress" (PDict []) r with
      | PDict recip_email =>
          match dict_get "address" recip_email with
          | Some addr => if truthy addr then Some addr else None
          | None => None
          end
      | _ => None
      end
  | _ => None
  end.

(** [", ".join(l)], which raises unless every item is text. *)
Fixpoint texts (l : list pyval) : option (list string) :=
  match l with
  | [] => Some []
  | PStr s :: rest => cons s <$> texts rest
  | _ :: _ => None
  end.

Definition join_addresses (l : list pyval) : option string := join ", " <$> texts l.

(** [normalize_email]: the normalised email, or [None] for an item that is
    not a filled mapping, and for one whose fields make the body raise.
    [now] is the time of the call. *)
Definition normalize_email (now : string) (email_item : pyval) : option email :=
  match email_item with
  | PDict d =>
      if negb (truthy email_item) then None
      else
        let from_field := get_or "from" (PDict []) d in
        let email_address :=
          match from_field with
          | PDict f => get_or "emailAddress" (PDict []) f
          | _ => PDict []
          end in
        let to_recipients := get_or "toRecipients" (PList []) d in
        let to_addresses :=
          match to_recipients with
          | PList l => omap recipient_address l
          | _ => []
          end in
        let body_content :=
          if truthy (dict_get_default "bodyPreview" PNone d) then
            dict_get_default "bodyPreview" PNone d
          else
            match dict_get_default "body" PNone d with
            | PDict body =>
                if truthy (PDict body)
                then dict_get_default "content" (PStr EmptyString) body
                else PStr EmptyString
            | _ => PStr EmptyString
            end in
        to ← join_addresses to_addresses;
        Some ({[ "author" :=
                   match email_address with
                   | PDict a => dict_get_default "address" (PStr "unknown") a
                   | _ => PStr "unknown"
                   end;
                 "to" := PStr to;
                 "subject" := dict_get_default "subject" (PStr "(No subject)") d;
                 "body" := body_content;
                 "received_at" := dict_get_default "receivedDateTime" (PStr now) d;
                 "message_id" := dict_get_default "id" (PStr EmptyString) d ]} : email)
  | _ => None
  end.

(** [process_emails_async]: the items that normalise, in their order;
    [now] gives the time of the call for each position. *)
Definition process_emails_async (now : nat -> string) (email_list : list pyval)
  : list email :=
  omap (fun x => x)
       (imap (fun i email_item => normalize_email (now i) email_item) email_list).

(** The fields of a fetched item that decide the identifier under which it
    is stored. *)
Definition same_sender_subject_body (d1 d2 : pydict) : Prop :=
  dict_get "from" d1 = dict_get "from" d2
  /\ dict_get "subject" d1 = dict_get "subject" d2
  /\ dict_get "bodyPreview" d1 = dict_get "bodyPreview" d2
  /\ dict_get "body" d1 = dict_get "body" d2.

End ImportEmails.

(** ** The user messages of a log *)

Module UserMessages.
Import Messages.

(** The log holds a user message with the text [u]. *)
Definition asked_in (u : string) (log : list message) : Prop :=
  exists i, HumanMessage u i ∈ log.

End UserMessages.

(** ** The tools that returned during a sub-agent turn *)

Module SubAgentTrace.
Import Py Exc AgentGraph.

(** The raw output of the tool run in iteration [k]: there is one when the
    loop gets to that iteration, the output of the completion service
    parses and names a tool other than [DONE] that is registered, and the
    tool returns. *)
Definition tool_output_at (E : env) (tools : list tool)
    (tools_by_name : list (string * tool)) (system_prompt user_request : string)
    (k : nat) : option string :=
  match sub_agent_state_at E tools tools_by_name system_prompt user_request k with
  | Some s =>
      match sub_llm E k (sub_agent_prompt tools system_prompt user_request
                                          (tool_results s)) with
      | Ok tool_request =>
          if String.eqb (req_tool_name tool_request) "DONE" then None
          else
            match lookup_tool (req_tool_name tool_request) tools_by_name with
            | Some t =>
                match ainvoke t (PDict (req_tool_args tool_request)) with
                | Ok r => Some r
                | Raise _ => None
                end
            | None => None
            end
      | Raise _ => None
      end
  | None => None
  end.

(** The raw outputs of the tools that returned in the iterations before
    [k], in the order of the iterations; the last of them is the output of
    the latest tool that returned. *)
Definition returned_outputs (E : env) (tools : list tool)
    (tools_by_name : list (string * tool)) (system_prompt user_request : string)
    (k : nat) : list string :=
  omap (tool_output_at E tools tools_by_name system_prompt user_request) (seq 0 k).

End SubAgentTrace.

(** ** Concrete runs, used to exercise the statements below *)

Module Examples.
Import Py Exc Messages HitlSchemas AgentGraph Reconciler.

(** A completion service that always selects the same tool. *)
Definition selects (name : string) (args : pydict) : string -> result ToolCallRequest :=
  fun _ => Ok {| req_tool_name := name; req_tool_args := args |}.

(** A completion service whose output does not parse. *)
Definition unparseable : string -> result ToolCallRequest :=
  fun _ => Raise "Invalid JSON output".

Definition env_with (llm : string -> result ToolCallRequest)
    (sub : nat -> string -> result ToolCallRequest) : env :=
  {| CURRENT_DATE := "2025-12-03";
     now_timestamp := "1764720000.0";
     supervisor_tools := [];
     llm_tool_selector := llm;
     sub_llm := sub;
     parse_email := fun _ => ("sender", "me", "subject", "thread");
     tool_node := fun name _ => "Result of " +:+ name |}.

Definition send_hi : string := "send email to a@example.com saying hi".

Definition mail_env : env :=
  env_with (selects "manage_email" [("request", PStr send_hi)])
           (fun _ _ => Raise "Invalid JSON output").

Definition broken_env : env :=
  env_with unparseable (fun _ _ => Raise "Invalid JSON output").

(** A thread on which [q] has just been asked. *)
Definition asking (q : string) : State :=
  {| messages := []; question := Some q; email_input := None;
     classification_decision := None; next_uuid := 0 |}.

Definition mail_call : tool_call :=
  {| tc_name := "manage_email"; tc_args := PDict [("request", PStr send_hi)];
     tc_id := "call_1764720000.0" |}.

(** The run suspended on the approval of the [manage_email] call. *)
Definition awaiting_mail : State :=
  {| messages := [ HumanMessage send_hi (Some "msg-0");
                   AIMessage EmptyString [mail_call] (Some "msg-1") ];
     question := Some send_hi; email_input := None;
     classification_decision := None; next_uuid := 2 |}.

Definition decision (type : string) (args : pyval) : pyval :=
  PDict [("type", PStr type); ("args", args)].

(** A thread store holding that run, suspended. *)
Definition suspended_thread : Api.thread :=
  {| Api.thread_id := "thread_1"; Api.status := "interrupted";
     Api.created_at := "t0"; Api.updated_at := "t1";
     Api.question := Some send_hi;
     Api.messages := Api._extract_messages awaiting_mail;
     Api.interrupt := None;
     Api.state := Some awaiting_mail |}.

Definition suspended_server : Api.server :=
  {| Api.threads := {[ "thread_1" := suspended_thread ]};
     Api.checkpoints :=
       {[ "thread_1" := {| Api.values := awaiting_mail; Api.answered := [] |} ]};
     Api.clock := 2 |}.

(** The same store after the run has concluded. *)
Definition idle_server : Api.server :=
  {| Api.threads := {[ "thread_1" := Api.set_status "idle" suspended_thread ]};
     Api.checkpoints :=
       {[ "thread_1" := {| Api.values := awaiting_mail; Api.answered := [] |} ]};
     Api.clock := 3 |}.

Definition search_step : tool_step :=
  {| step_call := {| tc_name := "search_email_history";
                     tc_args := PDict [("query", PStr "budget")];
                     tc_id := "call_1" |};
     step_result := "1. From: bob, Subject: Budget" |}.

(** Six completed exchanges without tool calls. *)
Definition six_exchanges : list message :=
  exchange "q1" [] "a1" ++ exchange "q2" [] "a2" ++ exchange "q3" [] "a3"
    ++ exchange "q4" [] "a4" ++ exchange "q5" [] "a5" ++ exchange "q6" [] "a6".

(** A tool that lists the inbox, and a completion service that selects it
    once and then stops producing output that parses. *)
Definition list_tool : tool :=
  {| tool_name := "list-mail-messages";
     tool_description := "List emails from inbox";
     ainvoke := fun _ => Ok "1. Budget review (from bob)" |}.

Definition flaky_env : env :=
  env_with unparseable
    (fun iteration _ =>
       match iteration with
       | O => Ok {| req_tool_name := "list-mail-messages"; req_tool_args := [] |}
       | _ => Raise "Invalid JSON output"
       end).


(** A local store with three emails, and no vector store. *)
Definition mail (a s b : string) : gmap string pyval :=
  {[ "author" := PStr a; "subject" := PStr s; "body" := PStr b ]}.

Definition alice_mail : gmap string pyval :=
  mail "alice@example.com" "Hello" "Body text".

Definition empty_store : EmailStorage.storage :=
  {| EmailStorage.storage_type := "local";
     EmailStorage.blob_storage_path := Some "/data/local_email_storage";
     EmailStorage.local_files := ∅;
     EmailStorage.blob_service := None;
     EmailStorage.vector_store := None |}.

Definition three_mails : EmailStorage.storage :=
  (EmailStorage.store_email
     (EmailStorage.store_email
        (EmailStorage.store_email empty_store EmailStorage.io_ok alice_mail).1
        EmailStorage.io_ok (mail "bob" "Budget meeting" "hello Budget")).1
     EmailStorage.io_ok (mail "carol" "Lunch" "hello there budget meeting")).1.

Definition no_vector_search : EmailStorage.similarity_search :=
  fun _ _ _ => Raise "vector search unavailable".

(** A tool that returns nothing. *)
Definition silent_tool : tool :=
  {| tool_name := "list-mail-messages";
     tool_description := "List emails from inbox";
     ainvoke := fun _ => Ok EmptyString |}.

(** A vector store that answers with distances, nearest first. *)
Definition note (id : string) : EmailStorage.Document :=
  {| EmailStorage.page_content := "From: bob";
     EmailStorage.md_email_id := id;
     EmailStorage.md_author := PStr "bob";
     EmailStorage.md_subject := PStr "Budget" |}.

Definition distance_search : EmailStorage.similarity_search :=
  fun _ _ _ => Ok [(note "5af6c4a04306da52", 0.1%Q); (note "0000000000000000", 0.9%Q)].

Definition indexed_store : EmailStorage.storage :=
  {| EmailStorage.storage_type := "local";
     EmailStorage.blob_storage_path := Some "/data/local_email_storage";
     EmailStorage.local_files := ∅;
     EmailStorage.blob_service := None;
     EmailStorage.vector_store := Some ∅ |}.


(** A vector store that answers with similarities, best first. *)
Definition similarity_search_best_first : EmailStorage.similarity_search :=
  fun _ _ _ => Ok [(note "5af6c4a04306da52", 0.9%Q); (note "0000000000000000", 0.1%Q)].



(** An item as the mail service returns it. *)
Definition fetched (id received : string) : pydict :=
  [ ("id", PStr id);
    ("receivedDateTime", PStr received);
    ("subject", PStr "Budget review");
    ("bodyPreview", PStr "Please find the budget attached.");
    ("from", PDict [("emailAddress", PDict [("address", PStr "bob@example.com")])]);
    ("toRecipients",
     PList [PDict [("emailAddress", PDict [("address", PStr "me@example.com")])]]) ].


(** Two tools, one that returns data and one that returns nothing, and a
    completion service that selects the first, then the second, and then
    stops producing output that parses. *)
Definition two_tools : list (string * tool) :=
  [("list-mail-messages", list_tool); ("get-mail-message", silent_tool)].

Definition data_then_nothing_env : env :=
  env_with unparseable
    (fun iteration _ =>
       match iteration with
       | 0%nat => Ok {| req_tool_name := "list-mail-messages"; req_tool_args := [] |}
       | 1%nat => Ok {| req_tool_name := "get-mail-message"; req_tool_args := [] |}
       | _ => Raise "Invalid JSON output"
       end).

(** A completion service that keeps selecting the tool that lists the
    inbox. *)
Definition listing_env : env :=
  env_with unparseable
    (fun _ _ => Ok {| req_tool_name := "list-mail-messages"; req_tool_args := [] |}).


(** A store of blobs that holds the blob of [alice_mail], and an
    environment in which the existence check of a blob raises. *)
Definition blob_store_with_alice : EmailStorage.storage :=
  {| EmailStorage.storage_type := "cloud";
     EmailStorage.blob_storage_path := None;
     EmailStorage.local_files := ∅;
     EmailStorage.blob_service :=
       Some {[ EmailStorage.file_name "5af6c4a04306da52"
               := EmailStorage.stored_json alice_mail "5af6c4a04306da52" ]};
     EmailStorage.vector_store := None |}.

Definition exists_raises : EmailStorage.io :=
  {| EmailStorage.blob_exists_raises := true;
     EmailStorage.file_write_raises := false;
     EmailStorage.blob_upload_raises := false;
     EmailStorage.add_documents_raises := false |}.

End Examples.
(** * Properties *)

Import Py Exc Messages HitlSchemas AgentGraph Reconciler.

(** ** Basic facts about the Python operations *)

Lemma str_upto_length (n : nat) (s : string) :
  (String.length (str_upto n s) <= n)%nat.
Proof.
  unfold str_upto. revert n.
  induction s as [|c s IH]; intros [|n]; simpl; try lia.
  specialize (IH n). lia.
Qed.

Lemma last_n_length {A : Type} (n : nat) (l : list A) :
  (length (last_n n l) <= n)%nat.
Proof. unfold last_n. rewrite length_drop. lia. Qed.

Lemma last_n_suffix {A : Type} (n : nat) (l : list A) :
  exists older, l = older ++ last_n n l.
Proof. exists (take (length l - n) l). unfold last_n. by rewrite take_drop. Qed.

Lemma bind_ok {A B : Type} (r : result A) (k : A -> result B) (b : B) :
  (r ≫= k) = Ok b -> exists a, r = Ok a /\ k a = Ok b.
Proof. destruct r as [a|e]; simpl; [eauto | discriminate]. Qed.

Lemma bind_ret_l {A B : Type} (a : A) (k : A -> result B) : (Ok a ≫= k) = k a.
Proof. reflexivity. Qed.

(** ** The walk over the log *)

Lemma walk_messages_app (u : string) (w : walk) (l1 l2 : list message) :
  walk_messages u w (l1 ++ l2)
  = walk_messages u w l1 ≫= fun w' => walk_messages u w' l2.
Proof.
  revert w. induction l1 as [|m l1 IH]; intros w; simpl; [done|].
  destruct (walk_message u w m) as [w'|e]; simpl; [apply IH | done].
Qed.

(** The tool calls of one assistant message leave the tool results alone
    and close the open question when one of them is [Done]. *)
Lemma walk_tool_calls_spec (w w' : walk) (tcs : list tool_call) :
  walk_tool_calls w tcs = Ok w' ->
  tool_results_for_current_turn w' = tool_results_for_current_turn w
  /\ previous_tool_results w' = previous_tool_results w
  /\ current_question_in_messages w'
     = if existsb (fun tc => String.eqb (tc_name tc) "Done") tcs then None
       else current_question_in_messages w.
Proof.
  revert w. induction tcs as [|tc tcs IH]; intros w H; simpl in *.
  - by inversion H.
  - apply bind_ok in H as (w1 & H1 & H2).
    destruct (IH _ H2) as (Hf & Hp & Hq). unfold walk_tool_call in H1.
    destruct (String.eqb (tc_name tc) "Done") eqn:Hd; simpl.
    + apply bind_ok in H1 as (ans & _ & H1). inversion H1; subst w1; clear H1.
      simpl in *. rewrite Hf, Hp, Hq. by destruct (existsb _ tcs).
    + inversion H1; subst w1. by rewrite Hf, Hp, Hq.
Qed.

Lemma open_question_snoc (log : list message) (m : message) :
  open_question (log ++ [m])
  = match m with
    | HumanMessage q _ => Some q
    | _ => if is_terminal_answer m then None else open_question log
    end.
Proof. unfold open_question. rewrite rev_unit. by destruct m. Qed.

Lemma fresh_snoc (input : string) (log : list message) (m : message) :
  freshToolResults input (log ++ [m])
  = freshToolResults input log
    ++ option_list (fresh_at input (log ++ [m]) (length log) m).
Proof.
  unfold freshToolResults. rewrite imap_app, omap_app. f_equal.
  - f_equal. apply imap_ext. intros i x Hi. unfold fresh_at, is_fresh.
    rewrite take_app_le; [done|]. apply lookup_lt_Some in Hi. lia.
  - simpl. rewrite Nat.add_0_r. by destruct (fresh_at _ _ _ _).
Qed.

Lemma archived_snoc (input : string) (log : list message) (m : message) :
  archivedToolResults input (log ++ [m])
  = archivedToolResults input log
    ++ option_list (archived_at input (log ++ [m]) (length log) m).
Proof.
  unfold archivedToolResults. rewrite imap_app, omap_app. f_equal.
  - f_equal. apply imap_ext. intros i x Hi. unfold archived_at, is_fresh.
    rewrite take_app_le; [done|]. apply lookup_lt_Some in Hi. lia.
  - simpl. rewrite Nat.add_0_r. by destruct (archived_at _ _ _ _).
Qed.

Lemma is_fresh_at_end (input : string) (log : list message) (m : message) :
  is_fresh input (log ++ [m]) (length log)
  = bool_decide (open_question log = Some input).
Proof. unfold is_fresh. by rewrite take_app_length. Qed.

(** The walk refines the specification's reading of the log. *)
Lemma reconcile_refines (input : string) (log : list message) (w : walk) :
  reconcile input log = Ok w ->
  current_question_in_messages w = open_question log
  /\ tool_results_for_current_turn w = freshToolResults input log
  /\ previous_tool_results w = archivedToolResults input log.
Proof.
  unfold reconcile. revert w.
  induction log as [|m log IH] using rev_ind; intros w H.
  - by inversion H.
  - rewrite walk_messages_app in H. apply bind_ok in H as (w0 & H0 & H1).
    destruct (IH _ H0) as (Hq & Hf & Hp). simpl in H1.
    apply bind_ok in H1 as (w1 & H1 & H2). inversion H2; subst w1; clear H2.
    rewrite open_question_snoc, fresh_snoc, archived_snoc.
    destruct m as [c i | c tcs i | c n t i]; simpl in H1.
    + inversion H1; subst w; simpl. rewrite Hf, Hp. by rewrite !app_nil_r.
    + simpl. rewrite !app_nil_r. destruct tcs as [|tc tcs].
      * destruct (str_truthy c); inversion H1; subst w; simpl; by rewrite Hq, Hf, Hp.
      * apply walk_tool_calls_spec in H1 as (Hf' & Hp' & Hq').
        rewrite Hf', Hp', Hq', Hq, Hf, Hp. unfold is_terminal_answer. simpl.
        by destruct (_ || _).
    + unfold fresh_at, archived_at. rewrite is_fresh_at_end. rewrite <- Hq.
      destruct (decide (current_question_in_messages w0 = Some input)) as [He|He].
      * rewrite bool_decide_eq_true_2 by done. inversion H1; subst w; simpl.
        rewrite Hf, Hp, Hq. by rewrite app_nil_r.
      * rewrite bool_decide_eq_false_2 by done. inversion H1; subst w; simpl.
        rewrite Hf, Hp, Hq. by rewrite app_nil_r.
Qed.

(** The walk completes on every log whose [Done] calls carry dicts. *)
Lemma walk_tool_calls_total (w : walk) (tcs : list tool_call) :
  forallb answer_is_dict tcs = true -> exists w', walk_tool_calls w tcs = Ok w'.
Proof.
  revert w. induction tcs as [|tc tcs IH]; intros w H; simpl in *; [eauto|].
  apply andb_prop in H as [Htc Htcs]. unfold walk_tool_call, answer_is_dict in *.
  destruct (String.eqb (tc_name tc) "Done"); simpl; [|by apply IH].
  destruct (tc_args tc); try discriminate. simpl. by apply IH.
Qed.

Lemma walk_messages_total (u : string) (w : walk) (log : list message) :
  answers_are_dicts log = true -> exists w', walk_messages u w log = Ok w'.
Proof.
  unfold answers_are_dicts. revert w.
  induction log as [|m log IH]; intros w H; simpl in *; [eauto|].
  apply andb_prop in H as [Hm Hlog].
  assert (exists w1, walk_message u w m = Ok w1) as [w1 ->].
  { destruct m as [c i | c tcs i | c n t i]; simpl; eauto.
    - destruct tcs as [|tc tcs]; [destruct (str_truthy c); eauto|].
      by apply walk_tool_calls_total.
    - destruct (decide _); eauto. }
  simpl. by apply IH.
Qed.

(** Walking the tool steps of an exchange whose question is not the input:
    every result is archived. *)
Lemma walk_steps_archived (u q : string) (steps : list tool_step) (w : walk) :
  current_question_in_messages w = Some q -> q <> u ->
  forallb not_done steps = true ->
  walk_messages u w (concat (map step_messages steps))
  = Ok {| conversation_history := conversation_history w;
          tool_results_for_current_turn := tool_results_for_current_turn w;
          previous_tool_results :=
            previous_tool_results w
            ++ map (fun s => previous_entry (tc_name (step_call s)) (step_result s))
                   steps;
          current_question_in_messages := Some q |}.
Proof.
  intros Hq Hne. revert w Hq.
  induction steps as [|s steps IH]; intros w Hq Hnd; simpl in *.
  - rewrite app_nil_r. destruct w; simpl in *. by subst.
  - apply andb_prop in Hnd as [Hs Hsteps]. unfold not_done in Hs.
    unfold walk_tool_call. destruct (String.eqb (tc_name (step_call s)) "Done");
      [discriminate|]. simpl.
    destruct (decide (current_question_in_messages w = Some u)) as [He|He];
      [congruence|]. simpl.
    rewrite IH by done. simpl. by rewrite <- app_assoc.
Qed.

Lemma walk_exchange_archived (u q a : string) (steps : list tool_step) (w : walk) :
  q <> u -> forallb not_done steps = true ->
  walk_messages u w (exchange q steps a)
  = Ok {| conversation_history :=
            conversation_history w ++ ["User: " +:+ q; "Assistant: " +:+ a];
          tool_results_for_current_turn := tool_results_for_current_turn w;
          previous_tool_results :=
            previous_tool_results w
            ++ map (fun s => previous_entry (tc_name (step_call s)) (step_result s))
                   steps;
          current_question_in_messages := None |}.
Proof.
  intros Hne Hnd. unfold exchange. simpl. rewrite walk_messages_app.
  rewrite (walk_steps_archived u q) by done. simpl.
  by rewrite <- app_assoc.
Qed.

(** C2: the walk classifies a tool result as fresh exactly when the question
    open in front of it, set by the latest user message and cleared by a
    terminal [Done] call, is the current input, and archives it otherwise;
    it completes on every log whose [Done] calls carry dicts.  For a log of
    two completed exchanges followed by a new user message, no tool result is
    fresh and the history holds the two exchanges and the new message. *)
Theorem reconciler_classifies_tool_results :
  (forall (input : string) (log : list message),
      answers_are_dicts log = true ->
      exists w, reconcile input log = Ok w
        /\ current_question_in_messages w = open_question log
        /\ tool_results_for_current_turn w = freshToolResults input log
        /\ previous_tool_results w = archivedToolResults input log)
  /\ (forall (q1 a1 q2 a2 q3 : string) (s1 s2 : list tool_step) (i : option string),
        q3 <> q1 -> q3 <> q2 ->
        forallb not_done s1 = true -> forallb not_done s2 = true ->
        exists w,
          reconcile q3 (exchange q1 s1 a1 ++ exchange q2 s2 a2 ++ [HumanMessage q3 i])
          = Ok w
          /\ tool_results_for_current_turn w = []
          /\ freshToolResults q3
               (exchange q1 s1 a1 ++ exchange q2 s2 a2 ++ [HumanMessage q3 i]) = []
          /\ conversation_history w
             = [ "User: " +:+ q1; "Assistant: " +:+ a1;
                 "User: " +:+ q2; "Assistant: " +:+ a2; "User: " +:+ q3 ]
          /\ length (previous_tool_results w) = (length s1 + length s2)%nat).
Proof.
  split.
  - intros input log Hd.
    destruct (walk_messages_total input walk_start log Hd) as [w Hw].
    exists w. split; [done|]. by apply reconcile_refines.
  - intros q1 a1 q2 a2 q3 s1 s2 i H1 H2 Hs1 Hs2.
    assert (reconcile q3 (exchange q1 s1 a1 ++ exchange q2 s2 a2 ++ [HumanMessage q3 i])
            = Ok {| conversation_history :=
                      [ "User: " +:+ q1; "Assistant: " +:+ a1;
                        "User: " +:+ q2; "Assistant: " +:+ a2; "User: " +:+ q3 ];
                    tool_results_for_current_turn := [];
                    previous_tool_results :=
                      map (fun s => previous_entry (tc_name (step_call s)) (step_result s)) s1
                      ++ map (fun s => previous_entry (tc_name (step_call s)) (step_result s)) s2;
                    current_question_in_messages := Some q3 |}) as Hw.
    { unfold reconcile. rewrite walk_messages_app.
      rewrite walk_exchange_archived by (done || congruence).
      rewrite bind_ret_l, walk_messages_app.
      rewrite walk_exchange_archived by (done || congruence).
      rewrite bind_ret_l. reflexivity. }
    eexists. split; [exact Hw|]. simpl.
    destruct (reconcile_refines _ _ _ Hw) as (_ & Hf & _). simpl in Hf.
    repeat split; [done|].
    by rewrite length_app, !length_map.
Qed.

Lemma reconciler_classifies_tool_results_witness :
  (exists w, reconcile "q2" (exchange "q1" [Examples.search_step] "a1"
                             ++ [HumanMessage "q2" None]) = Ok w
     /\ current_question_in_messages w
        = open_question (exchange "q1" [Examples.search_step] "a1"
                         ++ [HumanMessage "q2" None])
     /\ tool_results_for_current_turn w
        = freshToolResults "q2" (exchange "q1" [Examples.search_step] "a1"
                                 ++ [HumanMessage "q2" None])
     /\ previous_tool_results w
        = archivedToolResults "q2" (exchange "q1" [Examples.search_step] "a1"
                                    ++ [HumanMessage "q2" None]))
  /\ (exists w,
        reconcile "q3" (exchange "q1" [Examples.search_step] "a1"
                        ++ exchange "q2" [] "a2" ++ [HumanMessage "q3" None]) = Ok w
        /\ tool_results_for_current_turn w = []
        /\ freshToolResults "q3"
             (exchange "q1" [Examples.search_step] "a1"
              ++ exchange "q2" [] "a2" ++ [HumanMessage "q3" None]) = []
        /\ conversation_history w
           = [ "User: " +:+ "q1"; "Assistant: " +:+ "a1";
               "User: " +:+ "q2"; "Assistant: " +:+ "a2"; "User: " +:+ "q3" ]
        /\ length (previous_tool_results w) = (length [Examples.search_step] + length (@nil tool_step))%nat).
Proof.
  split.
  - apply (proj1 reconciler_classifies_tool_results). reflexivity.
  - apply (proj2 reconciler_classifies_tool_results);
      [discriminate | discriminate | reflexivity | reflexivity].
Defined.

(** When the new message repeats the text of an earlier question, the tool
    results of that earlier exchange count as fresh: the reading of "new" as
    a text not asked before is needed in the statement above. *)
Example repeated_question_reuses_old_results :
  exists w,
    reconcile "q1" (exchange "q1" [Examples.search_step] "a1"
                    ++ exchange "q2" [] "a2" ++ [HumanMessage "q1" None]) = Ok w
    /\ tool_results_for_current_turn w
       = [fresh_entry "search_email_history" "1. From: bob, Subject: Budget"].
Proof. eexists. split; vm_compute; reflexivity. Qed.

(** ** The append-only message channel *)

Lemma assign_ids_acc (acc : nat * list message) (l : list message) :
  identified l -> foldl assign_id acc l = (acc.1, acc.2 ++ l).
Proof.
  revert acc. induction l as [|m l IH]; intros [n acc] H; simpl.
  - by rewrite app_nil_r.
  - inversion H as [|? ? [i Hi] Hl]; subst.
    replace (assign_id (n, acc) m) with (n, acc ++ [m])
      by (unfold assign_id; by rewrite Hi).
    rewrite IH by done. simpl. by rewrite <- app_assoc.
Qed.

Lemma assign_ids_identified (n : nat) (l : list message) :
  identified l -> assign_ids n l = (n, l).
Proof. intros H. unfold assign_ids. by rewrite assign_ids_acc. Qed.

Lemma index_of_id_found (i : string) (l : list message) (pos k : nat) :
  index_of_id i l pos = Some k ->
  exists m, m ∈ l /\ message_id m = Some i.
Proof.
  revert pos. induction l as [|m l IH]; intros pos H; simpl in H; [discriminate|].
  destruct (index_of_id i l (S pos)) eqn:E.
  - inversion H; subst. destruct (IH _ E) as (m' & Hm' & Hi).
    exists m'. split; [by right | done].
  - destruct (decide (message_id m = Some i)); [|discriminate].
    exists m. split; [by left | done].
Qed.

(** Among distinct identifiers, the position found is the position held. *)
Lemma index_of_id_unique (i : string) (l : list message) (pos j : nat) (m : message) :
  NoDup (message_id <$> l) -> l !! j = Some m -> message_id m = Some i ->
  index_of_id i l pos = Some (pos + j)%nat.
Proof.
  revert pos j. induction l as [|x l IH]; intros pos j Hnd Hj Hi; [done|].
  apply NoDup_cons in Hnd as [Hx Hnd]. simpl. destruct j as [|j]; simpl in Hj.
  - inversion Hj; subst x.
    destruct (index_of_id i l (S pos)) eqn:E.
    + apply index_of_id_found in E as (m' & Hm' & Hi').
      exfalso. apply Hx. rewrite Hi, <- Hi'. by apply list_elem_of_fmap_2.
    + rewrite decide_True by done. f_equal. lia.
  - rewrite (IH (S pos) j) by done. f_equal. lia.
Qed.

(** An update that repeats the identifiers of the log's first messages, in
    order, takes their places and appends nothing. *)
Lemma merge_in_place (log update : list message) :
  NoDup (message_id <$> log) -> identified update ->
  message_id <$> update = take (length update) (message_id <$> log) ->
  foldl merge_message log update = update ++ drop (length update) log.
Proof.
  intros Hnd. induction update as [|m update IH] using rev_ind; intros Hid Hids.
  - done.
  - apply Forall_app in Hid as [Hid Hm]. inversion Hm as [|? ? [i Hi] _]; subst.
    rewrite length_app in Hids. simpl in Hids. rewrite fmap_app in Hids. simpl in Hids.
    assert (length update < length log)%nat as Hlen.
    { apply (f_equal length) in Hids.
      rewrite length_app, length_take, !length_fmap in Hids. simpl in Hids. lia. }
    assert (message_id <$> update = take (length update) (message_id <$> log)
            /\ (message_id <$> log) !! length update = Some (Some i)) as [Hpre Hat].
    { replace (length update + 1)%nat with (S (length update)) in Hids by lia.
      destruct (lookup_lt_is_Some_2 (message_id <$> log) (length update)) as [x Hx];
        [by rewrite length_fmap|].
      rewrite (take_S_r _ _ _ Hx) in Hids. apply app_inj_tail in Hids as [? <-].
      rewrite Hi in Hx. done. }
    rewrite foldl_app. simpl. rewrite IH by done.
    unfold merge_message. rewrite Hi.
    apply list_lookup_fmap_Some_1 in Hat as (x & Hxi & Hx).
    rewrite (index_of_id_unique i _ 0 (length update) x).
    + simpl. rewrite insert_app_r_alt by lia. rewrite Nat.sub_diag.
      rewrite (drop_S _ _ _ Hx). simpl. rewrite <- app_assoc. simpl.
      rewrite length_app. simpl. by rewrite Nat.add_1_r.
    + by rewrite fmap_app, Hpre, fmap_drop, take_drop.
    + rewrite lookup_app_r by lia. rewrite Nat.sub_diag, lookup_drop.
      by rewrite Nat.add_0_r.
    + done.
Qed.

(** Returning a beginning of the log to the channel changes nothing: the
    messages left out stay in the log. *)
Lemma add_messages_prefix (n k : nat) (log : list message) :
  NoDup (message_id <$> log) -> identified log ->
  add_messages n log (take k log) = (n, log).
Proof.
  intros Hnd Hid.
  assert (exists k', (k' <= length log)%nat /\ take k log = take k' log) as (k' & Hk & ->).
  { destruct (decide (k <= length log)%nat); [by exists k|].
    exists (length log). split; [done|]. rewrite !take_ge; [done | lia | lia]. }
  unfold add_messages.
  assert (identified (take k' log)) as Hidk by (by apply Forall_take).
  rewrite (assign_ids_identified n log) by done. simpl.
  rewrite (assign_ids_identified n (take k' log)) by done. simpl.
  assert (length (take k' log) = k') as Hlen by (rewrite length_take; lia).
  rewrite merge_in_place; [by rewrite Hlen, take_drop | done | done |].
  by rewrite Hlen, fmap_take.
Qed.

(** An update that carries the identifiers of the whole log replaces it. *)
Lemma add_messages_same_ids (n : nat) (log update : list message) :
  NoDup (message_id <$> log) -> identified update ->
  message_id <$> update = message_id <$> log ->
  add_messages n log update = (n, update).
Proof.
  intros Hnd Hid Hids. unfold add_messages.
  assert (identified log) as Hidl.
  { unfold identified in *. rewrite Forall_forall in *. intros m Hm.
    apply (list_elem_of_fmap_2 message_id) in Hm. rewrite <- Hids in Hm.
    apply list_elem_of_fmap in Hm as (m' & -> & Hm'). by apply Hid. }
  assert (length update = length log) as Hlen.
  { apply (f_equal length) in Hids. by rewrite !length_fmap in Hids. }
  rewrite (assign_ids_identified n log) by done. simpl.
  rewrite (assign_ids_identified n update) by done. simpl.
  rewrite merge_in_place; [| done | done |].
  - rewrite Hlen, drop_all. by rewrite app_nil_r.
  - rewrite Hids, Hlen. rewrite take_ge; [done|]. by rewrite length_fmap.
Qed.

(** ** The supervisor's message and the approval gate *)

(** C1, as first stated, fails: when the completion service's output does
    not parse, the assistant message the supervisor appends carries no tool
    call at all. *)
Lemma supervisor_error_message_has_no_tool_call :
  supervisor Examples.broken_env (Examples.asking Examples.send_hi)
  = Ok [ HumanMessage Examples.send_hi None;
         AIMessage "Error: Invalid JSON output" [] None ]
  /\ length (tool_calls_of (AIMessage "Error: Invalid JSON output" [] None)) = 0%nat.
Proof. split; reflexivity. Qed.

(** With one call pending, the gate asks at most once. *)
Lemma gate_single_call (msgs : list message) (tc : tool_call) (d : pyval)
    (ds : list pyval) :
  is_suspended (gate_loop 1 0 msgs [tc] (d :: ds)) = false.
Proof.
  cbn [gate_loop lookup list_lookup].
  destruct (in_names (tc_name tc) HITL_TOOL_NAMES); [|done].
  destruct (create_interrupt (tc_name tc) (tc_args tc)); [|done].
  destruct d as [| | | | |r]; try done.
  destruct (is_str _ "ignore"); [done|].
  destruct (is_str _ "edit" && truthy _).
  - by destruct (dict_get_default "args" PNone r).
  - by destruct (is_str _ "response").
Qed.

(** C1, amended: every assistant message the supervisor appends carries at
    most one tool call, and exactly one, the call selected, whenever the
    completion service's output parses; when the output does not parse, and
    when no input is given, the assistant message appended carries no tool
    call; with at most one call pending, the approval gate that has been
    given a decision does not suspend again, so that a run has at most one
    approval request pending at a time. *)
Theorem supervisor_appends_at_most_one_call :
  (forall (E : env) (st : State) (update : list message),
      supervisor E st = Ok update ->
      Forall (fun m => (length (tool_calls_of m) <= 1)%nat) update)
  /\ (forall (E : env) (st : State) (user_message : string) (w : walk)
             (tool_request : ToolCallRequest),
        user_message_of E st = Some user_message ->
        reconcile user_message (messages st) = Ok w ->
        llm_tool_selector E (tool_selection_prompt E user_message w) = Ok tool_request ->
        exists update ai,
          supervisor E st = Ok update /\ last update = Some ai
          /\ tool_calls_of ai
             = [ {| tc_name := req_tool_name tool_request;
                    tc_args :=
                      PDict (repair_args (req_tool_name tool_request) user_message
                                         (req_tool_args tool_request));
                    tc_id := "call_" +:+ now_timestamp E |} ])
  /\ (forall (log : list message) (d : pyval) (ds : list pyval),
        (length (pending_calls log) <= 1)%nat ->
        is_suspended (hitl_gate log (d :: ds)) = false)
  /\ (forall (E : env) (st : State) (user_message : string) (w : walk) (e : string),
        user_message_of E st = Some user_message ->
        reconcile user_message (messages st) = Ok w ->
        llm_tool_selector E (tool_selection_prompt E user_message w) = Raise e ->
        exists update,
          supervisor E st = Ok update
          /\ last update = Some (AIMessage ("Error: " +:+ e) [] None)
          /\ Forall (fun m => tool_calls_of m = []) update)
  /\ (forall (E : env) (st : State),
        user_message_of E st = None ->
        supervisor E st = Ok [AIMessage "No input provided." [] None]
        /\ tool_calls_of (AIMessage "No input provided." [] None) = []).
Proof.
  split; [|split; [|split; [|split]]].
  - intros E st update H. unfold supervisor in H.
    destruct (user_message_of E st) as [u|].
    + apply bind_ok in H as (w & _ & H).
      destruct (llm_tool_selector E _), (_ || _); inversion H; subst;
        repeat constructor; simpl; lia.
    + inversion H; subst. repeat constructor.
  - intros E st u w req Hu Hw Hreq. unfold supervisor. rewrite Hu, Hw, bind_ret_l, Hreq.
    destruct (_ || _); do 2 eexists; (split; [reflexivity|]); split; reflexivity.
  - intros log d ds Hlen. unfold hitl_gate, pending_calls in *.
    destruct (last log) as [m|]; [|done].
    destruct (tool_calls_of m) as [|tc [|tc' tcs]]; [done| |simpl in Hlen; lia].
    apply gate_single_call.
  - intros E st u w e Hu Hw He. unfold supervisor. rewrite Hu, Hw, bind_ret_l, He.
    destruct (_ || _); eexists; (split; [reflexivity|]); split;
      try reflexivity; by repeat constructor.
  - intros E st Hu. unfold supervisor. by rewrite Hu.
Qed.

Lemma supervisor_appends_at_most_one_call_witness :
  Forall (fun m => (length (tool_calls_of m) <= 1)%nat)
         [ HumanMessage Examples.send_hi None;
           AIMessage EmptyString [Examples.mail_call] None ]
  /\ is_suspended (hitl_gate (messages Examples.awaiting_mail)
                             [Examples.decision "accept" PNone]) = false
  /\ (exists update,
        supervisor Examples.broken_env (Examples.asking Examples.send_hi) = Ok update
        /\ last update = Some (AIMessage ("Error: " +:+ "Invalid JSON output") [] None)
        /\ Forall (fun m => tool_calls_of m = []) update).
Proof.
  split; [|split].
  - apply (proj1 supervisor_appends_at_most_one_call
             Examples.mail_env (Examples.asking Examples.send_hi)).
    reflexivity.
  - apply (proj1 (proj2 (proj2 supervisor_appends_at_most_one_call))). simpl. lia.
  - apply (proj1 (proj2 (proj2 (proj2 supervisor_appends_at_most_one_call)))
             Examples.broken_env (Examples.asking Examples.send_hi) Examples.send_hi
             {| conversation_history := []; tool_results_for_current_turn := [];
                previous_tool_results := []; current_question_in_messages := None |});
      vm_compute; reflexivity.
Defined.

(** ** Human decisions at the approval gate *)

Lemma all_but_last_snoc {A : Type} (l : list A) (x : A) :
  all_but_last (l ++ [x]) = l.
Proof.
  unfold all_but_last. rewrite length_app. simpl.
  replace (length l + 1 - 1)%nat with (length l) by lia. apply take_app_length.
Qed.

Lemma with_last_calls_snoc (before : list message) (c : string)
    (tcs tcs' : list tool_call) (i : option string) :
  with_last_calls (before ++ [AIMessage c tcs i]) tcs' = before ++ [AIMessage c tcs' i].
Proof. unfold with_last_calls. by rewrite last_snoc, all_but_last_snoc. Qed.

(** The gate run on a log whose last message carries the single call [tc],
    an approval-gated one, with the decision [r] at hand. *)
Lemma gate_on_single_call (before : list message) (c : string) (tc : tool_call)
    (i : option string) (request : HumanInterrupt) (d : pyval) :
  in_names (tc_name tc) HITL_TOOL_NAMES = true ->
  create_interrupt (tc_name tc) (tc_args tc) = Ok request ->
  hitl_gate (before ++ [AIMessage c [tc] i]) [d]
  = match d with
    | PDict r =>
        let response_type := dict_get_default "type" (PStr "accept") r in
        let response_args := dict_get_default "args" PNone r in
        if is_str response_type "ignore" then Returned before
        else if is_str response_type "edit" && truthy response_args then
          match response_args with
          | PDict ra =>
              Returned (before
                        ++ [AIMessage c [with_args tc (dict_get_default "args" (tc_args tc) ra)] i])
          | _ => Raised "AttributeError: object has no attribute 'get'"
          end
        else if is_str response_type "response" then
          Returned (before ++ [AIMessage c [tc] i]
                    ++ [HumanMessage (py_str response_args) None])
        else Returned (before ++ [AIMessage c [tc] i])
    | _ => Returned (before ++ [AIMessage c [tc] i])
    end.
Proof.
  intros Hh Hc. unfold hitl_gate. rewrite last_snoc.
  cbn [tool_calls_of length gate_loop lookup list_lookup]. rewrite Hh, Hc.
  destruct d as [| | | | |r]; try (by rewrite with_last_calls_snoc).
  cbn zeta. destruct (is_str _ "ignore"); [by rewrite all_but_last_snoc|].
  destruct (is_str _ "edit" && truthy _).
  - destruct (dict_get_default "args" PNone r); try done.
    cbn [set_first_args]. by rewrite with_last_calls_snoc.
  - destruct (is_str _ "response"); rewrite with_last_calls_snoc; [|done].
    by rewrite <- app_assoc.
Qed.

(** In general: whatever beginning of the log the gate returns, the
    append-only channel leaves the log as it was. *)
Lemma ignore_changes_nothing (st : State) :
  NoDup (message_id <$> messages st) -> identified (messages st) ->
  apply_update add_messages st (all_but_last (messages st)) = st.
Proof.
  intros Hnd Hid. unfold apply_update, all_but_last.
  rewrite add_messages_prefix by done. by destruct st.
Qed.

Lemma dict_get_default_some (k : string) (dflt v : pyval) (d : pydict) :
  dict_get k d = Some v -> dict_get_default k dflt d = v.
Proof. intros H. unfold dict_get_default. by rewrite H. Qed.

Lemma after_hitl_calls (before : list message) (c : string) (tc : tool_call)
    (tcs : list tool_call) (i : option string) :
  after_hitl (before ++ [AIMessage c (tc :: tcs) i]) = NTools
  /\ pending_calls (before ++ [AIMessage c (tc :: tcs) i]) = tc :: tcs.
Proof. unfold after_hitl, pending_calls. by rewrite last_snoc. Qed.

(** An [ignore] decision on a single pending call, in general: the gate
    returns the log without its last message, the channel leaves the log as
    it was, and the graph goes on to execute the call. *)
Lemma ignore_is_lost (E : env) (st : State) (before : list message) (c : string)
    (tc : tool_call) (i : option string) (request : HumanInterrupt) (r : pydict) :
  messages st = before ++ [AIMessage c [tc] i] ->
  NoDup (message_id <$> messages st) -> identified (messages st) ->
  in_names (tc_name tc) HITL_TOOL_NAMES = true ->
  create_interrupt (tc_name tc) (tc_args tc) = Ok request ->
  dict_get "type" r = Some (PStr "ignore") ->
  hitl_gate (messages st) [PDict r] = Returned (all_but_last (messages st))
  /\ apply_update add_messages st (all_but_last (messages st)) = st
  /\ after_hitl (messages st) = NTools
  /\ pending_calls (messages st) = [tc]
  /\ forall fuel,
       resume_run (S (S fuel)) E st [] (PDict r)
       = run_from fuel E NSupervisor
           (apply_update add_messages st
              [ToolMessage (tool_node E (tc_name tc) (tc_args tc)) (tc_name tc)
                           (tc_id tc) None]) [].
Proof.
  intros Hlog Hnd Hid Hh Hc Ht.
  assert (hitl_gate (messages st) [PDict r] = Returned (all_but_last (messages st)))
    as Hgate.
  { rewrite Hlog, (gate_on_single_call _ _ _ _ request) by done. cbn zeta.
    rewrite (dict_get_default_some _ _ _ _ Ht). simpl.
    by rewrite all_but_last_snoc. }
  pose proof (ignore_changes_nothing st Hnd Hid) as Hsame.
  destruct (after_hitl_calls before c tc [] i) as [Hroute Hcalls].
  rewrite <- Hlog in Hroute, Hcalls.
  split; [done|]. split; [done|]. split; [done|]. split; [done|].
  intros fuel. unfold resume_run.
  change (run_from (S (S fuel)) E NHitlGate st ([] ++ [PDict r]))
    with (match hitl_gate (messages st) [PDict r] with
          | Suspended request' => AwaitingApproval st request' [PDict r]
          | Raised e => Failed st e
          | Returned update =>
              run_from (S fuel) E
                (after_hitl (messages (apply_update add_messages st update)))
                (apply_update add_messages st update) []
          end).
  rewrite Hgate, Hsame, Hroute.
  change (run_from (S fuel) E NTools st [])
    with (run_from fuel E NSupervisor
            (apply_update add_messages st (tools E (messages st))) []).
  unfold tools. by rewrite Hcalls.
Qed.

(** C3: the code at an [ignore] decision.  The gate hands the log without
    its last message to the channel; the append-only channel keeps the
    message left out, so the log is unchanged, the call is still pending,
    the route leads to the tool node, and the call is executed and its
    result appended.  (A channel that overwrote the log would drop the
    message instead, and shorten the log by one.) *)
Theorem ignore_decision_still_executes_call :
  hitl_gate (messages Examples.awaiting_mail) [Examples.decision "ignore" PNone]
  = Returned (all_but_last (messages Examples.awaiting_mail))
  /\ apply_update add_messages Examples.awaiting_mail
       (all_but_last (messages Examples.awaiting_mail))
     = Examples.awaiting_mail
  /\ after_hitl (messages Examples.awaiting_mail) = NTools
  /\ pending_calls (messages Examples.awaiting_mail) = [Examples.mail_call]
  /\ (exists st,
        resume_run 2 Examples.mail_env Examples.awaiting_mail []
                   (Examples.decision "ignore" PNone) = Unfinished st
        /\ messages st
           = messages Examples.awaiting_mail
             ++ [ToolMessage "Result of manage_email" "manage_email"
                             "call_1764720000.0" (Some "msg-2")])
  /\ length (messages (apply_update overwrite_messages Examples.awaiting_mail
                         (all_but_last (messages Examples.awaiting_mail)))) = 1%nat.
Proof.
  destruct (ignore_is_lost Examples.mail_env Examples.awaiting_mail
              [HumanMessage Examples.send_hi (Some "msg-0")] EmptyString
              Examples.mail_call (Some "msg-1")
              {| action_request := {| action := "manage_email";
                                      args := tc_args Examples.mail_call |};
                 config := allow_all;
                 description :=
                   Some "Email action: send email to a@example.com saying hi..." |}
              [("type", PStr "ignore"); ("args", PNone)])
    as (Hgate & Hsame & Hroute & Hcalls & _); try reflexivity.
  - simpl. apply NoDup_cons. split; [|apply NoDup_singleton].
    intros H. apply list_elem_of_singleton in H. discriminate.
  - repeat constructor; eexists; reflexivity.
  - split; [exact Hgate|]. split; [exact Hsame|]. split; [exact Hroute|].
    split; [exact Hcalls|]. split; [|reflexivity].
    eexists. split; vm_compute; reflexivity.
Qed.

(** C4, as first stated, fails: an [edit] decision whose payload is the
    mapping of new arguments itself, with no [args] entry, leaves the
    original arguments on the call that is then executed. *)
Lemma edit_payload_without_args_entry_keeps_original :
  hitl_gate (messages Examples.awaiting_mail)
            [Examples.decision "edit" (PDict [("request", PStr "say hello instead")])]
  = Returned (messages Examples.awaiting_mail)
  /\ after_hitl (messages Examples.awaiting_mail) = NTools
  /\ pending_calls (messages Examples.awaiting_mail)
     = [ {| tc_name := "manage_email";
            tc_args := PDict [("request", PStr Examples.send_hi)];
            tc_id := "call_1764720000.0" |} ].
Proof. repeat split; reflexivity. Qed.

(** C4, amended: for an [edit] decision whose payload is a non-empty mapping
    with an [args] entry (an action request), the call that is then executed
    carries exactly that entry as its arguments, in place of the original
    ones; a payload mapping without an [args] entry leaves the original
    arguments in place. *)
Theorem edit_decision_replaces_arguments
    (st : State) (before : list message) (c : string) (tc : tool_call)
    (i : option string) (request : HumanInterrupt) (r payload : pydict) :
  messages st = before ++ [AIMessage c [tc] i] ->
  NoDup (message_id <$> messages st) -> identified (messages st) ->
  in_names (tc_name tc) HITL_TOOL_NAMES = true ->
  create_interrupt (tc_name tc) (tc_args tc) = Ok request ->
  dict_get "type" r = Some (PStr "edit") ->
  dict_get "args" r = Some (PDict payload) ->
  payload <> [] ->
  exists update,
    hitl_gate (messages st) [PDict r] = Returned update
    /\ messages (apply_update add_messages st update) = update
    /\ after_hitl update = NTools
    /\ pending_calls update
       = [with_args tc (dict_get_default "args" (tc_args tc) payload)]
    /\ (forall new_args, dict_get "args" payload = Some new_args ->
          pending_calls update = [with_args tc new_args])
    /\ (dict_get "args" payload = None -> pending_calls update = [tc]).
Proof.
  intros Hlog Hnd Hid Hh Hc Ht Ha Hp.
  exists (before ++ [AIMessage c [with_args tc (dict_get_default "args" (tc_args tc) payload)] i]).
  split; [|split; [|split; [|split; [|split]]]].
  - rewrite Hlog, (gate_on_single_call _ _ _ _ request) by done. cbn zeta.
    rewrite (dict_get_default_some _ _ _ _ Ht), (dict_get_default_some _ _ _ _ Ha).
    simpl. by destruct payload.
  - unfold apply_update. rewrite add_messages_same_ids; [done | done | |].
    + rewrite Hlog in Hid. apply Forall_app in Hid as [Hb Hl].
      apply Forall_app. split; [done|]. inversion Hl; subst. by repeat constructor.
    + rewrite Hlog. by rewrite !fmap_app.
  - apply after_hitl_calls.
  - apply after_hitl_calls.
  - intros v Hv. rewrite (dict_get_default_some _ _ _ _ Hv). apply after_hitl_calls.
  - intros Hn. unfold dict_get_default. rewrite Hn. simpl.
    destruct (after_hitl_calls before c (with_args tc (tc_args tc)) [] i) as [_ ->].
    by destruct tc.
Qed.

Lemma edit_decision_replaces_arguments_witness :
  exists update,
    hitl_gate (messages Examples.awaiting_mail)
      [PDict [("type", PStr "edit");
              ("args", PDict [("action", PStr "manage_email");
                              ("args", PDict [("request", PStr "say hello instead")])])]]
    = Returned update
    /\ messages (apply_update add_messages Examples.awaiting_mail update) = update
    /\ after_hitl update = NTools
    /\ pending_calls update
       = [with_args Examples.mail_call
            (dict_get_default "args" (tc_args Examples.mail_call)
               [("action", PStr "manage_email");
                ("args", PDict [("request", PStr "say hello instead")])])]
    /\ (forall new_args,
          dict_get "args" [("action", PStr "manage_email");
                           ("args", PDict [("request", PStr "say hello instead")])]
          = Some new_args ->
          pending_calls update = [with_args Examples.mail_call new_args])
    /\ (dict_get "args" [("action", PStr "manage_email");
                         ("args", PDict [("request", PStr "say hello instead")])]
        = None -> pending_calls update = [Examples.mail_call]).
Proof.
  apply (edit_decision_replaces_arguments Examples.awaiting_mail
           [HumanMessage Examples.send_hi (Some "msg-0")] EmptyString
           Examples.mail_call (Some "msg-1")
           {| action_request := {| action := "manage_email";
                                   args := tc_args Examples.mail_call |};
              config := allow_all;
              description :=
                Some "Email action: send email to a@example.com saying hi..." |}).
  - reflexivity.
  - simpl. apply NoDup_cons. split; [|apply NoDup_singleton].
    intros H. apply list_elem_of_singleton in H. discriminate.
  - repeat constructor; eexists; reflexivity.
  - reflexivity.
  - reflexivity.
  - reflexivity.
  - reflexivity.
  - discriminate.
Defined.

(** An [edit] decision whose payload is not a mapping, yet is truthy (a text,
    a number, a list), makes the gate raise. *)
Lemma edit_with_truthy_non_mapping_raises (before : list message) (c : string)
    (tc : tool_call) (i : option string) (request : HumanInterrupt)
    (r : pydict) (payload : pyval) :
  in_names (tc_name tc) HITL_TOOL_NAMES = true ->
  create_interrupt (tc_name tc) (tc_args tc) = Ok request ->
  dict_get "type" r = Some (PStr "edit") ->
  dict_get "args" r = Some payload ->
  truthy payload = true ->
  (forall d, payload <> PDict d) ->
  hitl_gate (before ++ [AIMessage c [tc] i]) [PDict r]
  = Raised "AttributeError: object has no attribute 'get'".
Proof.
  intros Hh Hc Ht Ha Htr Hnd.
  rewrite (gate_on_single_call _ _ _ _ request) by done. cbn zeta.
  rewrite (dict_get_default_some _ _ _ _ Ht), (dict_get_default_some _ _ _ _ Ha).
  simpl. rewrite Htr. destruct payload; try done. by destruct (Hnd d).
Qed.

(** C5: the code at an [edit] decision whose payload is a text.  The gate
    raises instead of treating the decision as [accept]: the run fails, the
    pending call is not executed, and the resume request ends in an error
    with the thread marked as failed. *)
Theorem edit_with_text_payload_fails :
  hitl_gate (messages Examples.awaiting_mail)
            [Examples.decision "edit" (PStr "send it tomorrow")]
  = Raised "AttributeError: object has no attribute 'get'"
  /\ resume_run 5 Examples.mail_env Examples.awaiting_mail []
                (Examples.decision "edit" (PStr "send it tomorrow"))
     = Failed Examples.awaiting_mail "AttributeError: object has no attribute 'get'"
  /\ (Api.resume_thread 5 Examples.mail_env Examples.suspended_server "thread_1"
        {| Api.type := Api.edit; Api.args := Some (PStr "send it tomorrow") |}).2
     = Api.HTTPException 500 "AttributeError: object has no attribute 'get'"
  /\ Api.status
       <$> Api.threads
             (Api.resume_thread 5 Examples.mail_env Examples.suspended_server "thread_1"
                {| Api.type := Api.edit; Api.args := Some (PStr "send it tomorrow") |}).1
           !! "thread_1"
     = Some "error".
Proof.
  split; [|split; [|split]].
  - apply (edit_with_truthy_non_mapping_raises
             [HumanMessage Examples.send_hi (Some "msg-0")] EmptyString
             Examples.mail_call (Some "msg-1")
             {| action_request := {| action := "manage_email";
                                     args := tc_args Examples.mail_call |};
                config := allow_all;
                description :=
                  Some "Email action: send email to a@example.com saying hi..." |}
             _ (PStr "send it tomorrow")); try reflexivity.
    intros d. discriminate.
  - reflexivity.
  - vm_compute. reflexivity.
  - vm_compute. reflexivity.
Qed.

(** ** The sub-agent loop *)

(** C6, as first stated, fails: when the output does not parse and no tool
    has returned anything, the answer is the text of the failure; and so it
    is when the tool that ran returned the empty text. *)
Lemma parse_failure_answer_is_error_text :
  run_sub_agent Examples.broken_env [] [] "You are an email specialist."
                "list my emails" 5
  = PStr "Error: Invalid JSON output"
  /\ String.eqb "Error: Invalid JSON output" "I could not complete the request" = false
  /\ run_sub_agent Examples.flaky_env [Examples.silent_tool]
                   [("list-mail-messages", Examples.silent_tool)]
                   "You are an email specialist." "list my emails" 5
     = PStr "Error: Invalid JSON output".
Proof. repeat split; vm_compute; reflexivity. Qed.

Section SubAgent.

Variables (E : env) (tools : list tool) (tools_by_name : list (string * tool))
          (system_prompt user_request : string).

(** A raw output is only kept together with a result line. *)
Lemma raw_result_has_line (k : nat) (s : sub_state) (raw : string) :
  sub_agent_state_at E tools tools_by_name system_prompt user_request k = Some s ->
  last_raw_result s = Some raw -> tool_results s <> [].
Proof.
  revert s raw. induction k as [|k IH]; intros s raw Hs Hraw; simpl in Hs.
  - inversion Hs; subst. discriminate.
  - destruct (sub_agent_state_at _ _ _ _ _ k) as [s0|]; [|discriminate].
    unfold sub_agent_iteration in Hs.
    destruct (sub_llm E k _) as [req|e].
    + destruct (String.eqb (req_tool_name req) "DONE"); [discriminate|].
      destruct (lookup_tool _ _) as [t|].
      * destruct (ainvoke t _); inversion Hs; subst; simpl;
          intros Hnil; by apply app_eq_nil in Hnil as [_ ?].
      * inversion Hs; subst; simpl. intros Hnil; by apply app_eq_nil in Hnil as [_ ?].
    + destruct (tool_results s0); [discriminate|].
      destruct (str_truthy _); discriminate.
Qed.

(** The loop, entered with enough iterations left, gets to the state in
    which iteration [k] starts. *)
Lemma sub_agent_loop_reaches (k n : nat) (s : sub_state) :
  sub_agent_state_at E tools tools_by_name system_prompt user_request k = Some s ->
  sub_agent_loop E tools tools_by_name system_prompt user_request (k + n) 0
                 {| tool_results := []; last_raw_result := None |}
  = sub_agent_loop E tools tools_by_name system_prompt user_request n k s.
Proof.
  revert n s. induction k as [|k IH]; intros n s Hs; simpl in Hs.
  - by inversion Hs.
  - destruct (sub_agent_state_at _ _ _ _ _ k) as [s0|] eqn:Hk; [|discriminate].
    replace (S k + n)%nat with (k + S n)%nat by lia.
    rewrite (IH (S n) s0) by done. simpl.
    destruct (sub_agent_iteration _ _ _ _ _ k s0); [discriminate|].
    by inversion Hs.
Qed.

(** The raw output the loop keeps is that of the latest tool that
    returned, whatever it returned. *)
Lemma last_raw_is_latest_output (k : nat) (s : sub_state) :
  sub_agent_state_at E tools tools_by_name system_prompt user_request k = Some s ->
  last_raw_result s
  = last (SubAgentTrace.returned_outputs E tools tools_by_name system_prompt
                                         user_request k).
Proof.
  revert s. induction k as [|k IH]; intros s Hs.
  - simpl in Hs. by injection Hs as <-.
  - unfold SubAgentTrace.returned_outputs.
    replace (seq 0 (S k)) with (seq 0 k ++ [k]) by (by rewrite seq_S).
    rewrite omap_app.
    change (omap ?f [k]) with (match f k with Some y => [y] | None => [] end).
    unfold SubAgentTrace.tool_output_at at 2.
    simpl in Hs.
    destruct (sub_agent_state_at _ _ _ _ _ k) as [s0|]; [|discriminate].
    specialize (IH s0 eq_refl). unfold sub_agent_iteration in Hs.
    fold (SubAgentTrace.returned_outputs E tools tools_by_name system_prompt
                                         user_request k).
    destruct (sub_llm E k _) as [req|e].
    + destruct (String.eqb (req_tool_name req) "DONE"); [discriminate|].
      destruct (lookup_tool _ _) as [t|].
      * destruct (ainvoke t _) as [r|e]; injection Hs as <-; simpl.
        -- by rewrite last_snoc.
        -- by rewrite app_nil_r.
      * injection Hs as <-. simpl. by rewrite app_nil_r.
    + destruct (tool_results s0); [discriminate|].
      destruct (str_truthy _); discriminate.
Qed.

(** C6, amended: in a turn whose iteration [k] finds the completion
    service's output unparseable, the final answer is the raw output of the
    latest tool that returned in that turn, cut to 2000 characters, when
    that output is not empty; otherwise it is the text [Error: ] followed by
    the description of the failure: when no tool has returned, and also when
    the latest tool that returned gave the empty text, whatever the tools
    before it returned. *)
Theorem parse_failure_falls_back_to_raw_output
    (max_iterations : Z) (k : nat) (s : sub_state) (e : string) :
  (k < Z.to_nat max_iterations)%nat ->
  sub_agent_state_at E tools tools_by_name system_prompt user_request k = Some s ->
  sub_llm E k (sub_agent_prompt tools system_prompt user_request (tool_results s))
  = Raise e ->
  let outputs :=
    SubAgentTrace.returned_outputs E tools tools_by_name system_prompt user_request k in
  let answer :=
    run_sub_agent E tools tools_by_name system_prompt user_request max_iterations in
  answer
  = match last outputs with
    | Some raw =>
        if str_truthy raw then PStr (str_upto 2000 raw) else PStr ("Error: " +:+ e)
    | None => PStr ("Error: " +:+ e)
    end
  /\ (forall earlier raw,
      outputs = earlier ++ [raw] -> raw <> EmptyString ->
      answer = PStr (str_upto 2000 raw)
      /\ (String.length (str_upto 2000 raw) <= 2000)%nat)
  /\ (forall earlier, outputs = earlier ++ [EmptyString] -> answer = PStr ("Error: " +:+ e))
  /\ (outputs = [] -> answer = PStr ("Error: " +:+ e)).
Proof.
  intros Hk Hs He outputs answer.
  assert (answer
          = match last outputs with
            | Some raw =>
                if str_truthy raw then PStr (str_upto 2000 raw)
                else PStr ("Error: " +:+ e)
            | None => PStr ("Error: " +:+ e)
            end) as Hrun.
  { subst answer outputs. rewrite <- (last_raw_is_latest_output k s Hs).
    unfold run_sub_agent.
    replace (Z.to_nat max_iterations) with (k + S (Z.to_nat max_iterations - S k))%nat
      by lia.
    rewrite (sub_agent_loop_reaches k _ s) by done. simpl.
    unfold sub_agent_iteration. rewrite He.
    destruct (last_raw_result s) as [raw|] eqn:Hraw; simpl.
    - pose proof (raw_result_has_line k s raw Hs Hraw) as Hne.
      destruct (tool_results s); [done|]. by destruct (str_truthy raw).
    - destruct (tool_results s); done. }
  split; [exact Hrun|]. split; [|split].
  - intros earlier raw Hout Hraw. rewrite Hrun, Hout, last_snoc.
    assert (str_truthy raw = true) as ->.
    { unfold str_truthy. apply negb_true_iff. by apply String.eqb_neq. }
    split; [done|]. apply str_upto_length.
  - intros earlier Hout. by rewrite Hrun, Hout, last_snoc.
  - intros Hout. by rewrite Hrun, Hout.
Qed.

End SubAgent.

Lemma parse_failure_falls_back_to_raw_output_witness :
  run_sub_agent Examples.flaky_env [Examples.list_tool]
                [("list-mail-messages", Examples.list_tool)]
                "You are an email specialist." "list my emails" 5
  = PStr (str_upto 2000 "1. Budget review (from bob)")
  /\ (String.length (str_upto 2000 "1. Budget review (from bob)") <= 2000)%nat.
Proof.
  apply (proj1 (proj2 (parse_failure_falls_back_to_raw_output Examples.flaky_env
           [Examples.list_tool] [("list-mail-messages", Examples.list_tool)]
           "You are an email specialist." "list my emails" 5 1
           {| tool_results :=
                ["Tool 'list-mail-messages' returned: 1. Budget review (from bob)"];
              last_raw_result := Some "1. Budget review (from bob)" |}
           "Invalid JSON output"
           ltac:(vm_compute; lia) ltac:(vm_compute; reflexivity)
           ltac:(vm_compute; reflexivity))) []).
  - vm_compute. reflexivity.
  - discriminate.
Defined.

(** A tool returns data, the next one returns the empty text, and then the
    output of the completion service does not parse: the answer is the text
    of the failure, not the data of the first tool. *)
Example empty_latest_output_gives_error_text :
  SubAgentTrace.returned_outputs Examples.data_then_nothing_env
    [Examples.list_tool; Examples.silent_tool] Examples.two_tools
    "You are an email specialist." "show the first email" 2
  = ["1. Budget review (from bob)"; EmptyString]
  /\ run_sub_agent Examples.data_then_nothing_env
       [Examples.list_tool; Examples.silent_tool] Examples.two_tools
       "You are an email specialist." "show the first email" 5
     = PStr "Error: Invalid JSON output".
Proof. split; vm_compute; reflexivity. Qed.

(** ** The transcript window *)

Lemma walk_plain_log (u : string) (es : list (string * string)) (w : walk) :
  exists q,
    walk_messages u w (plain_log es)
    = Ok {| conversation_history := conversation_history w ++ transcript es;
            tool_results_for_current_turn := tool_results_for_current_turn w;
            previous_tool_results := previous_tool_results w;
            current_question_in_messages := q |}.
Proof.
  revert w. induction es as [|[q a] es IH]; intros w.
  - exists (current_question_in_messages w). simpl. rewrite app_nil_r. by destruct w.
  - unfold plain_log, transcript. rewrite !map_cons, !concat_cons.
    rewrite walk_messages_app.
    replace (walk_messages u w (exchange (q, a).1 [] (q, a).2))
      with (Ok {| conversation_history :=
                    conversation_history w ++ ["User: " +:+ q; "Assistant: " +:+ a];
                  tool_results_for_current_turn := tool_results_for_current_turn w;
                  previous_tool_results := previous_tool_results w;
                  current_question_in_messages := None |} : result walk).
    + rewrite bind_ret_l. destruct (IH {| conversation_history :=
                    conversation_history w ++ ["User: " +:+ q; "Assistant: " +:+ a];
                  tool_results_for_current_turn := tool_results_for_current_turn w;
                  previous_tool_results := previous_tool_results w;
                  current_question_in_messages := None |}) as [q' Hq'].
      exists q'. fold (plain_log es). rewrite Hq'. simpl. by rewrite <- app_assoc.
    + simpl. by rewrite <- app_assoc.
Qed.

Lemma transcript_drop (k : nat) (es : list (string * string)) :
  drop (2 * k) (transcript es) = transcript (drop k es).
Proof.
  revert es. induction k as [|k IH]; intros es; [done|].
  destruct es as [|[q a] es]; [done|].
  replace (2 * S k)%nat with (S (S (2 * k))) by lia. simpl. apply IH.
Qed.

Lemma transcript_length (es : list (string * string)) :
  length (transcript es) = (2 * length es)%nat.
Proof. induction es as [|[q a] es IH]; simpl; [done|]. unfold transcript in IH. lia. Qed.

(** C7: the code on logs of completed exchanges.  The transcript that
    enters the prompt is cut to the last ten entries of the history, a user
    message and an answer being one entry each: whatever the number of
    exchanges, it holds the last five of them.  Of six exchanges the first
    is left out.  In general the transcript is the end of the history and
    never holds more than ten entries. *)
Theorem history_window_counts_entries :
  (forall w : walk,
      (length (history_window w) <= 10)%nat
      /\ exists older, conversation_history w = older ++ history_window w)
  /\ (forall (input : string) (es : list (string * string)),
        exists w,
          reconcile input (plain_log es) = Ok w
          /\ conversation_history w = transcript es
          /\ history_window w = transcript (last_n 5 es))
  /\ exists w,
       reconcile "q7" Examples.six_exchanges = Ok w
       /\ length (conversation_history w) = 12%nat
       /\ history_window w
          = [ "User: q2"; "Assistant: a2"; "User: q3"; "Assistant: a3";
              "User: q4"; "Assistant: a4"; "User: q5"; "Assistant: a5";
              "User: q6"; "Assistant: a6" ]
       /\ existsb (String.eqb "User: q1") (history_window w) = false.
Proof.
  split; [|split].
  - intros w. split; [apply last_n_length | apply last_n_suffix].
  - intros input es. destruct (walk_plain_log input es walk_start) as [q Hq].
    eexists. split; [exact Hq|]. split; [done|].
    unfold history_window, last_n. simpl. rewrite transcript_length.
    replace (2 * length es - 10)%nat with (2 * (length es - 5))%nat by lia.
    apply transcript_drop.
  - eexists. split; [vm_compute; reflexivity|].
    repeat split; vm_compute; reflexivity.
Qed.

(** ** Resuming a thread *)

Lemma eqb_status_neq (s1 s2 : string) : s1 <> s2 -> String.eqb s1 s2 = false.
Proof. intros H. by apply String.eqb_neq. Qed.

(** C8: a resume request on a run that is not suspended on an approval is
    refused with an error that names the state, by either endpoint, and the
    thread store and the checkpoints are left as they were. *)
Theorem resume_requires_interrupted_thread
    (fuel : nat) (E : env) (srv : Api.server) (id : string)
    (request : Api.ResumeRequest) (t : Api.thread) :
  Api.get_thread srv id = Some t ->
  Api.status t <> "interrupted" ->
  Api.resume_thread fuel E srv id request
  = (srv, Api.HTTPException 400
            ("Thread " +:+ id +:+ " is not interrupted (status: "
             +:+ Api.status t +:+ ")"))
  /\ Api.resume_thread_stream srv id request
     = (srv, Api.HTTPException 400
               ("Thread " +:+ id +:+ " is not interrupted (status: "
                +:+ Api.status t +:+ ")")).
Proof.
  intros Ht Hs. unfold Api.resume_thread, Api.resume_thread_stream.
  rewrite Ht, (eqb_status_neq _ _ Hs). by split.
Qed.

Lemma resume_requires_interrupted_thread_witness :
  Api.resume_thread 5 Examples.mail_env Examples.idle_server "thread_1"
    {| Api.type := Api.accept; Api.args := None |}
  = (Examples.idle_server,
     Api.HTTPException 400
       ("Thread " +:+ "thread_1" +:+ " is not interrupted (status: "
        +:+ Api.status (Api.set_status "idle" Examples.suspended_thread) +:+ ")"))
  /\ Api.resume_thread_stream Examples.idle_server "thread_1"
       {| Api.type := Api.accept; Api.args := None |}
     = (Examples.idle_server,
        Api.HTTPException 400
          ("Thread " +:+ "thread_1" +:+ " is not interrupted (status: "
           +:+ Api.status (Api.set_status "idle" Examples.suspended_thread) +:+ ")")).
Proof.
  apply (resume_requires_interrupted_thread 5 Examples.mail_env Examples.idle_server
           "thread_1" {| Api.type := Api.accept; Api.args := None |}
           (Api.set_status "idle" Examples.suspended_thread)).
  - reflexivity.
  - discriminate.
Defined.

(** ** Search *)

Import EmailStorage.

(** C9, as first stated, fails: with a negative [top_k] the slice
    [results[:top_k]] drops results from the end, and what is left can be
    more than [top_k]; and what the vector store answers is passed on in the
    store's order, which for distances is ascending. *)
Lemma search_with_negative_top_k :
  length (search Examples.no_vector_search Examples.three_mails
                 "hello budget MEETING" (-1)) = 2%nat
  /\ (Z.of_nat 2 <=? -1) = false
  /\ map score (search Examples.distance_search Examples.indexed_store "budget" 2)
     = [0.1%Q; 0.9%Q]
  /\ Qle_bool 0.9 0.1 = false.
Proof. repeat split; vm_compute; reflexivity. Qed.

Lemma insert_desc_perm (x : search_result) (l : list search_result) :
  insert_desc x l ≡ₚ x :: l.
Proof.
  induction l as [|y l IH]; simpl; [done|].
  destruct (Qle_bool (score y) (score x)); [done|].
  rewrite IH. apply Permutation_swap.
Qed.

Lemma sort_desc_perm (l : list search_result) : sort_desc l ≡ₚ l.
Proof.
  induction l as [|x l IH]; simpl; [done|].
  unfold sort_desc in *. simpl. by rewrite insert_desc_perm, IH.
Qed.

Lemma insert_desc_head (x y : search_result) (l : list search_result) :
  (score x <= score y)%Q ->
  HdRel (fun a b => (score b <= score a)%Q) y l ->
  HdRel (fun a b => (score b <= score a)%Q) y (insert_desc x l).
Proof.
  intros Hxy Hl. destruct l as [|z l]; simpl; [by constructor|].
  destruct (Qle_bool (score z) (score x)); constructor; [done|].
  by inversion Hl.
Qed.

Lemma insert_desc_sorted (x : search_result) (l : list search_result) :
  descending l -> descending (insert_desc x l).
Proof.
  unfold descending. induction l as [|y l IH]; intros Hl; simpl.
  - repeat constructor.
  - inversion Hl as [|? ? Hs Hh]; subst.
    destruct (Qle_bool (score y) (score x)) eqn:Hc.
    + constructor; [done|]. constructor. by apply Qle_bool_iff.
    + constructor; [by apply IH|]. apply insert_desc_head; [|done].
      apply Qlt_le_weak, Qnot_le_lt. intros Hle.
      apply Qle_bool_iff in Hle. congruence.
Qed.

Lemma sort_desc_sorted (l : list search_result) : descending (sort_desc l).
Proof.
  induction l as [|x l IH]; [constructor|].
  unfold sort_desc in *. simpl. by apply insert_desc_sorted.
Qed.

Lemma take_sorted {A : Type} (R : A -> A -> Prop) (n : nat) (l : list A) :
  Sorted R l -> Sorted R (take n l).
Proof.
  revert n. induction l as [|x l IH]; intros n Hl; destruct n; simpl; try constructor.
  - inversion Hl; subst. by apply IH.
  - inversion Hl as [|? ? Hs Hh]; subst.
    destruct l as [|y l], n; simpl; constructor. by inversion Hh.
Qed.

Lemma slice_upto_take {A : Type} (k : Z) (l : list A) :
  exists n, slice_upto k l = take n l.
Proof. unfold slice_upto. destruct (0 <=? k); eauto. Qed.

Lemma slice_upto_length {A : Type} (k : Z) (l : list A) :
  0 <= k -> Z.of_nat (length (slice_upto k l)) <= k.
Proof.
  intros Hk. unfold slice_upto. rewrite (proj2 (Z.leb_le 0 k)) by done.
  rewrite length_take. lia.
Qed.

Lemma match_score_positive (query_words : list string) (text_lower : string) :
  0 < match_score query_words text_lower ->
  exists word, word ∈ query_words /\ contains word text_lower = true.
Proof.
  unfold match_score. intros H.
  destruct (filter _ query_words) as [|word rest] eqn:Hf; [simpl in H; lia|].
  exists word.
  assert (word ∈ filter (fun w => contains w text_lower = true) query_words) as Hin
    by (rewrite Hf; by left).
  apply list_elem_of_filter in Hin as [Hc Hw]. by split.
Qed.

(** What is in the result of the text search came out of a stored email
    that holds one of the query's words, with a positive score. *)
Lemma text_match_positive (self : storage) (query : string) (f : file_content)
    (r : search_result) :
  f ∈ glob_json (local_files self) ->
  text_match (split (lower query)) f = Some r ->
  (0 < score r)%Q /\ matches_query self query r.
Proof.
  intros Hf Hm. destruct f as [email_data|]; [|discriminate].
  pose proof Hm as Hm'. unfold text_match in Hm. cbn zeta in Hm.
  destruct (0 <? match_score _ _) eqn:Hs; [|discriminate].
  apply Z.ltb_lt in Hs. inversion Hm; subst r; clear Hm. simpl. split.
  - unfold Qlt. simpl. lia.
  - destruct (match_score_positive _ _ Hs) as (word & Hw & Hc).
    by exists email_data, word.
Qed.

Lemma text_search_results (self : storage) (query : string) (top_k : Z) :
  descending (_text_search self query top_k)
  /\ Forall (fun r => (0 < score r)%Q /\ matches_query self query r)
            (_text_search self query top_k).
Proof.
  unfold _text_search. destruct (_ && _); [|split; constructor].
  destruct (slice_upto_take top_k
              (sort_desc (omap (text_match (split (lower query)))
                               (glob_json (local_files self))))) as [n ->].
  split.
  - apply take_sorted, sort_desc_sorted.
  - apply Forall_take. rewrite sort_desc_perm. apply Forall_forall.
    intros r Hr. apply list_elem_of_omap in Hr as (f & Hf & Hm).
    by apply (text_match_positive self query f).
Qed.

Lemma format_results_sorted (results : list (Document * Q)) :
  Sorted (fun a b : Document * Q => (b.2 <= a.2)%Q) results ->
  descending (map format_result results).
Proof.
  unfold descending. induction results as [|a l IH]; intros H; simpl; [constructor|].
  inversion H as [|? ? Hs Hh]; subst. constructor; [by apply IH|].
  destruct l; simpl; constructor. by inversion Hh.
Qed.

Lemma format_results_sorted_inv (results : list (Document * Q)) :
  descending (map format_result results) ->
  Sorted (fun a b : Document * Q => (b.2 <= a.2)%Q) results.
Proof.
  unfold descending. induction results as [|a l IH]; intros H; simpl in H; [constructor|].
  inversion H as [|? ? Hs Hh]; subst. constructor; [by apply IH|].
  destruct l; simpl in *; constructor. by inversion Hh.
Qed.

(** C9, amended: for every query and every non-negative [top_k], the
    text-matching fallback, which [search] takes when there is no vector
    store or its search raises, returns at most [top_k] results in
    descending order of score, each with a positive score and standing for
    a stored email that holds one of the query's words, and the empty
    sequence when nothing is stored.  When the vector store answers,
    [search] returns exactly the store's answer: one result per document,
    with the store's score, in the store's order and number, neither sorted
    nor cut; the results are then in descending order of score exactly when
    the store's answer is. *)
Theorem search_returns_ranked_results
    (similarity_search_with_score : similarity_search) (self : storage)
    (query : string) (top_k : Z) :
  0 <= top_k ->
  (Z.of_nat (length (_text_search self query top_k)) <= top_k
   /\ descending (_text_search self query top_k)
   /\ Forall (fun r => (0 < score r)%Q /\ matches_query self query r)
             (_text_search self query top_k))
  /\ (vector_store self = None
      \/ (exists docs e, vector_store self = Some docs
                         /\ similarity_search_with_score docs query top_k = Raise e) ->
      search similarity_search_with_score self query top_k
      = _text_search self query top_k)
  /\ (forall docs results,
      vector_store self = Some docs ->
      similarity_search_with_score docs query top_k = Ok results ->
      search similarity_search_with_score self query top_k = map format_result results
      /\ map score (search similarity_search_with_score self query top_k)
         = map snd results
      /\ length (search similarity_search_with_score self query top_k) = length results
      /\ (descending (search similarity_search_with_score self query top_k)
          <-> Sorted (fun a b : Document * Q => (b.2 <= a.2)%Q) results))
  /\ (local_files self = ∅ -> _text_search self query top_k = []).
Proof.
  intros Hk.
  assert (Z.of_nat (length (_text_search self query top_k)) <= top_k) as Hlen.
  { unfold _text_search. destruct (_ && _); [by apply slice_upto_length | simpl; lia]. }
  destruct (text_search_results self query top_k) as [Hsorted Hpos].
  split; [done|]. split; [|split].
  - intros [Hv | (docs & e & Hv & He)]; unfold search; rewrite Hv; [done|].
    by rewrite He.
  - intros docs results Hv Hr.
    assert (search similarity_search_with_score self query top_k
            = map format_result results) as ->.
    { unfold search. by rewrite Hv, Hr. }
    split; [done|]. split; [|split].
    + rewrite map_map. by apply map_ext.
    + by rewrite length_map.
    + split; [apply format_results_sorted_inv | apply format_results_sorted].
  - intros He. unfold _text_search, glob_json. rewrite He, map_to_list_empty. simpl.
    destruct (_ && _); [|done]. unfold slice_upto.
    destruct (0 <=? top_k); apply take_nil.
Qed.

Lemma search_returns_ranked_results_witness :
  Z.of_nat (length (_text_search Examples.three_mails "hello budget MEETING" 2)) <= 2
  /\ descending (_text_search Examples.three_mails "hello budget MEETING" 2)
  /\ Forall (fun r => (0 < score r)%Q
                      /\ matches_query Examples.three_mails "hello budget MEETING" r)
            (_text_search Examples.three_mails "hello budget MEETING" 2).
Proof.
  apply (proj1 (search_returns_ranked_results Examples.no_vector_search
                  Examples.three_mails "hello budget MEETING" 2 ltac:(lia))).
Defined.

(** On a store of three emails: the fallback ranks and cuts, and a vector
    store that answers is passed on as it is. *)
Example search_on_three_mails :
  map (fun r => (score r, author r))
      (search Examples.no_vector_search Examples.three_mails "hello budget MEETING" 3)
  = [(3%Q, PStr "carol"); (3%Q, PStr "bob"); (1%Q, PStr "alice@example.com")]
  /\ map (fun r => (score r, author r))
         (search Examples.no_vector_search Examples.three_mails "lunch hello" 2)
     = [(2%Q, PStr "carol"); (1%Q, PStr "alice@example.com")]
  /\ map score (search Examples.distance_search Examples.indexed_store "budget" 1)
     = [0.1%Q; 0.9%Q].
Proof. repeat split; vm_compute; reflexivity. Qed.

(** ** Email identifiers and duplicates *)

Lemma round_length (h : list Z) (kw : Z * Z) :
  length h = 8%nat -> length (Sha256.round h kw) = 8%nat.
Proof.
  intros H. do 8 (destruct h as [|? h]; [discriminate|]).
  destruct h; [reflexivity | discriminate].
Qed.

Lemma rounds_length (h : list Z) (kws : list (Z * Z)) :
  length h = 8%nat -> length (foldl Sha256.round h kws) = 8%nat.
Proof.
  revert h. induction kws as [|kw kws IH]; intros h H; simpl; [done|].
  by apply IH, round_length.
Qed.

Lemma compress_length (h block : list Z) :
  length h = 8%nat -> length (Sha256.compress h block) = 8%nat.
Proof.
  intros H. unfold Sha256.compress. rewrite length_zip_with, rounds_length by done. lia.
Qed.

Lemma blocks_length (n : nat) (h bytes : list Z) :
  length h = 8%nat -> length (Sha256.blocks n h bytes) = 8%nat.
Proof.
  revert h bytes. induction n as [|n IH]; intros h bytes H; simpl; [done|].
  by apply IH, compress_length.
Qed.

Lemma hex_digit_is_hex (v : Z) :
  0 <= v < 16 -> Sha256.is_hex_digit (Sha256.hex_digit v) = true.
Proof.
  intros H.
  assert (v = 0 \/ v = 1 \/ v = 2 \/ v = 3 \/ v = 4 \/ v = 5 \/ v = 6 \/ v = 7
          \/ v = 8 \/ v = 9 \/ v = 10 \/ v = 11 \/ v = 12 \/ v = 13 \/ v = 14
          \/ v = 15) as Hv by lia.
  repeat (destruct Hv as [-> | Hv]; [reflexivity|]). by subst.
Qed.

Lemma hex32_digits (x : Z) :
  length (Sha256.hex32 x) = 8%nat
  /\ Forall (fun c => Sha256.is_hex_digit c = true) (Sha256.hex32 x).
Proof.
  split; [reflexivity|]. unfold Sha256.hex32.
  apply Forall_forall. intros c Hc. apply list_elem_of_In, in_map_iff in Hc as (i & <- & _).
  apply hex_digit_is_hex. apply Z.mod_pos_bound. lia.
Qed.

Lemma hex_words_digits (ws : list Z) :
  length (concat (map Sha256.hex32 ws)) = (8 * length ws)%nat
  /\ Forall (fun c => Sha256.is_hex_digit c = true) (concat (map Sha256.hex32 ws)).
Proof.
  induction ws as [|x ws [IHl IHf]]; [by split|].
  change (concat (map Sha256.hex32 (x :: ws)))
    with (Sha256.hex32 x ++ concat (map Sha256.hex32 ws)).
  destruct (hex32_digits x) as [Hl Hf]. split.
  - rewrite length_app, Hl, IHl. simpl. lia.
  - by apply Forall_app.
Qed.

Lemma str_upto_of_list (n : nat) (l : list ascii) :
  str_upto n (string_of_list_ascii l) = string_of_list_ascii (take n l).
Proof.
  unfold str_upto. revert n. induction l as [|c l IH]; intros [|n]; simpl; try done.
  by rewrite IH.
Qed.

Lemma string_of_list_length (l : list ascii) :
  String.length (string_of_list_ascii l) = length l.
Proof. induction l as [|c l IH]; simpl; [done | by rewrite IH]. Qed.

(** The identifier is made of sixteen hexadecimal digits. *)
Lemma email_id_shape (email_data : gmap string pyval) :
  String.length (email_id_of email_data) = 16%nat
  /\ Forall (fun c => Sha256.is_hex_digit c = true)
            (list_ascii_of_string (email_id_of email_data)).
Proof.
  unfold email_id_of, Sha256.hexdigest.
  set (ws := Sha256.digest _).
  assert (length ws = 8%nat) as Hws by (by apply blocks_length).
  destruct (hex_words_digits ws) as [Hl Hf].
  rewrite str_upto_of_list. split.
  - rewrite string_of_list_length, length_take, Hl, Hws. reflexivity.
  - rewrite list_ascii_of_string_of_list_ascii. by apply Forall_take.
Qed.

Lemma already_stored_local (self : storage) (o : io) (email_id : string) (f : file_content) :
  storage_type self = "local" ->
  local_files self !! file_name email_id = Some f ->
  already_stored self o email_id = true.
Proof.
  intros Ht Hf. unfold already_stored. rewrite Ht. simpl.
  apply bool_decide_eq_true_2. by exists f.
Qed.

Lemma string_of_list_app (l1 l2 : list ascii) :
  string_of_list_ascii (l1 ++ l2)
  = string_of_list_ascii l1 +:+ string_of_list_ascii l2.
Proof.
  induction l1 as [|c l1 IH]; [done|].
  change (string_of_list_ascii ((c :: l1) ++ l2))
    with (String c (string_of_list_ascii (l1 ++ l2))).
  by rewrite IH.
Qed.

(** The digest has 64 hexadecimal digits, and the identifier is the first
    sixteen of them. *)
Lemma email_id_is_digest_prefix (email_data : gmap string pyval) :
  let digest :=
    Sha256.hexdigest (py_str (get_field email_data "author")
                      +:+ py_str (get_field email_data "subject")
                      +:+ py_str (get_field email_data "body")) in
  String.length digest = 64%nat
  /\ exists rest, digest = email_id_of email_data +:+ rest
                  /\ String.length rest = 48%nat.
Proof.
  unfold email_id_of, Sha256.hexdigest.
  set (ws := Sha256.digest _).
  assert (length ws = 8%nat) as Hws by (by apply blocks_length).
  destruct (hex_words_digits ws) as [Hl _]. rewrite Hws in Hl.
  set (l := concat (map Sha256.hex32 ws)) in *. cbv zeta.
  split; [by rewrite string_of_list_length|].
  exists (string_of_list_ascii (drop 16 l)). split.
  - by rewrite str_upto_of_list, <- string_of_list_app, take_drop.
  - rewrite string_of_list_length, length_drop, Hl. reflexivity.
Qed.

(** What [store_email] does with an email the existence check does not
    find. *)
Lemma store_email_new (self : storage) (o : io) (email_data : gmap string pyval) :
  already_stored self o (email_id_of email_data) = false ->
  store_email self o email_data
  = (store_vector (store_file self o email_data (email_id_of email_data))
                  o email_data (email_id_of email_data),
     Some (email_id_of email_data)).
Proof. intros H. unfold store_email. by rewrite H. Qed.

Lemma store_vector_files (self : storage) (o : io) (email_data : gmap string pyval)
    (email_id : string) :
  storage_type (store_vector self o email_data email_id) = storage_type self
  /\ local_files (store_vector self o email_data email_id) = local_files self
  /\ blob_service (store_vector self o email_data email_id) = blob_service self.
Proof.
  unfold store_vector. destruct (vector_store self); [|done].
  by destruct (add_documents_raises o).
Qed.

(** C10, amended: the identifier of an email is the first sixteen of the 64
    hexadecimal digits of the SHA-256 hash of its author, subject and body
    put end to end, so that two emails that agree on the three have the
    same identifier.  An email that the existence check does not find is
    stored and its identifier returned: in a local store whose write
    succeeds the file of that name then holds the email with its
    identifier, the other files are untouched, and storing the email again
    returns [None] and changes nothing.  An email that the check finds is
    skipped: [None] is returned and the store, the file it holds included,
    is left as it is.  The check finds a file that is there in a local
    store always, and in a store of blobs when [blob_client.exists] does
    not raise; when it raises, the email is taken for new and its
    identifier returned, although its blob is there and stays as it is. *)
Theorem store_email_skips_duplicates :
  (forall email_data : gmap string pyval,
      String.length
        (Sha256.hexdigest (py_str (get_field email_data "author")
                           +:+ py_str (get_field email_data "subject")
                           +:+ py_str (get_field email_data "body"))) = 64%nat
      /\ (exists rest,
            Sha256.hexdigest (py_str (get_field email_data "author")
                              +:+ py_str (get_field email_data "subject")
                              +:+ py_str (get_field email_data "body"))
            = email_id_of email_data +:+ rest)
      /\ String.length (email_id_of email_data) = 16%nat
      /\ Forall (fun c => Sha256.is_hex_digit c = true)
                (list_ascii_of_string (email_id_of email_data)))
  /\ (forall e1 e2 : gmap string pyval,
        get_field e1 "author" = get_field e2 "author" ->
        get_field e1 "subject" = get_field e2 "subject" ->
        get_field e1 "body" = get_field e2 "body" ->
        email_id_of e1 = email_id_of e2)
  /\ (forall (self : storage) (o : io) (email_data : gmap string pyval),
        already_stored self o (email_id_of email_data) = true ->
        store_email self o email_data = (self, None))
  /\ (forall (self : storage) (o : io) (email_data : gmap string pyval) (f : file_content),
        storage_type self = "local" ->
        local_files self !! file_name (email_id_of email_data) = Some f ->
        store_email self o email_data = (self, None)
        /\ local_files (store_email self o email_data).1
             !! file_name (email_id_of email_data) = Some f)
  /\ (forall (self : storage) (o o' : io) (email_data : gmap string pyval),
        storage_type self = "local" ->
        local_files self !! file_name (email_id_of email_data) = None ->
        file_write_raises o = false ->
        let stored := (store_email self o email_data).1 in
        (store_email self o email_data).2 = Some (email_id_of email_data)
        /\ local_files stored !! file_name (email_id_of email_data)
           = Some (stored_json email_data (email_id_of email_data))
        /\ (forall name, name <> file_name (email_id_of email_data) ->
            local_files stored !! name = local_files self !! name)
        /\ store_email stored o' email_data = (stored, None))
  /\ (forall (self : storage) (o : io) (email_data : gmap string pyval)
             (blobs : gmap string file_content) (f : file_content),
        storage_type self <> "local" ->
        blob_service self = Some blobs ->
        blobs !! file_name (email_id_of email_data) = Some f ->
        (blob_exists_raises o = false -> store_email self o email_data = (self, None))
        /\ (blob_exists_raises o = true ->
            (store_email self o email_data).2 = Some (email_id_of email_data)
            /\ blob_service (store_email self o email_data).1 = Some blobs)).
Proof.
  split; [|split; [|split; [|split; [|split]]]].
  - intros email_data.
    destruct (email_id_is_digest_prefix email_data) as (Hlen & rest & Hrest & _).
    split; [done|]. split; [by exists rest|]. apply email_id_shape.
  - intros e1 e2 Ha Hs Hb. unfold email_id_of. by rewrite Ha, Hs, Hb.
  - intros self o email_data H. unfold store_email. by rewrite H.
  - intros self o email_data f Ht Hf.
    assert (store_email self o email_data = (self, None)) as ->; [|done].
    unfold store_email. by rewrite (already_stored_local self o _ f).
  - intros self o o' email_data Ht Hnew Hw stored. subst stored.
    assert (already_stored self o (email_id_of email_data) = false) as Hs.
    { unfold already_stored. rewrite Ht. simpl. rewrite Hnew.
      apply bool_decide_eq_false_2. by intros [? ?]. }
    rewrite (store_email_new _ _ _ Hs). cbn [fst snd].
    destruct (store_vector_files (store_file self o email_data (email_id_of email_data))
                o email_data (email_id_of email_data)) as (Htype & Hfiles & _).
    assert (local_files (store_file self o email_data (email_id_of email_data))
            = <[file_name (email_id_of email_data)
                := stored_json email_data (email_id_of email_data)]> (local_files self))
      as Hfile.
    { unfold store_file. by rewrite Ht, Hw. }
    assert (storage_type (store_file self o email_data (email_id_of email_data)) = "local")
      as Htype'.
    { unfold store_file. by rewrite Ht, Hw. }
    split; [done|]. split; [|split].
    + by rewrite Hfiles, Hfile, lookup_insert_eq.
    + intros name Hname. by rewrite Hfiles, Hfile, lookup_insert_ne.
    + unfold store_email.
      rewrite (already_stored_local _ o' _
                 (stored_json email_data (email_id_of email_data))); [done| |].
      * by rewrite Htype.
      * by rewrite Hfiles, Hfile, lookup_insert_eq.
  - intros self o email_data blobs f Ht Hb Hf.
    apply String.eqb_neq in Ht. split.
    + intros Ho. unfold store_email, already_stored. rewrite Ht, Hb, Ho, Hf.
      by rewrite bool_decide_eq_true_2 by (by eexists).
    + intros Ho.
      assert (already_stored self o (email_id_of email_data) = false) as Hs.
      { unfold already_stored. by rewrite Ht, Hb, Ho. }
      rewrite (store_email_new _ _ _ Hs). cbn [fst snd]. split; [done|].
      destruct (store_vector_files (store_file self o email_data (email_id_of email_data))
                  o email_data (email_id_of email_data)) as (_ & _ & ->).
      unfold store_file. rewrite Ht, Hb, Hf.
      rewrite bool_decide_eq_true_2 by (by eexists). by rewrite orb_true_r.
Qed.

Lemma store_email_skips_duplicates_witness :
  (store_email Examples.empty_store io_ok Examples.alice_mail).2
  = Some (email_id_of Examples.alice_mail)
  /\ local_files (store_email Examples.empty_store io_ok Examples.alice_mail).1
       !! file_name (email_id_of Examples.alice_mail)
     = Some (stored_json Examples.alice_mail (email_id_of Examples.alice_mail))
  /\ (forall name, name <> file_name (email_id_of Examples.alice_mail) ->
      local_files (store_email Examples.empty_store io_ok Examples.alice_mail).1 !! name
      = local_files Examples.empty_store !! name)
  /\ store_email (store_email Examples.empty_store io_ok Examples.alice_mail).1
                 io_ok Examples.alice_mail
     = ((store_email Examples.empty_store io_ok Examples.alice_mail).1, None).
Proof.
  apply (proj1 (proj2 (proj2 (proj2 (proj2 store_email_skips_duplicates))))
           Examples.empty_store io_ok io_ok Examples.alice_mail).
  - reflexivity.
  - apply lookup_empty.
  - reflexivity.
Defined.

(** C10, as first stated, fails: in a store of blobs that holds the blob of
    an email, when the existence check raises, storing the email again
    returns its identifier, not [None]; the blob stays as it is. *)
Lemma store_email_with_failing_existence_check :
  (Examples.blob_store_with_alice.(blob_service)
     ≫= fun blobs => blobs !! file_name "5af6c4a04306da52")
  = Some (stored_json Examples.alice_mail "5af6c4a04306da52")
  /\ (store_email Examples.blob_store_with_alice Examples.exists_raises
                   Examples.alice_mail).2
     = Some "5af6c4a04306da52"
  /\ blob_service (store_email Examples.blob_store_with_alice Examples.exists_raises
                               Examples.alice_mail).1
     = blob_service Examples.blob_store_with_alice.
Proof. repeat split; vm_compute; reflexivity. Qed.

(** The embedding of SHA-256 on the standard test message, and the
    identifier of an example email. *)
Example sha256_of_abc :
  Sha256.hexdigest "abc"
  = "ba7816bf8f01cfea414140de5dae2223b00361a396177a9cb410ff61f20015ad"
  /\ email_id_of Examples.alice_mail = "5af6c4a04306da52".
Proof. split; vm_compute; reflexivity. Qed.

(** The bulk import derives the identifier as [store_email] does, and skips
    an email that is both indexed and on file. *)
Lemma bulk_import_uses_the_same_identifier (self : storage) (o : io)
    (indexed : string -> bool) (email_data : gmap string pyval) (docs : gmap string Document) :
  (bulk_import_plan self o indexed email_data).1 = email_id_of email_data
  /\ (vector_store self = Some docs ->
      indexed (email_id_of email_data) = true ->
      already_stored self o (email_id_of email_data) = true ->
      (bulk_import_plan self o indexed email_data).2 = SkipDuplicate).
Proof.
  split; [reflexivity|]. intros Hv Hi Hs. unfold bulk_import_plan. simpl.
  by rewrite Hv, Hi, Hs.
Qed.

(** * Further properties of the code *)

Import UserMessages.

(** ** Argument repair *)

Lemma dict_get_set (k k' : string) (v : pyval) (d : pydict) :
  dict_get k (dict_set k' v d) = if String.eqb k k' then Some v else dict_get k d.
Proof.
  induction d as [|[k0 v0] d IH]; simpl.
  - destruct (String.eqb k k'); done.
  - destruct (String.eqb k' k0) eqn:Hk0; simpl.
    + apply String.eqb_eq in Hk0 as <-.
      destruct (String.eqb k k') eqn:Hk; [done|done].
    + rewrite IH. destruct (String.eqb k k0) eqn:Hkk0; [|done].
      apply String.eqb_eq in Hkk0 as ->.
      by rewrite String.eqb_sym, Hk0.
Qed.

Lemma dict_get_default_set (k : string) (dflt v : pyval) (d : pydict) :
  dict_get_default k dflt (dict_set k v d) = v.
Proof. unfold dict_get_default. by rewrite dict_get_set, String.eqb_refl. Qed.

(** X1: the supervisor's repair of the arguments.  A call to
    [manage_calendar] or [manage_email] whose [request] is missing or falsy
    gets the input of the turn as its [request]; a call to
    [search_email_history] whose [query] is missing or falsy gets the input
    of the turn as its [query], and keeps its [top_k] or gets 5.  So after
    the repair the required argument is truthy.  Nothing else is touched: an
    argument supplied with a truthy value is never replaced, the arguments
    under other names stay, and the calls to other tools are left as they
    are. *)
Theorem repaired_call_has_required_argument
    (tool_name user_message : string) (tool_args : pydict) :
  user_message <> EmptyString ->
  let repaired := repair_args tool_name user_message tool_args in
  (tool_name = "manage_calendar" \/ tool_name = "manage_email" ->
   truthy (dict_get_default "request" PNone repaired) = true
   /\ (truthy (dict_get_default "request" PNone tool_args) = false ->
       dict_get "request" repaired = Some (PStr user_message)))
  /\ (tool_name = "search_email_history" ->
      truthy (dict_get_default "query" PNone repaired) = true
      /\ (truthy (dict_get_default "query" PNone tool_args) = false ->
          dict_get "query" repaired = Some (PStr user_message)
          /\ dict_get "top_k" repaired
             = Some (dict_get_default "top_k" (PInt 5) tool_args)))
  /\ (forall k v, dict_get k tool_args = Some v -> truthy v = true ->
      dict_get k repaired = Some v)
  /\ (forall k, k <> "request" -> k <> "query" -> k <> "top_k" ->
      dict_get k repaired = dict_get k tool_args)
  /\ (tool_name <> "manage_calendar" -> tool_name <> "manage_email" ->
      tool_name <> "search_email_history" -> repaired = tool_args).
Proof.
  intros Hu repaired.
  assert (truthy (PStr user_message) = true) as Htu.
  { simpl. apply negb_true_iff. by apply String.eqb_neq. }
  subst repaired. unfold repair_args. split; [|split; [|split; [|split]]].
  - intros [-> | ->]; simpl;
      destruct (truthy (dict_get_default "request" PNone tool_args)) eqn:Hr; simpl;
      rewrite ?dict_get_default_set; (split; [done|]); try done;
      intros _; by rewrite dict_get_set.
  - intros ->. simpl.
    destruct (truthy (dict_get_default "query" PNone tool_args)) eqn:Hr; simpl;
      [done|].
    split; [|intros _; split].
    + unfold dict_get_default at 1. rewrite dict_get_set. simpl.
      by rewrite dict_get_set.
    + rewrite dict_get_set. simpl. by rewrite dict_get_set.
    + rewrite dict_get_set. simpl. f_equal.
      unfold dict_get_default. by rewrite dict_get_set.
  - intros k v Hk Hv.
    assert (forall key, truthy (dict_get_default key PNone tool_args) = false ->
                        String.eqb k key = false) as Hne.
    { intros key Hf. destruct (String.eqb k key) eqn:E; [|done].
      apply String.eqb_eq in E as <-.
      rewrite (dict_get_default_some _ _ _ _ Hk) in Hf. congruence. }
    destruct (String.eqb tool_name "manage_calendar"
              && negb (truthy (dict_get_default "request" PNone tool_args))) eqn:H1.
    { apply andb_true_iff in H1 as [_ H1]. apply negb_true_iff in H1.
      by rewrite dict_get_set, (Hne _ H1). }
    destruct (String.eqb tool_name "manage_email"
              && negb (truthy (dict_get_default "request" PNone tool_args))) eqn:H2.
    { apply andb_true_iff in H2 as [_ H2]. apply negb_true_iff in H2.
      by rewrite dict_get_set, (Hne _ H2). }
    destruct (String.eqb tool_name "search_email_history"
              && negb (truthy (dict_get_default "query" PNone tool_args))) eqn:H3;
      [|done].
    apply andb_true_iff in H3 as [_ H3]. apply negb_true_iff in H3.
    rewrite dict_get_set.
    destruct (String.eqb k "top_k") eqn:Ek.
    + apply String.eqb_eq in Ek as ->.
      unfold dict_get_default. rewrite dict_get_set. simpl. by rewrite Hk.
    + by rewrite dict_get_set, (Hne _ H3).
  - intros k Hr Hq Ht.
    apply String.eqb_neq in Hr, Hq, Ht.
    destruct (_ && _); [by rewrite dict_get_set, Hr|].
    destruct (_ && _); [by rewrite dict_get_set, Hr|].
    destruct (_ && _); [|done]. by rewrite !dict_get_set, Ht, Hq.
  - intros H1 H2 H3. apply String.eqb_neq in H1, H2, H3. by rewrite H1, H2, H3.
Qed.

Lemma repaired_call_has_required_argument_witness :
  truthy (dict_get_default "request" PNone
            (repair_args "manage_email" Examples.send_hi [("request", PStr EmptyString)]))
  = true
  /\ (truthy (dict_get_default "request" PNone [("request", PStr EmptyString)]) = false ->
      dict_get "request"
        (repair_args "manage_email" Examples.send_hi [("request", PStr EmptyString)])
      = Some (PStr Examples.send_hi)).
Proof.
  apply (proj1 (repaired_call_has_required_argument
                  "manage_email" Examples.send_hi [("request", PStr EmptyString)]
                  ltac:(discriminate))).
  by right.
Defined.

(** ** Routing after the supervisor, and the calls the gate sees *)

Lemma with_last_calls_same (msgs : list message) (m : message) :
  last msgs = Some m -> with_last_calls msgs (tool_calls_of m) = msgs.
Proof.
  intros Hl. unfold with_last_calls. rewrite Hl.
  destruct (last_Some msgs m) as [[before ->] _]; [done|].
  destruct m; try done. simpl. by rewrite all_but_last_snoc.
Qed.

Lemma set_first_args_names (new_args : pyval) (tcs : list tool_call) :
  tc_name <$> set_first_args new_args tcs = tc_name <$> tcs.
Proof. by destruct tcs. Qed.

(** A request the gate suspends on is about one of the calls it was given,
    under the name of that call. *)
Lemma gate_loop_request_name (todo i : nat) (msgs : list message) (tcs : list tool_call)
    (decisions : list pyval) (request : HumanInterrupt) :
  gate_loop todo i msgs tcs decisions = Suspended request ->
  action (action_request request) ∈ tc_name <$> tcs
  /\ in_names (action (action_request request)) HITL_TOOL_NAMES = true
  /\ config request = get_hitl_config (action (action_request request)).
Proof.
  revert i tcs decisions.
  induction todo as [|todo IH]; intros i tcs decisions H; [discriminate|].
  cbn [gate_loop] in H.
  destruct (tcs !! i) as [tc|] eqn:Htc; [|discriminate].
  destruct (in_names (tc_name tc) HITL_TOOL_NAMES) eqn:Hin; [|by apply IH in H].
  destruct (create_interrupt (tc_name tc) (tc_args tc)) as [req|e] eqn:Hreq; [|discriminate].
  assert (action (action_request req) = tc_name tc /\ config req = get_hitl_config (tc_name tc))
    as [Hact Hcfg].
  { unfold create_interrupt in Hreq. apply bind_ok in Hreq as (d & _ & Hreq).
    by inversion Hreq. }
  destruct decisions as [|d ds].
  { inversion H; subst. rewrite Hact. split; [|by rewrite Hcfg].
    apply list_elem_of_fmap. exists tc. split; [done|]. by eapply list_elem_of_lookup_2. }
  destruct d as [| | | | |r]; try (by apply IH in H).
  destruct (is_str _ "ignore"); [discriminate|].
  destruct (is_str _ "edit" && truthy _).
  - destruct (dict_get_default "args" PNone r); try discriminate.
    apply IH in H. by rewrite set_first_args_names in H.
  - destruct (is_str _ "response"); [discriminate|]. by apply IH in H.
Qed.

(** X2: the route out of the supervisor is the gate or the end of the run;
    it is the end as soon as one call of the last message is named [Done] or
    [Question].  So an approval request raised on that route is never about
    [Question]: it is about one of the other approval-gated names, and its
    configuration allows all four decisions. *)
Theorem question_call_never_reaches_gate (msgs : list message) :
  (should_continue msgs = NHitlGate \/ should_continue msgs = NEnd)
  /\ (should_continue msgs = NHitlGate ->
      pending_calls msgs <> []
      /\ Forall (fun tc => tc_name tc <> "Done" /\ tc_name tc <> "Question")
                (pending_calls msgs))
  /\ (forall decisions request,
      should_continue msgs = NHitlGate ->
      hitl_gate msgs decisions = Suspended request ->
      action (action_request request)
        ∈ ["send-mail"; "create-calendar-event"; "create-specific-calendar-event";
           "manage_email"]
      /\ config request = allow_all).
Proof.
  assert (should_continue msgs = NHitlGate ->
          pending_calls msgs <> []
          /\ Forall (fun tc => tc_name tc <> "Done" /\ tc_name tc <> "Question")
                    (pending_calls msgs)) as Hcalls.
  { unfold should_continue, pending_calls.
    destruct (last msgs) as [m|]; [|discriminate].
    destruct (tool_calls_of m) as [|tc tcs]; [discriminate|].
    destruct (existsb _ (tc :: tcs)) eqn:Hex; [discriminate|]. intros _. split; [done|].
    apply Forall_forall. intros tc' Hin.
    assert (in_names (tc_name tc') ["Done"; "Question"] = false) as Hn.
    { destruct (in_names (tc_name tc') ["Done"; "Question"]) eqn:E; [|done].
      assert (existsb (fun tc => in_names (tc_name tc) ["Done"; "Question"]) (tc :: tcs)
              = true) as Ht.
      { apply existsb_exists. exists tc'. split; [|done]. by apply list_elem_of_In. }
      congruence. }
    unfold in_names in Hn. simpl in Hn.
    apply orb_false_iff in Hn as [H1 Hn]. apply orb_false_iff in Hn as [H2 _].
    split; by apply String.eqb_neq. }
  split; [|split; [exact Hcalls|]].
  - unfold should_continue. destruct (last msgs) as [m|]; [|by right].
    destruct (tool_calls_of m); [by right|]. destruct (existsb _ _); [by right|by left].
  - intros decisions request Hroute Hgate.
    destruct (Hcalls Hroute) as [_ Hnames].
    unfold hitl_gate in Hgate. unfold pending_calls in Hnames.
    destruct (last msgs) as [m|]; [|discriminate].
    destruct (tool_calls_of m) as [|tc tcs] eqn:Htcs; [discriminate|].
    apply gate_loop_request_name in Hgate as (Hin & Hh & Hcfg).
    apply list_elem_of_fmap in Hin as (tc' & Hname & Hin).
    rewrite Forall_forall in Hnames. destruct (Hnames tc' Hin) as [_ Hq].
    rewrite <- Hname in Hq.
    set (n := action (action_request request)) in *.
    unfold in_names in Hh. simpl in Hh.
    do 4 (apply orb_true_iff in Hh as [Hh|Hh];
          [apply String.eqb_eq in Hh; rewrite Hcfg, Hh; split;
           [repeat constructor|done]|]).
    apply orb_true_iff in Hh as [Hh|Hh]; [|done].
    by apply String.eqb_eq in Hh.
Qed.

(** X3: a last message whose calls are all outside the approval-gated names
    passes the gate untouched, whatever decisions are at hand: no request is
    raised, the log is returned as it is, and the route leads to the tool
    node with the same calls. *)
Theorem ungated_calls_pass_the_gate (msgs : list message) (decisions : list pyval) :
  pending_calls msgs <> [] ->
  Forall (fun tc => in_names (tc_name tc) HITL_TOOL_NAMES = false) (pending_calls msgs) ->
  hitl_gate msgs decisions = Returned msgs /\ after_hitl msgs = NTools.
Proof.
  unfold pending_calls, hitl_gate, after_hitl.
  destruct (last msgs) as [m|] eqn:Hl; [|done].
  intros Hne Hall.
  assert (forall todo i, gate_loop todo i msgs (tool_calls_of m) decisions = Returned msgs)
    as Hloop.
  { induction todo as [|todo IH]; intros i; cbn [gate_loop].
    - by rewrite with_last_calls_same.
    - destruct (tool_calls_of m !! i) as [tc|] eqn:Htc; [|by rewrite with_last_calls_same].
      rewrite Forall_forall in Hall.
      rewrite (Hall tc) by (by eapply list_elem_of_lookup_2). apply IH. }
  destruct (tool_calls_of m) as [|tc tcs] eqn:Htcs; [done|].
  split; [apply Hloop|done].
Qed.

Lemma ungated_calls_pass_the_gate_witness :
  hitl_gate [AIMessage EmptyString
               [ {| tc_name := "search_email_history";
                    tc_args := PDict [("query", PStr "budget")]; tc_id := "call_1" |} ]
               (Some "msg-1")]
            [Examples.decision "ignore" PNone]
  = Returned [AIMessage EmptyString
               [ {| tc_name := "search_email_history";
                    tc_args := PDict [("query", PStr "budget")]; tc_id := "call_1" |} ]
               (Some "msg-1")].
Proof.
  apply (ungated_calls_pass_the_gate
           [AIMessage EmptyString
              [ {| tc_name := "search_email_history";
                   tc_args := PDict [("query", PStr "budget")]; tc_id := "call_1" |} ]
              (Some "msg-1")]).
  - discriminate.
  - repeat constructor.
Defined.

(** ** The decisions of the REST layer at the gate *)

(** X4: an [accept] decision, whatever payload comes with it, and an [edit]
    decision whose payload is missing or empty, leave the log as it is: the
    gate returns it unchanged and the route leads to the tool node, which
    executes the call as the supervisor proposed it. *)
Theorem accept_runs_call_as_proposed (before : list message) (c : string)
    (tc : tool_call) (i : option string) (request : HumanInterrupt)
    (payload : option pyval) :
  in_names (tc_name tc) HITL_TOOL_NAMES = true ->
  create_interrupt (tc_name tc) (tc_args tc) = Ok request ->
  let log := before ++ [AIMessage c [tc] i] in
  hitl_gate log [Api.human_response {| Api.type := Api.accept; Api.args := payload |}]
  = Returned log
  /\ (truthy (default PNone payload) = false ->
      hitl_gate log [Api.human_response {| Api.type := Api.edit; Api.args := payload |}]
      = Returned log)
  /\ after_hitl log = NTools
  /\ pending_calls log = [tc].
Proof.
  intros Hh Hc log. subst log.
  split; [|split; [|apply after_hitl_calls]].
  - by rewrite (gate_on_single_call _ _ _ _ request).
  - intros Hp. rewrite (gate_on_single_call _ _ _ _ request) by done.
    unfold Api.human_response. cbn. by rewrite Hp.
Qed.

Lemma accept_runs_call_as_proposed_witness :
  hitl_gate (messages Examples.awaiting_mail)
            [Api.human_response {| Api.type := Api.accept; Api.args := None |}]
  = Returned (messages Examples.awaiting_mail).
Proof.
  apply (accept_runs_call_as_proposed
           [HumanMessage Examples.send_hi (Some "msg-0")] EmptyString
           Examples.mail_call (Some "msg-1")
           {| action_request :=
                {| action := "manage_email";
                   args := PDict [("request", PStr Examples.send_hi)] |};
              config := allow_all;
              description :=
                Some "Email action: send email to a@example.com saying hi..." |}
           None); reflexivity.
Defined.

(** X5: a [response] decision does not execute the call.  The gate appends
    the payload, as [str] prints it, as a user message behind the log, and
    the route leads back to the supervisor; a decision without payload
    appends the text [None]. *)
Theorem response_returns_to_supervisor (before : list message) (c : string)
    (tc : tool_call) (i : option string) (request : HumanInterrupt)
    (payload : option pyval) :
  in_names (tc_name tc) HITL_TOOL_NAMES = true ->
  create_interrupt (tc_name tc) (tc_args tc) = Ok request ->
  let log := before ++ [AIMessage c [tc] i] in
  let feedback := HumanMessage (py_str (default PNone payload)) None in
  hitl_gate log [Api.human_response {| Api.type := Api.response; Api.args := payload |}]
  = Returned (log ++ [feedback])
  /\ after_hitl (log ++ [feedback]) = NSupervisor
  /\ pending_calls (log ++ [feedback]) = []
  /\ (payload = None -> feedback = HumanMessage "None" None).
Proof.
  intros Hh Hc log feedback. subst log feedback.
  split; [|split; [|split]].
  - rewrite (gate_on_single_call _ _ _ _ request) by done.
    unfold Api.human_response. cbn. by rewrite <- app_assoc.
  - unfold after_hitl. by rewrite last_snoc.
  - unfold pending_calls. by rewrite last_snoc.
  - by intros ->.
Qed.

Lemma response_returns_to_supervisor_witness :
  hitl_gate (messages Examples.awaiting_mail)
            [Api.human_response {| Api.type := Api.response;
                                   Api.args := Some (PStr "use a formal tone") |}]
  = Returned (messages Examples.awaiting_mail
              ++ [HumanMessage "use a formal tone" None]).
Proof.
  apply (response_returns_to_supervisor
           [HumanMessage Examples.send_hi (Some "msg-0")] EmptyString
           Examples.mail_call (Some "msg-1")
           {| action_request :=
                {| action := "manage_email";
                   args := PDict [("request", PStr Examples.send_hi)] |};
              config := allow_all;
              description :=
                Some "Email action: send email to a@example.com saying hi..." |}
           (Some (PStr "use a formal tone"))); reflexivity.
Defined.

(** X6: the description of an approval request is computed for every
    mapping of arguments except one case: for [manage_email] and
    [schedule_event] the [request] argument is sliced, so a request that is
    neither text nor a list makes the description raise; and then the gate
    run on a [manage_email] call with such a request raises too, whatever
    decisions are at hand. *)
Theorem description_needs_sliceable_request (action : string) (d : pydict) :
  (is_ok (_generate_description action (PDict d)) = false
   <-> (action = "manage_email" \/ action = "schedule_event")
       /\ is_ok (HitlSchemas.slice_upto
                   100 (dict_get_default "request" (PStr EmptyString) d)) = false)
  /\ (forall before c tc i decisions,
      tc_name tc = "manage_email" -> tc_args tc = PDict d ->
      is_ok (HitlSchemas.slice_upto
                100 (dict_get_default "request" (PStr EmptyString) d)) = false ->
      exists e, hitl_gate (before ++ [AIMessage c [tc] i]) decisions = Raised e).
Proof.
  split.
  - unfold _generate_description.
    destruct (String.eqb action "send-mail") eqn:E1.
    { apply String.eqb_eq in E1 as ->. split; [done|]. by intros [[?|?] _]. }
    destruct (String.eqb action "create-calendar-event"
              || String.eqb action "create-specific-calendar-event") eqn:E2.
    { apply orb_true_iff in E2 as [E2|E2]; apply String.eqb_eq in E2 as ->;
        (split; [done|]); by intros [[?|?] _]. }
    destruct (String.eqb action "Question") eqn:E3.
    { apply String.eqb_eq in E3 as ->. split; [done|]. by intros [[?|?] _]. }
    destruct (String.eqb action "manage_email") eqn:E4.
    { apply String.eqb_eq in E4 as ->.
      destruct (HitlSchemas.slice_upto 100 _); simpl; split; try done.
      - by intros [_ ?].
      - intros _. split; [by left|done]. }
    destruct (String.eqb action "schedule_event") eqn:E5.
    { apply String.eqb_eq in E5 as ->.
      destruct (HitlSchemas.slice_upto 100 _); simpl; split; try done.
      - by intros [_ ?].
      - intros _. split; [by right|done]. }
    split; [done|]. intros [[->| ->] _]; done.
  - intros before c tc i decisions Hn Ha Hs.
    unfold hitl_gate. rewrite last_snoc.
    cbn [tool_calls_of length gate_loop lookup list_lookup].
    rewrite Hn, Ha. cbn [in_names existsb HITL_TOOL_NAMES String.eqb Ascii.eqb Bool.eqb orb].
    unfold create_interrupt, _generate_description.
    cbn [String.eqb Ascii.eqb Bool.eqb orb].
    destruct (HitlSchemas.slice_upto 100 _) as [v|e]; [done|]. by exists e.
Qed.

(** ** The user message the supervisor appends *)

Lemma append_inj_prefix (p a b : string) : p +:+ a = p +:+ b -> a = b.
Proof.
  induction p as [|x p IH]; intros H; [exact H|].
  apply IH. by injection H.
Qed.

Lemma walk_tool_calls_user_entries (s : string) (w w' : walk) (tcs : list tool_call) :
  walk_tool_calls w tcs = Ok w' ->
  ("User: " +:+ s) ∈ conversation_history w'
  <-> ("User: " +:+ s) ∈ conversation_history w.
Proof.
  revert w. induction tcs as [|tc tcs IH]; intros w H; simpl in H.
  - by inversion H.
  - apply bind_ok in H as (w1 & H1 & H). rewrite (IH _ H).
    unfold walk_tool_call in H1. destruct (String.eqb (tc_name tc) "Done").
    + apply bind_ok in H1 as (a & _ & H1). inversion H1; subst; simpl.
      rewrite elem_of_app, list_elem_of_singleton. split; [|by left].
      intros [?|?]; [done|discriminate].
    + by inversion H1.
Qed.

Lemma walk_messages_user_entries (u s : string) (w w' : walk) (log : list message) :
  walk_messages u w log = Ok w' ->
  ("User: " +:+ s) ∈ conversation_history w'
  <-> ("User: " +:+ s) ∈ conversation_history w \/ asked_in s log.
Proof.
  revert w. induction log as [|m log IH]; intros w H; simpl in H.
  - inversion H; subst. split; [by left|]. intros [?|[i Hi]]; [done|]. by inversion Hi.
  - apply bind_ok in H as (w1 & H1 & H). rewrite (IH _ H).
    assert (asked_in s (m :: log)
            <-> (exists i, m = HumanMessage s i) \/ asked_in s log) as ->.
    { unfold asked_in. split.
      - intros [i Hi]. apply elem_of_cons in Hi as [Hi|Hi]; [left|right]; eauto.
      - intros [[i ->]|[i Hi]]; exists i; [left|by right]. }
    destruct m as [c i|c tcs i|c n t i]; simpl in H1.
    + inversion H1; subst; simpl. rewrite elem_of_app, list_elem_of_singleton.
      split.
      * intros [[?|He]|?]; [by left| |by right; right].
        right; left. exists i. by apply append_inj_prefix in He as ->.
      * intros [?|[[i' Hi]|?]]; [by left; left| |by right].
        inversion Hi; subst. by left; right.
    + assert (("User: " +:+ s) ∈ conversation_history w1
              <-> ("User: " +:+ s) ∈ conversation_history w) as ->.
      { destruct tcs as [|tc tcs].
        - destruct (str_truthy c); inversion H1; subst; simpl; [|done].
          rewrite elem_of_app, list_elem_of_singleton. split; [|by left].
          intros [?|?]; [done|discriminate].
        - by apply (walk_tool_calls_user_entries s) in H1. }
      split; [intros [?|?]; [by left|by right; right]|].
      intros [?|[[i' ?]|?]]; [by left|done|by right].
    + assert (conversation_history w1 = conversation_history w) as ->.
      { by destruct (decide _); inversion H1. }
      split; [intros [?|?]; [by left|by right; right]|].
      intros [?|[[i' ?]|?]]; [by left|done|by right].
Qed.

Lemma current_user_in_history_spec (u : string) (w : walk) (log : list message) :
  reconcile u log = Ok w ->
  current_user_in_history u w = true <-> asked_in u log.
Proof.
  intros H. unfold current_user_in_history.
  rewrite existsb_exists.
  pose proof (walk_messages_user_entries u u _ _ _ H) as Hw. simpl in Hw.
  split.
  - intros (h & Hin & He). apply String.eqb_eq in He as <-.
    apply list_elem_of_In in Hin. apply Hw in Hin as [Hin|?]; [|done]. by inversion Hin.
  - intros Ha. exists ("User: " +:+ u). split; [|apply String.eqb_refl].
    apply list_elem_of_In, Hw. by right.
Qed.

(** X7: the supervisor puts the input of the turn into the log as a user
    message exactly when the log holds no user message with that text yet:
    then its update is that user message followed by the assistant message,
    and otherwise the assistant message alone. *)
Theorem supervisor_adds_unseen_input_only (E : env) (st : State) (u : string)
    (update : list message) :
  user_message_of E st = Some u ->
  supervisor E st = Ok update ->
  exists ai,
    (forall c i, ai <> HumanMessage c i)
    /\ (asked_in u (messages st) -> update = [ai])
    /\ ((forall i, HumanMessage u i ∉ messages st) ->
        update = [HumanMessage u None; ai]).
Proof.
  intros Hu H. unfold supervisor in H. rewrite Hu in H.
  apply bind_ok in H as (w & Hw & H).
  pose proof (current_user_in_history_spec u w _ Hw) as Hspec.
  set (ai := match llm_tool_selector E (tool_selection_prompt E u w) with
             | Ok tool_request =>
                 AIMessage EmptyString
                   [ {| tc_name := req_tool_name tool_request;
                        tc_args := PDict (repair_args (req_tool_name tool_request) u
                                                      (req_tool_args tool_request));
                        tc_id := "call_" +:+ now_timestamp E |} ] None
             | Raise e => AIMessage ("Error: " +:+ e) [] None
             end) in *.
  exists ai. split; [|split].
  - intros c i. subst ai. by destruct (llm_tool_selector E _).
  - intros Ha. pose proof Ha as [i Hi].
    destruct (messages st) as [|m l] eqn:Hl; [by inversion Hi|].
    apply Hspec in Ha. rewrite Ha in H. simpl in H. by inversion H.
  - intros Hn.
    assert (current_user_in_history u w = false) as Hf.
    { apply not_true_is_false. intros Hc.
      apply Hspec in Hc as [i Hi]. by apply Hn in Hi. }
    rewrite Hf, orb_true_r in H. by inversion H.
Qed.

Lemma supervisor_adds_unseen_input_only_witness :
  exists ai,
    (forall c i, ai <> HumanMessage c i)
    /\ (asked_in Examples.send_hi (messages Examples.awaiting_mail)
        -> [AIMessage EmptyString [Examples.mail_call] None] = [ai])
    /\ ((forall i, HumanMessage Examples.send_hi i ∉ messages Examples.awaiting_mail)
        -> [AIMessage EmptyString [Examples.mail_call] None]
           = [HumanMessage Examples.send_hi None; ai]).
Proof.
  apply (supervisor_adds_unseen_input_only Examples.mail_env Examples.awaiting_mail
           Examples.send_hi); vm_compute; reflexivity.
Defined.

(** ** The sub-agent loop when the iterations run out *)

Section SubAgentExhausted.

Variables (E : env) (tools : list tool) (tools_by_name : list (string * tool))
          (system_prompt user_request : string).

(** Every iteration that does not return adds one result line. *)
Lemma sub_agent_state_lines (k : nat) (s : sub_state) :
  sub_agent_state_at E tools tools_by_name system_prompt user_request k = Some s ->
  length (tool_results s) = k.
Proof.
  revert s. induction k as [|k IH]; intros s Hs; simpl in Hs.
  - by inversion Hs.
  - destruct (sub_agent_state_at _ _ _ _ _ k) as [s0|]; [|discriminate].
    specialize (IH s0 eq_refl).
    unfold sub_agent_iteration in Hs.
    destruct (sub_llm E k _) as [req|e].
    + destruct (String.eqb (req_tool_name req) "DONE"); [discriminate|].
      destruct (lookup_tool _ _) as [t|].
      * destruct (ainvoke t _); injection Hs as <-; simpl;
          rewrite length_app, IH; simpl; lia.
      * injection Hs as <-; simpl. rewrite length_app, IH; simpl; lia.
    + destruct (tool_results s0); [discriminate|].
      destruct (str_truthy _); discriminate.
Qed.

(** X8: when the iterations run out without an answer, the sub-agent
    returns the raw output of the latest tool that returned, cut to 2000
    characters, if there is one and it is not empty, and otherwise the
    result lines, one per iteration, joined by line breaks.  The text
    [Could not complete the request.] is returned when no iteration runs at
    all, that is for a bound of zero or less. *)
Theorem sub_agent_out_of_iterations (max_iterations : Z) :
  (max_iterations <= 0 ->
   run_sub_agent E tools tools_by_name system_prompt user_request max_iterations
   = PStr "Could not complete the request.")
  /\ (forall s,
      0 < max_iterations ->
      sub_agent_state_at E tools tools_by_name system_prompt user_request
                         (Z.to_nat max_iterations) = Some s ->
      length (tool_results s) = Z.to_nat max_iterations
      /\ run_sub_agent E tools tools_by_name system_prompt user_request max_iterations
         = match last (SubAgentTrace.returned_outputs
                         E tools tools_by_name system_prompt user_request
                         (Z.to_nat max_iterations)) with
           | Some raw =>
               if str_truthy raw then PStr (str_upto 2000 raw)
               else PStr (join nl (tool_results s))
           | None => PStr (join nl (tool_results s))
           end).
Proof.
  split.
  - intros H. unfold run_sub_agent.
    by replace (Z.to_nat max_iterations) with 0%nat by lia.
  - intros s Hpos Hs. pose proof (sub_agent_state_lines _ _ Hs) as Hlen.
    split; [done|].
    rewrite <- (last_raw_is_latest_output E tools tools_by_name system_prompt
                  user_request _ s Hs).
    unfold run_sub_agent.
    replace (Z.to_nat max_iterations) with (Z.to_nat max_iterations + 0)%nat at 1 by lia.
    rewrite (sub_agent_loop_reaches E tools tools_by_name system_prompt user_request
               _ 0 s Hs).
    simpl. unfold sub_agent_exhausted.
    destruct (last_raw_result s) as [raw|]; simpl.
    + destruct (str_truthy raw); [done|].
      destruct (tool_results s); [simpl in Hlen; lia|done].
    + destruct (tool_results s); [simpl in Hlen; lia|done].
Qed.

End SubAgentExhausted.

(** The model keeps selecting the tool that lists the inbox: after two
    iterations the answer is the tool's latest output. *)
Example listing_twice_returns_latest_output :
  run_sub_agent Examples.listing_env [Examples.list_tool]
                [("list-mail-messages", Examples.list_tool)]
                "You are an email specialist." "list my emails" 2
  = PStr "1. Budget review (from bob)".
Proof. vm_compute. reflexivity. Qed.

(** ** An email that was stored is found *)

Import EmailStorage.

Lemma starts_with_app (p s : string) : starts_with p (p +:+ s) = true.
Proof.
  induction p as [|a p IH]; [done|].
  change (String a p +:+ s) with (String a (p +:+ s)). simpl.
  by rewrite Ascii.eqb_refl.
Qed.

Lemma rev_app_app (s1 s2 acc : string) :
  String.rev_app (s1 +:+ s2) acc = String.rev_app s2 (String.rev_app s1 acc).
Proof.
  revert acc. induction s1 as [|a s1 IH]; intros acc; [done|].
  change (String a s1 +:+ s2) with (String a (s1 +:+ s2)). simpl. apply IH.
Qed.

Lemma append_assoc (a b c : string) : (a +:+ b) +:+ c = a +:+ b +:+ c.
Proof.
  induction a as [|x a IH]; [done|].
  change ((String x a +:+ b) +:+ c) with (String x ((a +:+ b) +:+ c)).
  change (String x a +:+ b +:+ c) with (String x (a +:+ b +:+ c)).
  by rewrite IH.
Qed.

Lemma rev_app_acc (s acc : string) :
  String.rev_app s acc = String.rev_app s EmptyString +:+ acc.
Proof.
  revert acc. induction s as [|a s IH]; intros acc; [done|]. simpl.
  rewrite (IH (String a acc)), (IH (String a EmptyString)).
  by rewrite append_assoc.
Qed.

Lemma ends_with_app (s suffix : string) : ends_with suffix (s +:+ suffix) = true.
Proof.
  unfold ends_with, String.rev. rewrite rev_app_app, (rev_app_acc suffix (String.rev_app s EmptyString)).
  apply starts_with_app.
Qed.

Lemma hex_name_not_hidden (a : ascii) (s : string) :
  Sha256.is_hex_digit a = true -> starts_with "." (String a s) = false.
Proof.
  intros H. destruct a as [[] [] [] [] [] [] [] []]; vm_compute in H |- *; congruence.
Qed.

Lemma length_omap_le {A B : Type} (f : A -> option B) (l : list A) :
  (length (omap f l) <= length l)%nat.
Proof.
  induction l as [|x l IH]; [done|].
  change (omap f (x :: l))
    with (match f x with Some y => y :: omap f l | None => omap f l end).
  destruct (f x); simpl; lia.
Qed.

Lemma searchable_text_stored (email_data : email) (email_id : string) :
  searchable_text (<["email_id" := PStr email_id]> email_data) = searchable_text email_data.
Proof.
  unfold searchable_text, get_field. by rewrite !lookup_insert_ne by done.
Qed.

(** X9: storing and searching fit together.  In a local store without
    vector index, an email that was not there and has just been stored is
    among the results of the text search for every query one of whose words
    occurs in it, when [top_k] exceeds the number of files: the result
    carries the email's identifier, author and subject, and a score of at
    least one. *)
Theorem stored_email_is_found (similarity_search_with_score : similarity_search)
    (self : storage) (o : io) (email_data : email) (query word : string) (top_k : Z) :
  storage_type self = "local" ->
  str_truthy (default EmptyString (blob_storage_path self)) = true ->
  vector_store self = None ->
  file_write_raises o = false ->
  local_files self !! file_name (email_id_of email_data) = None ->
  word ∈ split (lower query) ->
  contains word (lower (searchable_text email_data)) = true ->
  Z.of_nat (size (local_files self)) < top_k ->
  exists r,
    r ∈ search similarity_search_with_score (store_email self o email_data).1
               query top_k
    /\ email_id r = PStr (email_id_of email_data)
    /\ author r = get_field email_data "author"
    /\ subject r = get_field email_data "subject"
    /\ (1 <= score r)%Q.
Proof.
  intros Hlocal Hpath Hvec Hwrite Hnew Hword Hcont Hk.
  destruct (email_id_shape email_data) as [Hlen Hhex].
  remember (email_id_of email_data) as id eqn:Hid.
  set (files' := <[file_name id := stored_json email_data id]> (local_files self)).
  assert (store_email self o email_data
          = ({| storage_type := storage_type self;
                blob_storage_path := blob_storage_path self;
                local_files := files';
                blob_service := blob_service self;
                vector_store := vector_store self |}, Some id)) as Hstore.
  { unfold store_email, already_stored. rewrite <- Hid, Hlocal. simpl.
    rewrite Hnew. rewrite bool_decide_eq_false_2 by (by intros [? ?]).
    unfold store_vector, store_file. rewrite Hlocal, Hwrite. simpl. by rewrite Hvec. }
  rewrite Hstore. unfold search. simpl. rewrite Hvec.
  unfold _text_search. simpl. rewrite Hlocal, Hpath. simpl.
  set (qw := split (lower query)) in *.
  (* the stored file is listed *)
  assert (stored_json email_data id ∈ glob_json files') as Hglob.
  { unfold glob_json. apply list_elem_of_omap.
    exists (file_name id, stored_json email_data id). split.
    - apply elem_of_map_to_list. apply lookup_insert_eq.
    - cbn [fst snd]. unfold file_name. rewrite ends_with_app.
      destruct id as [|a id']; [discriminate|].
      change (String a id' +:+ ".json") with (String a (id' +:+ ".json")).
      simpl in Hhex. inversion Hhex as [|? ? Ha _].
      by rewrite (hex_name_not_hidden a (id' +:+ ".json") Ha). }
  (* it matches *)
  assert (0 < match_score qw (lower (searchable_text email_data))) as Hscore.
  { unfold match_score.
    assert (word ∈ filter (fun w => contains w (lower (searchable_text email_data)) = true) qw)
      as Hin by (by apply list_elem_of_filter).
    destruct (filter _ qw); [by inversion Hin|]. simpl. lia. }
  set (r := {| score := inject_Z (match_score qw (lower (searchable_text email_data)));
               content := str_upto 500 (searchable_text email_data);
               snippet := snippet_of (searchable_text email_data);
               author := get_field email_data "author";
               subject := get_field email_data "subject";
               email_id := PStr id |}).
  assert (text_match qw (stored_json email_data id) = Some r) as Hmatch.
  { unfold text_match, stored_json. cbn zeta. rewrite searchable_text_stored.
    apply Z.ltb_lt in Hscore. rewrite Hscore. subst r. f_equal.
    unfold get_field. rewrite !lookup_insert_ne by done. by rewrite lookup_insert_eq. }
  exists r. split; [|split; [done|split; [done|split; [done|]]]].
  - unfold slice_upto. replace (0 <=? top_k) with true by (symmetry; apply Z.leb_le; lia).
    rewrite take_ge.
    + rewrite sort_desc_perm. apply list_elem_of_omap. by exists (stored_json email_data id).
    + rewrite sort_desc_perm.
      etrans; [apply length_omap_le|]. unfold glob_json.
      etrans; [apply length_omap_le|]. rewrite length_map_to_list.
      subst files'. rewrite map_size_insert, Hnew. simpl. lia.
  - subst r. simpl. unfold Qle. simpl. lia.
Qed.


Lemma stored_email_is_found_witness :
  exists r,
    r ∈ search Examples.no_vector_search
          (store_email Examples.empty_store io_ok Examples.alice_mail).1 "hello" 5
    /\ email_id r = PStr (email_id_of Examples.alice_mail)
    /\ author r = get_field Examples.alice_mail "author"
    /\ subject r = get_field Examples.alice_mail "subject"
    /\ (1 <= score r)%Q.
Proof.
  apply (stored_email_is_found Examples.no_vector_search Examples.empty_store io_ok
           Examples.alice_mail "hello" "hello" 5).
  - reflexivity.
  - reflexivity.
  - reflexivity.
  - reflexivity.
  - apply lookup_empty.
  - vm_compute. left.
  - vm_compute. reflexivity.
  - vm_compute. reflexivity.
Defined.

(** ** Date ranges *)

Import DateRange.

Lemma starts_with_spec (p s : string) :
  starts_with p s = true <-> exists post, s = p +:+ post.
Proof.
  revert s. induction p as [|a p IH]; intros s.
  - split; [by exists s|done].
  - destruct s as [|b s].
    + split; [done|]. by intros [post ?].
    + change (starts_with (String a p) (String b s))
        with (if Ascii.eqb a b then starts_with p s else false).
      destruct (Ascii.eqb a b) eqn:Hab.
      * apply Ascii.eqb_eq in Hab as <-. rewrite IH. split.
        -- intros [post ->]. by exists post.
        -- intros [post H]. exists post.
           change (String a p +:+ post) with (String a (p +:+ post)) in H.
           by injection H.
      * split; [done|]. intros [post H].
        change (String a p +:+ post) with (String a (p +:+ post)) in H.
        injection H as -> _. by rewrite Ascii.eqb_refl in Hab.
Qed.

Lemma contains_spec (word text : string) :
  contains word text = true <-> exists pre post, text = pre +:+ word +:+ post.
Proof.
  induction text as [|c text IH].
  - change (contains word EmptyString) with (starts_with word EmptyString || false).
    rewrite orb_false_r, starts_with_spec. split.
    + intros [post H]. by exists EmptyString, post.
    + intros (pre & post & H). destruct pre; [by exists post|discriminate].
  - change (contains word (String c text))
      with (starts_with word (String c text) || contains word text).
    rewrite orb_true_iff, IH, starts_with_spec. split.
    + intros [[post H]|(pre & post & H)].
      * by exists EmptyString, post.
      * exists (String c pre), post. by rewrite H.
    + intros (pre & post & H). destruct pre as [|c' pre].
      * left. by exists post.
      * right. exists pre, post.
        change (String c' pre +:+ word +:+ post) with (String c' (pre +:+ word +:+ post)) in H.
        by injection H.
Qed.

Lemma contains_trans (a b text : string) :
  contains a b = true -> contains b text = true -> contains a text = true.
Proof.
  rewrite !contains_spec. intros (p1 & q1 & ->) (p2 & q2 & ->).
  exists (p2 +:+ p1), (q1 +:+ q2). by rewrite !append_assoc.
Qed.

(** X10: a query that speaks of "next week" (and not of today or
    tomorrow) gets the range of the current week: the test for "week" in
    the branch before catches it, so the branch for "next week" is never
    taken.  The range starts on the Monday on or before today, and the hint
    handed to the calendar specialist is the one for "this week". *)
Theorem next_week_query_gets_this_week (today : date) (query : string) :
  contains "next week" (lower query) = true ->
  contains "today" (lower query) = false ->
  contains "tomorrow" (lower query) = false ->
  date_range today query = (today - weekday today, today - weekday today + 7)
  /\ (date_range today query).1 <= today
  /\ get_date_range_for_query today query = get_date_range_for_query today "this week"
  /\ date_hint today query = date_hint today "this week".
Proof.
  intros Hnext Htoday Htomorrow.
  assert (contains "week" (lower query) = true) as Hweek.
  { by apply (contains_trans "week" "next week"). }
  assert (date_range today query = (today - weekday today, today - weekday today + 7))
    as Hrange.
  { unfold date_range. by rewrite Htoday, Htomorrow, Hweek, orb_true_r. }
  assert (get_date_range_for_query today query
          = get_date_range_for_query today "this week") as Hsame.
  { unfold get_date_range_for_query. by rewrite Hrange. }
  split; [done|]. split; [|split; [done|]].
  - rewrite Hrange. simpl. unfold weekday.
    pose proof (Z.mod_pos_bound (today + 6) 7). lia.
  - unfold date_hint. rewrite Hsame.
    assert (existsb (fun kw => contains kw (lower query)) date_keywords = true) as ->.
    { apply existsb_exists. exists "week". split; [|done]. simpl. tauto. }
    done.
Qed.

Lemma next_week_query_gets_this_week_witness :
  date_range 739588 "What meetings do I have next week?" = (739586, 739593).
Proof.
  apply (next_week_query_gets_this_week 739588 "What meetings do I have next week?");
    vm_compute; reflexivity.
Defined.

(** On Wednesday 2025-12-03 the range for "next week" starts on Monday
    2025-12-01. *)
Example date_range_of_a_next_week_query :
  get_date_range_for_query 739588 "What meetings do I have next week?"
  = ("2025-12-01T00:00:00", "2025-12-08T23:59:59").
Proof. vm_compute. reflexivity. Qed.

(** X11: for a query that speaks of a week (and not of today or tomorrow),
    the range starts on a Monday, holds today and ends seven days after its
    start. *)
Theorem week_range_starts_on_monday (today : date) (query : string) :
  contains "week" (lower query) = true ->
  contains "today" (lower query) = false ->
  contains "tomorrow" (lower query) = false ->
  let (start, end_) := date_range today query in
  weekday start = 0 /\ start <= today < end_ /\ end_ = start + 7.
Proof.
  intros Hweek Htoday Htomorrow.
  unfold date_range. rewrite Htoday, Htomorrow, Hweek, orb_true_r.
  unfold weekday.
  pose proof (Z.mod_pos_bound (today + 6) 7 ltac:(lia)) as Hb.
  split; [|lia].
  replace (today - (today + 6) mod 7 + 6) with (7 * ((today + 6) / 7))
    by (pose proof (Z.div_mod (today + 6) 7 ltac:(lia)); lia).
  rewrite Z.mul_comm. apply Z.mod_mul. lia.
Qed.

Lemma week_range_starts_on_monday_witness :
  weekday 739586 = 0 /\ 739586 <= 739588 < 739593 /\ 739593 = 739586 + 7.
Proof.
  apply (week_range_starts_on_monday 739588 "my meetings this week"); vm_compute; reflexivity.
Defined.

(** ** The thread store and the runs of the REST layer *)

Import Threads.

Lemma update_thread_spec (srv : Api.server) (id : string) (f : Api.thread -> Api.thread)
    (t : Api.thread) :
  Api.threads srv !! id = Some t ->
  exists srv' t',
    Api.update_thread srv id f = Ok srv'
    /\ Api.threads srv' !! id = Some t'
    /\ Api.status t' = Api.status (f t)
    /\ Api.question t' = Api.question (f t)
    /\ Api.checkpoints srv' = Api.checkpoints srv.
Proof.
  intros Ht. unfold Api.update_thread. rewrite Ht.
  eexists _, _. split; [reflexivity|]. simpl. rewrite lookup_insert_eq. done.
Qed.

Lemma updated_spec (srv : Api.server) (id : string) (f : Api.thread -> Api.thread)
    (t : Api.thread) :
  Api.threads srv !! id = Some t ->
  exists t',
    Api.threads (Api.updated srv id f) !! id = Some t'
    /\ Api.status t' = Api.status (f t)
    /\ Api.question t' = Api.question (f t).
Proof.
  intros Ht. unfold Api.updated.
  destruct (update_thread_spec srv id f t Ht) as (srv' & t' & -> & H1 & H2 & H3 & _).
  by exists t'.
Qed.

(** The thread brought up to date after the graph has stopped: the three
    ways in which the handlers end. *)
Lemma outcome_recorded (srv : Api.server) (id s : string)
    (i : option HumanInterrupt) (st : State) (t : Api.thread) :
  Api.threads srv !! id = Some t ->
  exists srv' t',
    Api.update_thread srv id (Api.set_outcome s i st) = Ok srv'
    /\ Api.threads srv' !! id = Some t'
    /\ Api.status t' = s /\ Api.question t' = Api.question t.
Proof.
  intros Ht.
  destruct (update_thread_spec srv id (Api.set_outcome s i st) t Ht)
    as (srv' & t' & H0 & H1 & H2 & H3 & _).
  by exists srv', t'.
Qed.

Lemma error_recorded (srv : Api.server) (id : string) (t : Api.thread) :
  Api.threads srv !! id = Some t ->
  exists t',
    Api.threads (Api.updated srv id (Api.set_status "error")) !! id = Some t'
    /\ Api.status t' = "error" /\ Api.question t' = Api.question t.
Proof.
  intros Ht.
  destruct (updated_spec srv id (Api.set_status "error") t Ht) as (t' & H1 & H2 & H3).
  by exists t'.
Qed.

(** X12: a thread that was created is found again, idle, with its question
    and no messages, and the other threads are as before; once deleted it
    is not found, a second deletion answers 404 and changes nothing; and
    deleting a thread leaves the checkpoint of its conversation in place. *)
Theorem thread_store_round_trip (srv : Api.server) (id : string) (q : option string) :
  let created := create_thread srv id q in
  let deleted := (delete_thread created id).1 in
  (exists t,
      Api.get_thread created id = Some t
      /\ Api.thread_id t = id /\ Api.status t = "idle" /\ Api.question t = q
      /\ Api.messages t = [] /\ Api.interrupt t = None
      /\ Api.created_at t = Api.updated_at t)
  /\ (forall other, other <> id ->
      Api.get_thread created other = Api.get_thread srv other
      /\ Api.get_thread deleted other = Api.get_thread srv other)
  /\ delete_thread_endpoint created id = (deleted, Api.Http200 ("deleted", id))
  /\ Api.get_thread deleted id = None
  /\ delete_thread_endpoint deleted id = (deleted, not_found id)
  /\ Api.checkpoints deleted = Api.checkpoints srv.
Proof.
  intros created deleted.
  assert (delete_thread created id
          = ({| Api.threads := delete id (Api.threads created);
                Api.checkpoints := Api.checkpoints srv;
                Api.clock := Api.clock created |}, true)) as Hdel.
  { unfold delete_thread, created, create_thread. simpl. by rewrite lookup_insert_eq. }
  subst deleted. rewrite Hdel. simpl.
  split; [|split; [|split; [|split; [|split]]]].
  - eexists. unfold Api.get_thread, created, create_thread. simpl.
    rewrite lookup_insert_eq. done.
  - intros other Hne. unfold Api.get_thread, created, create_thread. simpl.
    rewrite lookup_delete_ne by done. by rewrite lookup_insert_ne by done.
  - unfold delete_thread_endpoint. by rewrite Hdel.
  - unfold Api.get_thread. simpl. apply lookup_delete_eq.
  - unfold delete_thread_endpoint, delete_thread. simpl. by rewrite lookup_delete_eq.
  - done.
Qed.

(** X13: every endpoint that takes a thread identifier answers an unknown
    identifier with status 404 and the same detail, and leaves the threads,
    the checkpoints and the clock as they are. *)
Theorem unknown_thread_is_not_found (fuel : nat) (E : env) (srv : Api.server)
    (id : string) (request : Api.ResumeRequest) :
  Api.get_thread srv id = None ->
  get_thread_detail srv id = not_found id
  /\ get_thread_state srv id = not_found id
  /\ delete_thread_endpoint srv id = (srv, not_found id)
  /\ Api.resume_thread fuel E srv id request = (srv, not_found id)
  /\ Api.resume_thread_stream srv id request = (srv, not_found id).
Proof.
  intros H.
  unfold get_thread_detail, get_thread_state, delete_thread_endpoint, delete_thread,
    Api.resume_thread, Api.resume_thread_stream.
  rewrite H. unfold Api.get_thread in H. by rewrite H.
Qed.

Lemma unknown_thread_is_not_found_witness :
  Api.resume_thread 5 Examples.mail_env Examples.suspended_server "thread_2"
                    {| Api.type := Api.accept; Api.args := None |}
  = (Examples.suspended_server, not_found "thread_2").
Proof.
  apply (unknown_thread_is_not_found 5 Examples.mail_env Examples.suspended_server
           "thread_2"). reflexivity.
Defined.

(** ** Listing the threads *)

Lemma insert_latest_perm (x : Api.thread) (l : list Api.thread) :
  insert_latest x l ≡ₚ x :: l.
Proof.
  induction l as [|y l IH]; simpl; [done|].
  destruct (String.leb _ _); [done|].
  rewrite IH. apply Permutation_swap.
Qed.

Lemma sort_latest_perm (l : list Api.thread) : sort_latest l ≡ₚ l.
Proof.
  induction l as [|x l IH]; simpl; [done|].
  unfold sort_latest in *. simpl. by rewrite insert_latest_perm, IH.
Qed.

Lemma insert_latest_head (x y : Api.thread) (l : list Api.thread) :
  String.leb (Api.updated_at x) (Api.updated_at y) = true ->
  HdRel (fun a b => String.leb (Api.updated_at b) (Api.updated_at a) = true) y l ->
  HdRel (fun a b => String.leb (Api.updated_at b) (Api.updated_at a) = true) y
        (insert_latest x l).
Proof.
  intros Hxy Hl. destruct l as [|z l]; simpl; [by constructor|].
  destruct (String.leb (Api.updated_at z) (Api.updated_at x)); constructor; [done|].
  by inversion Hl.
Qed.

Lemma insert_latest_sorted (x : Api.thread) (l : list Api.thread) :
  latest_first l -> latest_first (insert_latest x l).
Proof.
  unfold latest_first. induction l as [|y l IH]; intros Hl; simpl.
  - repeat constructor.
  - inversion Hl as [|? ? Hs Hh]; subst.
    destruct (String.leb (Api.updated_at y) (Api.updated_at x)) eqn:Hc.
    + constructor; [done|]. by constructor.
    + constructor; [by apply IH|]. apply insert_latest_head; [|done].
      destruct (String.leb_total (Api.updated_at x) (Api.updated_at y)); congruence.
Qed.

Lemma sort_latest_sorted (l : list Api.thread) : latest_first (sort_latest l).
Proof.
  induction l as [|x l IH]; [constructor|].
  unfold sort_latest in *. simpl. by apply insert_latest_sorted.
Qed.

(** X14: the listing of the threads holds stored threads only, those of the
    status asked for when one is given, ordered by the time of their last
    update, latest first, and at most [limit] of them for a limit that is
    not negative; with a limit of at least the number of threads it holds
    every stored thread of that status. *)
Theorem list_threads_latest_first (srv : Api.server) (status_filter : option string)
    (limit : Z) :
  let listed := list_threads srv status_filter limit in
  latest_first listed
  /\ Forall (fun t => exists id, Api.threads srv !! id = Some t) listed
  /\ (forall s, status_filter = Some s -> s <> EmptyString ->
      Forall (fun t => Api.status t = s) listed)
  /\ (0 <= limit -> Z.of_nat (length listed) <= limit)
  /\ (forall id t, Z.of_nat (size (Api.threads srv)) <= limit ->
      Api.threads srv !! id = Some t ->
      (forall s, status_filter = Some s -> s <> EmptyString -> Api.status t = s) ->
      t ∈ listed).
Proof.
  intros listed. subst listed. unfold list_threads.
  set (all := (map_to_list (Api.threads srv)).*2).
  set (selected := if str_truthy (default EmptyString status_filter)
                   then filter (fun t => Api.status t = default EmptyString status_filter) all
                   else all).
  assert (forall t, t ∈ all <-> exists id, Api.threads srv !! id = Some t) as Hall.
  { intros t. unfold all. rewrite list_elem_of_fmap. split.
    - intros ([id t'] & -> & Hin). exists id. by apply elem_of_map_to_list.
    - intros [id Hid]. exists (id, t). split; [done|]. by apply elem_of_map_to_list. }
  assert (forall t, t ∈ selected -> t ∈ all) as Hsel.
  { intros t. unfold selected. destruct (str_truthy _); [|done].
    rewrite list_elem_of_filter. tauto. }
  assert (forall s, s <> EmptyString -> str_truthy s = true) as Htruthy.
  { intros s Hs. unfold str_truthy. apply negb_true_iff. by apply String.eqb_neq. }
  destruct (slice_upto_take limit (sort_latest selected)) as [n Hn].
  split; [|split; [|split; [|split]]].
  - rewrite Hn. apply take_sorted, sort_latest_sorted.
  - rewrite Hn. apply Forall_take. rewrite sort_latest_perm.
    apply Forall_forall. intros t Ht. by apply Hall, Hsel.
  - intros s -> Hs. rewrite Hn. apply Forall_take. rewrite sort_latest_perm.
    apply Forall_forall. intros t. unfold selected. simpl.
    rewrite (Htruthy s Hs), list_elem_of_filter. tauto.
  - apply slice_upto_length.
  - intros id t Hsize Ht Hstatus.
    assert (t ∈ selected) as Hin.
    { unfold selected. destruct (str_truthy _) eqn:Hf.
      - apply list_elem_of_filter. split; [|apply Hall; eauto].
        destruct status_filter as [s|]; [|done]. simpl in *. apply Hstatus; [done|].
        intros ->. done.
      - apply Hall. eauto. }
    assert (length selected <= length all)%nat as Hlen.
    { unfold selected. destruct (str_truthy _); [apply length_filter|done]. }
    unfold slice_upto.
    assert (0 <= limit) as H0 by lia.
    rewrite (proj2 (Z.leb_le 0 limit) H0).
    rewrite take_ge; [by rewrite sort_latest_perm|].
    rewrite sort_latest_perm. unfold all in Hlen.
    rewrite length_fmap, length_map_to_list in Hlen. lia.
Qed.

(** ** What a run leaves of its thread *)


Lemma create_thread_lookup (srv : Api.server) (id : string) (q : option string) :
  exists t, Api.threads (create_thread srv id q) !! id = Some t /\ Api.question t = q.
Proof. eexists. unfold create_thread. simpl. rewrite lookup_insert_eq. done. Qed.

Lemma save_checkpoint_threads (srv : Api.server) (id : string) (st : State)
    (given : list pyval) :
  Api.threads (Api.save_checkpoint srv id st given) = Api.threads srv.
Proof. done. Qed.

(** X15: when [POST /runs] returns, the thread of the run exists and is
    not left busy: it is interrupted, with the request in the response,
    when the response says so, idle when the response says completed, and
    in error when the response is an error, whose status is 500.  The
    detail of the error is the text of the exception when the
    initialisation of the graph raised it, and otherwise starts with
    [500: ], the error of the run having been wrapped twice.  A thread that
    existed keeps the question it was created with. *)
Theorem create_run_settles_thread (fuel : nat) (get_graph : result env)
    (fresh_hex : string) (srv : Api.server) (request : RunRequest) :
  let id := thread_id_of_run fresh_hex request in
  let after := (create_run fuel get_graph fresh_hex srv request).1 in
  exists t,
    Api.get_thread after id = Some t
    /\ Api.question t
       = match Api.get_thread srv id with
         | Some t0 => Api.question t0
         | None => run_question request
         end
    /\ match (create_run fuel get_graph fresh_hex srv request).2 with
       | Api.Http200 r =>
           Api.resp_thread_id r = id
           /\ ((Api.resp_status r = "interrupted" /\ Api.status t = "interrupted"
                /\ is_Some (Api.resp_interrupt r))
               \/ (Api.resp_status r = "completed" /\ Api.status t = "idle"
                   /\ is_Some (Api.resp_result r)))
       | Api.HTTPException status_code detail =>
           status_code = 500 /\ Api.status t = "error"
           /\ match get_graph with
              | Raise e => detail = e
              | Ok _ => exists e, detail = "500: " +:+ e
              end
       end.
Proof.
  intros id after. subst after. unfold create_run. fold id.
  set (q := match Api.get_thread srv id with
            | Some t0 => Api.question t0
            | None => run_question request
            end).
  set (srv0 := match Api.get_thread srv id with
               | Some _ => srv
               | None => create_thread srv id (run_question request)
               end).
  assert (exists t0, Api.threads srv0 !! id = Some t0 /\ Api.question t0 = q)
    as (t0 & Ht0 & Hq0).
  { unfold srv0, q, Api.get_thread. destruct (Api.threads srv !! id) as [t0|] eqn:H.
    - by exists t0.
    - apply create_thread_lookup. }
  destruct (update_thread_spec srv0 id (Api.set_status "busy") t0 Ht0)
    as (srv1 & t1 & -> & Ht1 & _ & Hq1 & _).
  simpl in Hq1. rewrite Hq0 in Hq1.
  destruct get_graph as [E|e0].
  2: { destruct (error_recorded srv1 id t1 Ht1) as (t2 & H2 & Hs2 & Hq2).
       exists t2. simpl. split; [done|]. split; [congruence|]. done. }
  assert (forall srv' e,
            Api.threads srv' !! id = Some t1 ->
            exists t,
              Api.get_thread
                (Api.updated (Api.updated srv' id (Api.set_status "error")) id
                             (Api.set_status "error")) id = Some t
              /\ Api.question t = q
              /\ 500 = 500 /\ Api.status t = "error"
              /\ exists e', str_http_exception 500 e = "500: " +:+ e') as Hfailed.
  { intros srv' e H.
    destruct (error_recorded srv' id t1 H) as (t2 & H2 & _ & Hq2).
    destruct (error_recorded _ id t2 H2) as (t3 & H3 & Hs3 & Hq3).
    exists t3. split; [done|]. split; [congruence|]. split; [done|]. split; [done|].
    by exists e. }
  destruct (start_run fuel E _ _ _) as [st'|st' request' given|st' e|st'].
  - destruct (outcome_recorded (Api.save_checkpoint srv1 id st' []) id "idle" None
                st' t1 Ht1) as (srv3 & t3 & -> & H3 & Hs3 & Hq3).
    exists t3. simpl. split; [done|]. split; [congruence|]. split; [done|]. right. eauto.
  - destruct (outcome_recorded (Api.save_checkpoint srv1 id st' given) id "interrupted"
                (Some request') st' t1 Ht1) as (srv3 & t3 & -> & H3 & Hs3 & Hq3).
    exists t3. simpl. split; [done|]. split; [congruence|]. split; [done|]. left. eauto.
  - by apply Hfailed.
  - by apply Hfailed.
Qed.

(** X16: the handler that resumes an interrupted thread settles it in the
    same way: on return the thread is interrupted again, idle or in error,
    as the response says, and never busy. *)
Theorem resume_thread_settles_thread (fuel : nat) (E : env) (srv : Api.server)
    (id : string) (request : Api.ResumeRequest) (t0 : Api.thread) :
  Api.get_thread srv id = Some t0 ->
  Api.status t0 = "interrupted" ->
  exists t,
    Api.get_thread (Api.resume_thread fuel E srv id request).1 id = Some t
    /\ Api.question t = Api.question t0
    /\ match (Api.resume_thread fuel E srv id request).2 with
       | Api.Http200 r =>
           Api.resp_thread_id r = id
           /\ ((Api.resp_status r = "interrupted" /\ Api.status t = "interrupted"
                /\ is_Some (Api.resp_interrupt r))
               \/ (Api.resp_status r = "completed" /\ Api.status t = "idle"
                   /\ is_Some (Api.resp_result r)))
       | Api.HTTPException status_code detail =>
           status_code = 500 /\ Api.status t = "error"
       end.
Proof.
  intros Ht0 Hs0. unfold Api.resume_thread. rewrite Ht0, Hs0. simpl.
  unfold Api.get_thread in Ht0.
  destruct (update_thread_spec srv id (Api.set_status "busy") t0 Ht0)
    as (srv1 & t1 & -> & Ht1 & _ & Hq1 & _).
  simpl in Hq1. unfold Api.resume_graph.
  assert (forall srv' (e : string),
            Api.threads srv' !! id = Some t1 ->
            exists t,
              Api.get_thread (Api.updated srv' id (Api.set_status "error")) id = Some t
              /\ Api.question t = Api.question t0
              /\ 500 = 500 /\ Api.status t = "error") as Hfailed.
  { intros srv' e H.
    destruct (error_recorded srv' id t1 H) as (t2 & H2 & Hs2 & Hq2).
    exists t2. split; [done|]. split; [congruence|]. done. }
  destruct (Api.checkpoints srv1 !! id) as [cp|]; [|by apply Hfailed].
  destruct (resume_run fuel E _ _ _) as [st'|st' request' given|st' e|st'].
  - destruct (outcome_recorded (Api.save_checkpoint srv1 id st' []) id "idle" None st' t1 Ht1)
      as (srv3 & t3 & -> & H3 & Hs3 & Hq3).
    exists t3. simpl. split; [done|]. split; [congruence|]. split; [done|]. right. eauto.
  - destruct (outcome_recorded (Api.save_checkpoint srv1 id st' given) id "interrupted"
                (Some request') st' t1 Ht1) as (srv3 & t3 & -> & H3 & Hs3 & Hq3).
    exists t3. simpl. split; [done|]. split; [congruence|]. split; [done|]. left. eauto.
  - by apply Hfailed.
  - by apply Hfailed.
Qed.


Lemma resume_thread_settles_thread_witness :
  exists t,
    Api.get_thread
      (Api.resume_thread 5 Examples.mail_env Examples.suspended_server "thread_1"
                         {| Api.type := Api.accept; Api.args := None |}).1 "thread_1"
    = Some t
    /\ Api.question t = Api.question Examples.suspended_thread
    /\ match (Api.resume_thread 5 Examples.mail_env Examples.suspended_server "thread_1"
                                {| Api.type := Api.accept; Api.args := None |}).2 with
       | Api.Http200 r =>
           Api.resp_thread_id r = "thread_1"
           /\ ((Api.resp_status r = "interrupted" /\ Api.status t = "interrupted"
                /\ is_Some (Api.resp_interrupt r))
               \/ (Api.resp_status r = "completed" /\ Api.status t = "idle"
                   /\ is_Some (Api.resp_result r)))
       | Api.HTTPException status_code detail =>
           status_code = 500 /\ Api.status t = "error"
       end.
Proof.
  apply (resume_thread_settles_thread 5 Examples.mail_env Examples.suspended_server
           "thread_1" {| Api.type := Api.accept; Api.args := None |}
           Examples.suspended_thread); vm_compute; reflexivity.
Defined.

(** ** The answer of a streamed run *)

Lemma final_answer_truthy (messages : list Api.message_view) (a : pyval) :
  final_answer messages = Ok a -> truthy a = true.
Proof.
  intros H. unfold final_answer in H.
  apply bind_ok in H as (found & _ & H). injection H as <-.
  destruct (truthy found) eqn:Hf.
  - by rewrite Hf.
  - destruct (List.find _ (rev messages)) as [msg|] eqn:Hfind.
    + apply find_some in Hfind as [_ Hc]. simpl.
      unfold str_truthy in Hc. by rewrite Hc.
    + by rewrite Hf.
Qed.

(** X17: the answer of the [done] event of a streamed run is never empty.
    It is the answer of the first [Done] call of the last message when
    that answer is truthy; in a log without tool calls it is the content of
    the last message that has one; and when nothing is found it is the text
    [Task completed.]. *)
Theorem final_answer_is_never_empty (messages : list Api.message_view) :
  (forall a, final_answer messages = Ok a -> truthy a = true)
  /\ (forall before c tc tcs name answer,
      messages = before ++ [ {| Api.view_type := "AIMessage"; Api.view_content := c;
                                Api.view_tool_calls := tc :: tcs;
                                Api.view_name := name |} ] ->
      first_done_answer (tc :: tcs) PNone = Ok answer ->
      truthy answer = true ->
      final_answer messages = Ok answer)
  /\ (Forall (fun msg => Api.view_tool_calls msg = []) messages ->
      final_answer messages
      = Ok match List.find (fun msg => str_truthy (Api.view_content msg))
                             (rev messages) with
           | Some msg => PStr (Api.view_content msg)
           | None => PStr "Task completed."
           end).
Proof.
  split; [|split].
  - apply final_answer_truthy.
  - intros before c tc tcs name answer -> Hdone Ht.
    unfold final_answer. rewrite rev_app_distr.
    cbn [rev app done_answer_from Api.view_type Api.view_tool_calls].
    rewrite String.eqb_refl. cbn [andb].
    rewrite Hdone, bind_ret_l, Ht, bind_ret_l, Ht. cbv iota. by rewrite Ht.
  - intros Hno. unfold final_answer.
    assert (forall l fa, Forall (fun msg => Api.view_tool_calls msg = []) l ->
                         truthy fa = false -> done_answer_from l fa = Ok fa) as Hloop.
    { induction l as [|msg l IH]; intros fa Hl Hfa; [done|].
      inversion Hl as [|? ? Hm Hl']; subst. simpl. rewrite Hm, andb_false_r, bind_ret_l, Hfa.
      by apply IH. }
    rewrite Hloop; [|by apply Forall_rev|done]. rewrite bind_ret_l. simpl.
    destruct (List.find _ (rev messages)) as [msg|] eqn:Hfind; [|done].
    apply find_some in Hfind as [_ Hc]. simpl. unfold str_truthy in Hc. by rewrite Hc.
Qed.

(** X18: the end of a streamed run settles the thread as the other
    handlers do: on the last event the thread is interrupted, idle or in
    error, as the event says, never busy, and the answer of a [done] event
    is truthy. *)
Theorem streamed_run_settles_thread (srv : Api.server) (id : string)
    (outcome : run_status) (t0 : Api.thread) :
  Api.get_thread srv id = Some t0 ->
  exists t,
    Api.get_thread (finish_stream srv id outcome).1 id = Some t
    /\ Api.question t = Api.question t0
    /\ match (finish_stream srv id outcome).2 with
       | InterruptEvent thread_id request =>
           thread_id = id /\ Api.status t = "interrupted" /\ is_Some request
       | DoneEvent thread_id answer messages =>
           thread_id = id /\ Api.status t = "idle" /\ truthy answer = true
       | ErrorEvent thread_id error => thread_id = id /\ Api.status t = "error"
       end.
Proof.
  intros Ht0. unfold Api.get_thread in Ht0. unfold finish_stream.
  assert (forall srv' (e : string),
            Api.threads srv' !! id = Some t0 ->
            exists t,
              Api.get_thread (Api.updated srv' id (Api.set_status "error")) id = Some t
              /\ Api.question t = Api.question t0
              /\ id = id /\ Api.status t = "error") as Hfailed.
  { intros srv' e H.
    destruct (error_recorded srv' id t0 H) as (t2 & H2 & Hs2 & Hq2). by exists t2. }
  destruct outcome as [st'|st' request' given|st' e|st'].
  - destruct (final_answer (Api._extract_messages st')) as [answer|e] eqn:Hfa;
      [|by apply Hfailed].
    destruct (outcome_recorded (Api.save_checkpoint srv id st' []) id "idle" None st' t0 Ht0)
      as (srv3 & t3 & -> & H3 & Hs3 & Hq3).
    exists t3. simpl. split; [done|]. split; [done|]. split; [done|]. split; [done|].
    by apply (final_answer_truthy (Api._extract_messages st')).
  - destruct (outcome_recorded (Api.save_checkpoint srv id st' given) id "interrupted"
                (Some request') st' t0 Ht0) as (srv3 & t3 & -> & H3 & Hs3 & Hq3).
    exists t3. simpl. eauto 10.
  - by apply Hfailed.
  - by apply Hfailed.
Qed.


Lemma streamed_run_settles_thread_witness :
  exists t,
    Api.get_thread
      (finish_stream Examples.suspended_server "thread_1"
                     (Concluded Examples.awaiting_mail)).1 "thread_1" = Some t
    /\ Api.question t = Api.question Examples.suspended_thread
    /\ match (finish_stream Examples.suspended_server "thread_1"
                            (Concluded Examples.awaiting_mail)).2 with
       | InterruptEvent thread_id request =>
           thread_id = "thread_1" /\ Api.status t = "interrupted" /\ is_Some request
       | DoneEvent thread_id answer messages =>
           thread_id = "thread_1" /\ Api.status t = "idle" /\ truthy answer = true
       | ErrorEvent thread_id error => thread_id = "thread_1" /\ Api.status t = "error"
       end.
Proof.
  apply (streamed_run_settles_thread Examples.suspended_server "thread_1"
           (Concluded Examples.awaiting_mail) Examples.suspended_thread).
  vm_compute. reflexivity.
Defined.

(** ** Bulk import *)

Import BulkImport.

Lemma plan_batch_length (self : storage) (env : import_env) (start : nat)
    (batch : list email) (plan : list planned) :
  plan_batch self env start batch = Ok plan -> length plan = length batch.
Proof.
  revert start plan. induction batch as [|e batch IH]; intros start plan H; simpl in H.
  - by injection H as <-.
  - apply bind_ok in H as (p & _ & H). apply bind_ok in H as (ps & Hps & H).
    injection H as <-. simpl. by rewrite (IH _ _ Hps).
Qed.

Lemma count_cons {A : Type} (f : A -> bool) (x : A) (l : list A) :
  count f (x :: l) = (if f x then 1 else 0) + count f l.
Proof.
  unfold count. rewrite filter_cons.
  destruct (f x); destruct (decide _); try done; simpl length; lia.
Qed.

(** Every planned email is of exactly one of the three kinds. *)
Lemma count_kinds (plan : list planned) :
  count is_skip plan + count is_file_only plan + count is_new plan
  = Z.of_nat (length plan).
Proof.
  induction plan as [|p plan IH]; [done|].
  rewrite !count_cons. unfold is_skip at 1, is_file_only at 1, is_new at 1.
  destruct (todo p); simpl length; lia.
Qed.

Lemma count_nonneg {A : Type} (f : A -> bool) (l : list A) : 0 <= count f l.
Proof. unfold count. lia. Qed.

Lemma store_file_backends (self : storage) (o : io) (e : email) (id : string) :
  storage_type (store_file self o e id) = storage_type self
  /\ vector_store (store_file self o e id) = vector_store self.
Proof.
  unfold store_file. destruct (String.eqb _ _).
  - by destruct (file_write_raises o).
  - destruct (blob_service self); [|done]. by destruct (_ || _).
Qed.

Lemma store_files_backends (self : storage) (env : import_env) (plan : list planned) :
  storage_type (store_files self env plan) = storage_type self
  /\ vector_store (store_files self env plan) = vector_store self.
Proof.
  unfold store_files. revert self. induction plan as [|p plan IH]; intros self; [done|].
  simpl. destruct (needs_file p); [|apply IH].
  destruct (IH (store_file self (email_io env (position p)) (email_data p) (planned_id p)))
    as [-> ->].
  apply store_file_backends.
Qed.

(** One batch accounts for each of its emails once. *)
Lemma import_batch_counts (self self' : storage) (env : import_env) (start : nat)
    (batch : list email) (st st' : stats) :
  import_batch self env start batch st = Ok (self', st') ->
  counted st' = counted st + Z.of_nat (length batch)
  /\ stored st <= stored st' /\ skipped st <= skipped st' /\ failed st <= failed st'
  /\ storage_type self' = storage_type self
  /\ (vector_store self = None -> vector_store self' = None).
Proof.
  intros H. unfold import_batch in H. apply bind_ok in H as (plan & Hplan & H).
  rewrite <- (plan_batch_length _ _ _ _ _ Hplan), <- count_kinds.
  pose proof (count_nonneg is_skip plan). pose proof (count_nonneg is_file_only plan).
  pose proof (count_nonneg is_new plan).
  destruct (store_files_backends self env plan) as [Htype Hvec].
  assert (filter (fun p => is_new p = true) plan = [] -> count is_new plan = 0) as Hnone.
  { unfold count. by intros ->. }
  destruct (filter (fun p => is_new p = true) plan) as [|p new_emails].
  - injection H as <- <-. unfold counted. simpl. rewrite Hnone by done.
    repeat split; try lia; [done|]. intros Hv. by rewrite Hvec.
  - destruct (vector_store (store_files self env plan)) as [docs|] eqn:Hv.
    + destruct (batch_index_raises env start); injection H as <- <-;
        unfold counted; simpl; repeat split; try lia; try done;
        intros Hn; rewrite Hvec in Hv; congruence.
    + injection H as <- <-. unfold counted. simpl. repeat split; try lia; done.
Qed.

Lemma import_batches_counts (fuel n : nat) (self self' : storage) (env : import_env)
    (start : nat) (rest : list email) (st st' : stats) :
  (0 < n)%nat -> (length rest <= fuel)%nat ->
  import_batches fuel n self env start rest st = Ok (self', st') ->
  counted st' = counted st + Z.of_nat (length rest)
  /\ stored st <= stored st' /\ skipped st <= skipped st' /\ failed st <= failed st'.
Proof.
  intros Hn. revert self start rest st.
  induction fuel as [|fuel IH]; intros self start rest st Hlen H.
  - destruct rest; [|simpl in Hlen; lia]. simpl in H. injection H as <- <-.
    simpl. lia.
  - destruct rest as [|e rest]; [simpl in H; injection H as <- <-; simpl; lia|].
    cbn [import_batches] in H. apply bind_ok in H as ([self1 st1] & H1 & H).
    apply import_batch_counts in H1 as (Hc & Hs & Hk & Hf & _).
    apply IH in H as (Hc' & Hs' & Hk' & Hf').
    + rewrite length_take in Hc. rewrite length_drop in Hc'.
      simpl in *. split; [|lia]. rewrite Hc', Hc. lia.
    + rewrite length_drop. simpl in *. lia.
Qed.

Lemma plan_batch_ok (self : storage) (env : import_env) (start : nat) (batch : list email) :
  storage_type self = "local" \/ vector_store self = None ->
  exists plan, plan_batch self env start batch = Ok plan.
Proof.
  intros Hmode. revert start. induction batch as [|e batch IH]; intros start; simpl.
  - by eexists.
  - destruct (IH (S start)) as [ps ->].
    assert (exists v, vector_exists self env start (email_id_of e) = Ok v) as [v Hv].
    { unfold vector_exists. destruct (vector_store self) as [docs|] eqn:Hvs; [|by eexists].
      destruct Hmode as [-> | ?]; [|congruence]. simpl.
      destruct (index_query_raises env start); by eexists. }
    unfold plan_email. rewrite Hv, !bind_ret_l. by eexists.
Qed.

Lemma import_batch_ok (self : storage) (env : import_env) (start : nat)
    (batch : list email) (st : stats) :
  storage_type self = "local" \/ vector_store self = None ->
  exists r, import_batch self env start batch st = Ok r.
Proof.
  intros Hmode. unfold import_batch.
  destruct (plan_batch_ok self env start batch Hmode) as [plan ->].
  rewrite bind_ret_l. destruct (filter _ plan); [by eexists|].
  destruct (vector_store (store_files self env plan)); [|by eexists].
  destruct (batch_index_raises env start); by eexists.
Qed.

Lemma import_batches_ok (fuel n : nat) (self : storage) (env : import_env)
    (start : nat) (rest : list email) (st : stats) :
  storage_type self = "local" \/ vector_store self = None ->
  exists r, import_batches fuel n self env start rest st = Ok r.
Proof.
  revert self start rest st.
  induction fuel as [|fuel IH]; intros self start rest st Hmode.
  - destruct rest; by eexists.
  - destruct rest as [|e rest]; [by eexists|].
    cbn [import_batches].
    destruct (import_batch_ok self env start (take n (e :: rest)) st Hmode)
      as [[self1 st1] H1].
    rewrite H1, bind_ret_l. apply IH.
    apply import_batch_counts in H1 as (_ & _ & _ & _ & Htype & Hvec).
    destruct Hmode as [Hl|Hv]; [left; simpl; congruence|right; simpl; auto].
Qed.

(** X19: in a local store, and in any store without vector index, the
    bulk import with a positive batch size returns, and its three counts
    are not negative and add up to the number of emails handed in: every
    email is accounted for once, in whatever batches the list is cut. *)
Theorem bulk_import_accounts_for_every_email (self : storage) (env : import_env)
    (email_list : list email) (batch_size : Z) :
  0 < batch_size ->
  storage_type self = "local" \/ vector_store self = None ->
  exists self' st,
    bulk_import_emails self env email_list batch_size = Ok (self', st)
    /\ stored st + skipped st + failed st = Z.of_nat (length email_list)
    /\ 0 <= stored st /\ 0 <= skipped st /\ 0 <= failed st.
Proof.
  intros Hb Hmode. unfold bulk_import_emails.
  rewrite (proj2 (Z.eqb_neq batch_size 0)) by lia.
  rewrite (proj2 (Z.ltb_ge batch_size 0)) by lia.
  destruct (import_batches_ok (length email_list) (Z.to_nat batch_size) self env 0
              email_list no_stats Hmode) as [[self' st] H].
  exists self', st. split; [done|].
  apply import_batches_counts in H as (Hc & Hs & Hk & Hf); [|lia|lia].
  unfold counted in Hc. simpl in *. lia.
Qed.

Lemma bulk_import_accounts_for_every_email_witness :
  exists self' st,
    bulk_import_emails Examples.empty_store
      {| email_io := fun _ => io_ok; index_query_raises := fun _ => false;
         batch_index_raises := fun _ => false |}
      [Examples.alice_mail; Examples.alice_mail; Examples.alice_mail] 2
    = Ok (self', st)
    /\ stored st + skipped st + failed st = 3
    /\ 0 <= stored st /\ 0 <= skipped st /\ 0 <= failed st.
Proof.
  apply (bulk_import_accounts_for_every_email Examples.empty_store
           {| email_io := fun _ => io_ok; index_query_raises := fun _ => false;
              batch_index_raises := fun _ => false |}
           [Examples.alice_mail; Examples.alice_mail; Examples.alice_mail] 2).
  - lia.
  - by left.
Defined.


Lemma plan_batch_without_index (self : storage) (env : import_env) (start : nat)
    (batch : list email) (plan : list planned) :
  vector_store self = None ->
  plan_batch self env start batch = Ok plan ->
  Forall (fun p => is_new p = true /\ is_skip p = false /\ is_file_only p = false) plan.
Proof.
  intros Hv. revert start plan.
  induction batch as [|e batch IH]; intros start plan H; simpl in H.
  - injection H as <-. constructor.
  - apply bind_ok in H as (p & Hp & H). apply bind_ok in H as (ps & Hps & H).
    injection H as <-. constructor; [|by eapply IH].
    unfold plan_email, vector_exists in Hp. rewrite Hv, bind_ret_l in Hp.
    injection Hp as <-. unfold is_new, is_skip, is_file_only, bulk_import_action. simpl.
    by destruct (already_stored _ _ _).
Qed.

Lemma count_all {A : Type} (f g : A -> bool) (l : list A) :
  Forall (fun x => f x = true /\ g x = false) l ->
  count f l = Z.of_nat (length l) /\ count g l = 0.
Proof.
  induction l as [|x l IH]; intros H; [done|].
  inversion H as [|? ? [Hf Hg] Hl]; subst. destruct (IH Hl) as [IHf IHg].
  rewrite !count_cons, Hf, Hg, IHf, IHg. simpl length. lia.
Qed.

Lemma import_batch_without_index (self self' : storage) (env : import_env) (start : nat)
    (batch : list email) (st st' : stats) :
  vector_store self = None ->
  import_batch self env start batch st = Ok (self', st') ->
  stored st' = stored st + Z.of_nat (length batch)
  /\ skipped st' = skipped st /\ failed st' = failed st
  /\ vector_store self' = None.
Proof.
  intros Hv H. pose proof H as H'.
  apply import_batch_counts in H' as (_ & _ & _ & _ & _ & Hv').
  unfold import_batch in H. apply bind_ok in H as (plan & Hplan & H).
  pose proof (plan_batch_without_index _ _ _ _ _ Hv Hplan) as Hall.
  rewrite <- (plan_batch_length _ _ _ _ _ Hplan).
  destruct (count_all is_new is_skip plan) as [Hn Hs].
  { eapply Forall_impl; [exact Hall|]. simpl. tauto. }
  destruct (count_all is_new is_file_only plan) as [_ Hf].
  { eapply Forall_impl; [exact Hall|]. simpl. tauto. }
  destruct (store_files_backends self env plan) as [_ Hvs].
  rewrite Hvs, Hv in H.
  assert (filter (fun p => is_new p = true) plan = [] -> length plan = 0%nat) as Hnone.
  { intros Hfil. unfold count in Hn. rewrite Hfil in Hn. simpl in Hn. lia. }
  destruct (filter (fun p => is_new p = true) plan) as [|p new_emails].
  - rewrite Hnone by done. injection H as <- <-. simpl. split; [lia|].
    split; [lia|]. split; [done|]. by apply Hv'.
  - injection H as <- <-. simpl. split; [lia|]. split; [lia|]. split; [done|].
    by apply Hv'.
Qed.

Lemma import_batches_without_index (fuel n : nat) (self self' : storage)
    (env : import_env) (start : nat) (rest : list email) (st st' : stats) :
  (0 < n)%nat -> (length rest <= fuel)%nat ->
  vector_store self = None ->
  import_batches fuel n self env start rest st = Ok (self', st') ->
  stored st' = stored st + Z.of_nat (length rest)
  /\ skipped st' = skipped st /\ failed st' = failed st.
Proof.
  intros Hn. revert self start rest st.
  induction fuel as [|fuel IH]; intros self start rest st Hlen Hv H.
  - destruct rest; [|simpl in Hlen; lia]. simpl in H. injection H as <- <-.
    simpl. lia.
  - destruct rest as [|e rest]; [simpl in H; injection H as <- <-; simpl; lia|].
    cbn [import_batches] in H. apply bind_ok in H as ([self1 st1] & H1 & H).
    apply import_batch_without_index in H1 as (Hs & Hk & Hf & Hv1); [|done].
    apply IH in H as (Hs' & Hk' & Hf'); [| |done].
    + rewrite length_take in Hs. rewrite length_drop in Hs'.
      simpl in *. split; [|lia]. rewrite Hs', Hs. lia.
    + rewrite length_drop. simpl in *. lia.
Qed.

(** X20: without a vector index nothing counts as a duplicate in a bulk
    import: with a positive batch size every email handed in is reported
    as stored and none as skipped or failed, whether its file is there
    already or not; whereas [store_email] skips an email whose file is
    there. *)
Theorem bulk_import_without_index_skips_nothing (self : storage) (env : import_env)
    (email_list : list email) (batch_size : Z) :
  0 < batch_size ->
  vector_store self = None ->
  (exists self' st,
      bulk_import_emails self env email_list batch_size = Ok (self', st)
      /\ stored st = Z.of_nat (length email_list)
      /\ skipped st = 0 /\ failed st = 0)
  /\ (forall o email_data,
      already_stored self o (email_id_of email_data) = true ->
      store_email self o email_data = (self, None)).
Proof.
  intros Hb Hv. split.
  - unfold bulk_import_emails.
    rewrite (proj2 (Z.eqb_neq batch_size 0)) by lia.
    rewrite (proj2 (Z.ltb_ge batch_size 0)) by lia.
    destruct (import_batches_ok (length email_list) (Z.to_nat batch_size) self env 0
                email_list no_stats (or_intror Hv)) as [[self' st] H].
    exists self', st. split; [done|].
    by apply import_batches_without_index in H; [|lia|lia|done].
  - intros o email_data H. unfold store_email. by rewrite H.
Qed.

Lemma bulk_import_without_index_skips_nothing_witness :
  exists self' st,
    bulk_import_emails Examples.three_mails
      {| email_io := fun _ => io_ok; index_query_raises := fun _ => false;
         batch_index_raises := fun _ => false |}
      [Examples.alice_mail; Examples.alice_mail] 50
    = Ok (self', st)
    /\ stored st = 2 /\ skipped st = 0 /\ failed st = 0.
Proof.
  apply (bulk_import_without_index_skips_nothing Examples.three_mails
           {| email_io := fun _ => io_ok; index_query_raises := fun _ => false;
              batch_index_raises := fun _ => false |}
           [Examples.alice_mail; Examples.alice_mail] 50).
  - lia.
  - reflexivity.
Defined.

(** X21: in a store that is not local and has a vector index, the bulk
    import of a list that is not empty raises at its first email: the check
    of the index reads [self.connection_pool], which only the local set-up
    assigns. *)
Theorem bulk_import_raises_with_cloud_index (self : storage) (env : import_env)
    (docs : gmap string Document) (email_data : email) (rest : list email)
    (batch_size : Z) :
  0 < batch_size ->
  storage_type self <> "local" ->
  vector_store self = Some docs ->
  bulk_import_emails self env (email_data :: rest) batch_size
  = Raise "AttributeError: 'EmailStorage' object has no attribute 'connection_pool'".
Proof.
  intros Hb Ht Hv. unfold bulk_import_emails.
  rewrite (proj2 (Z.eqb_neq batch_size 0)) by lia.
  rewrite (proj2 (Z.ltb_ge batch_size 0)) by lia.
  destruct (Z.to_nat batch_size) as [|n] eqn:Hn; [lia|].
  cbn [length import_batches take]. unfold import_batch.
  cbn [plan_batch]. unfold plan_email, vector_exists.
  rewrite Hv, (proj2 (String.eqb_neq _ _) Ht). done.
Qed.

Lemma bulk_import_raises_with_cloud_index_witness :
  bulk_import_emails
    {| storage_type := "cloud"; blob_storage_path := None; local_files := ∅;
       blob_service := Some ∅; vector_store := Some ∅ |}
    {| email_io := fun _ => io_ok; index_query_raises := fun _ => false;
       batch_index_raises := fun _ => false |}
    [Examples.alice_mail] 50
  = Raise "AttributeError: 'EmailStorage' object has no attribute 'connection_pool'".
Proof.
  apply (bulk_import_raises_with_cloud_index
           {| storage_type := "cloud"; blob_storage_path := None; local_files := ∅;
              blob_service := Some ∅; vector_store := Some ∅ |}
           {| email_io := fun _ => io_ok; index_query_raises := fun _ => false;
              batch_index_raises := fun _ => false |}
           ∅ Examples.alice_mail [] 50).
  - lia.
  - discriminate.
  - reflexivity.
Defined.


(** ** Normalising fetched emails *)

Import ImportEmails.

(** The three fields of a normalised email that decide its identifier. *)
Lemma normalize_email_fields (now : string) (d : pydict) (e : email) :
  normalize_email now (PDict d) = Some e ->
  d <> []
  /\ dom e = list_to_set ["author"; "to"; "subject"; "body"; "received_at"; "message_id"]
  /\ (exists to, e !! "to" = Some (PStr to))
  /\ e !! "subject" = Some (dict_get_default "subject" (PStr "(No subject)") d)
  /\ e !! "received_at" = Some (dict_get_default "receivedDateTime" (PStr now) d)
  /\ e !! "message_id" = Some (dict_get_default "id" (PStr EmptyString) d)
  /\ e !! "author"
     = Some match match get_or "from" (PDict []) d with
                  | PDict f => get_or "emailAddress" (PDict []) f
                  | _ => PDict []
                  end with
            | PDict a => dict_get_default "address" (PStr "unknown") a
            | _ => PStr "unknown"
            end
  /\ e !! "body"
     = Some (if truthy (dict_get_default "bodyPreview" PNone d) then
               dict_get_default "bodyPreview" PNone d
             else
               match dict_get_default "body" PNone d with
               | PDict body =>
                   if truthy (PDict body)
                   then dict_get_default "content" (PStr EmptyString) body
                   else PStr EmptyString
               | _ => PStr EmptyString
               end).
Proof.
  intros H. unfold normalize_email in H.
  destruct d as [|kv d]; [discriminate|]. cbn [truthy negb] in H. cbv iota in H.
  destruct (join_addresses _) as [to|] eqn:Hto; [|discriminate].
  simpl in H. injection H as <-.
  split; [done|]. split.
  { rewrite !dom_insert_L, dom_singleton_L. set_solver. }
  split; [exists to; by simplify_map_eq|].
  repeat split; by simplify_map_eq.
Qed.

(** X22: what [normalize_email] returns.  An item that is not a filled
    mapping gives nothing.  A normalised email has exactly the six fields
    author, to, subject, body, received_at and message_id, and its [to] is
    text.  An item without recipients is normalised, with an empty [to],
    and an author of [unknown], a subject of [(No subject)] and the time of
    the call as date of receipt where the item has none. *)
Theorem normalize_email_gives_six_fields (now : string) (email_item : pyval) :
  (is_Some (normalize_email now email_item) ->
   exists d, email_item = PDict d /\ d <> [])
  /\ (forall e, normalize_email now email_item = Some e ->
      dom e = list_to_set ["author"; "to"; "subject"; "body"; "received_at"; "message_id"]
      /\ exists to, e !! "to" = Some (PStr to))
  /\ (forall d, email_item = PDict d -> d <> [] -> dict_get "toRecipients" d = None ->
      exists e,
        normalize_email now email_item = Some e
        /\ e !! "to" = Some (PStr EmptyString)
        /\ (dict_get "from" d = None -> e !! "author" = Some (PStr "unknown"))
        /\ (dict_get "subject" d = None -> e !! "subject" = Some (PStr "(No subject)"))
        /\ (dict_get "receivedDateTime" d = None ->
            e !! "received_at" = Some (PStr now))).
Proof.
  split; [|split].
  - intros [e H]. destruct email_item as [| | | | |d]; try discriminate.
    exists d. split; [done|]. by apply normalize_email_fields in H as [? _].
  - intros e H. destruct email_item as [| | | | |d]; try discriminate.
    apply normalize_email_fields in H as (_ & Hdom & Hto & _). by split.
  - intros d -> Hd Hto.
    assert (exists e, normalize_email now (PDict d) = Some e /\ e !! "to" = Some (PStr EmptyString))
      as (e & He & Heto).
    { unfold normalize_email. destruct d as [|kv d]; [done|]. cbn [truthy negb]. cbv iota.
      unfold get_or at 3. rewrite Hto. cbn [join_addresses omap list_omap texts fmap option_fmap option_map].
      eexists. split; [reflexivity|]. by simplify_map_eq. }
    exists e. split; [done|]. split; [done|].
    apply normalize_email_fields in He as (_ & _ & _ & Hs & Hr & _ & Ha & _).
    split; [|split].
    + intros Hf. rewrite Ha. unfold get_or. by rewrite Hf.
    + intros Hf. rewrite Hs. unfold dict_get_default. by rewrite Hf.
    + intros Hf. rewrite Hr. unfold dict_get_default. by rewrite Hf.
Qed.

Lemma stored_locally_is_there (self : storage) (o o' : io) (e : email) :
  storage_type self = "local" -> file_write_raises o = false ->
  already_stored (store_email self o e).1 o' (email_id_of e) = true.
Proof.
  intros Hl Hw. unfold store_email.
  destruct (already_stored self o (email_id_of e)) eqn:Ha; simpl.
  - unfold already_stored in *. by rewrite Hl in *.
  - unfold store_vector, store_file. rewrite Hl, Hw. simpl.
    destruct (vector_store self); [destruct (add_documents_raises o)|];
      unfold already_stored; cbn [storage_type local_files];
      rewrite ?Hl, String.eqb_refl;
      apply bool_decide_eq_true_2; rewrite lookup_insert_eq; by eexists.
Qed.

(** X23: the identifier of a normalised email depends on the sender, the
    subject and the body of the fetched item only.  Two items that agree on
    these, whatever their message identifiers, dates of receipt and
    recipients, get the same identifier; so in a local store whose writes
    succeed the second of them is skipped as a duplicate of the first. *)
Theorem refetched_email_is_duplicate (now1 now2 : string) (d1 d2 : pydict)
    (e1 e2 : email) :
  same_sender_subject_body d1 d2 ->
  normalize_email now1 (PDict d1) = Some e1 ->
  normalize_email now2 (PDict d2) = Some e2 ->
  email_id_of e1 = email_id_of e2
  /\ (forall self o,
      storage_type self = "local" -> file_write_raises o = false ->
      store_email (store_email self o e1).1 o e2 = ((store_email self o e1).1, None)).
Proof.
  intros (Hfrom & Hsubj & Hprev & Hbody) H1 H2.
  apply normalize_email_fields in H1 as (_ & _ & _ & Hs1 & _ & _ & Ha1 & Hb1).
  apply normalize_email_fields in H2 as (_ & _ & _ & Hs2 & _ & _ & Ha2 & Hb2).
  assert (email_id_of e1 = email_id_of e2) as Hid.
  { unfold email_id_of, get_field.
    rewrite Hs1, Hs2, Ha1, Ha2, Hb1, Hb2.
    unfold get_or, dict_get_default. by rewrite Hfrom, Hsubj, Hprev, Hbody. }
  split; [done|]. intros self o Hl Hw.
  unfold store_email at 1. rewrite <- Hid.
  by rewrite (stored_locally_is_there self o o e1 Hl Hw).
Qed.


Lemma refetched_email_is_duplicate_witness :
  email_id_of
    (default ∅ (normalize_email
                  "2025-12-03T09:00:00"
                  (PDict (Examples.fetched "AAMk1" "2025-12-01T10:00:00Z"))))
  = email_id_of
      (default ∅ (normalize_email
                    "2025-12-03T09:05:00"
                    (PDict (Examples.fetched "AAMk2" "2025-12-02T08:30:00Z")))).
Proof.
  apply (proj1 (refetched_email_is_duplicate
                  "2025-12-03T09:00:00" "2025-12-03T09:05:00"
                  (Examples.fetched "AAMk1" "2025-12-01T10:00:00Z")
                  (Examples.fetched "AAMk2" "2025-12-02T08:30:00Z") _ _
                  ltac:(repeat split) ltac:(vm_compute; reflexivity)
                  ltac:(vm_compute; reflexivity))).
Defined.

(** ** No gated call without a decision *)

Lemma gate_loop_waits (todo i : nat) (msgs : list message) (tcs : list tool_call) :
  (exists j tc, (i <= j < i + todo)%nat /\ tcs !! j = Some tc
                /\ in_names (tc_name tc) HITL_TOOL_NAMES = true) ->
  is_suspended (gate_loop todo i msgs tcs []) = true
  \/ exists e, gate_loop todo i msgs tcs [] = Raised e.
Proof.
  revert i. induction todo as [|todo IH]; intros i (j & tc & Hj & Htc & Hg); [lia|].
  cbn [gate_loop].
  destruct (tcs !! i) as [tc'|] eqn:Hi.
  - destruct (in_names (tc_name tc') HITL_TOOL_NAMES) eqn:Hg'.
    + destruct (create_interrupt _ _) as [request|e]; [by left|right; by exists e].
    + apply IH. exists j, tc. split; [|done].
      destruct (decide (j = i)) as [->|]; [congruence|lia].
  - apply lookup_ge_None in Hi. apply lookup_lt_Some in Htc. lia.
Qed.

(** X24: no approval-gated call passes the gate without a human decision.
    When one of the calls of the last message has an approval-gated name
    and no decision is at hand, the gate does not return: it suspends the
    run on an approval request, or raises while building the request. *)
Theorem gated_call_waits_for_decision (msgs : list message) :
  Exists (fun tc => in_names (tc_name tc) HITL_TOOL_NAMES = true) (pending_calls msgs) ->
  is_suspended (hitl_gate msgs []) = true \/ exists e, hitl_gate msgs [] = Raised e.
Proof.
  unfold pending_calls, hitl_gate. destruct (last msgs) as [m|]; [|by inversion 1].
  intros Hex. destruct (tool_calls_of m) as [|tc0 tcs] eqn:Htcs; [by inversion Hex|].
  apply gate_loop_waits. apply Exists_exists in Hex as (tc & Hin & Hg).
  apply list_elem_of_lookup in Hin as [j Hj]. exists j, tc.
  split; [|done]. apply lookup_lt_Some in Hj. lia.
Qed.

Lemma gated_call_waits_for_decision_witness :
  is_suspended (hitl_gate (messages Examples.awaiting_mail) []) = true
  \/ exists e, hitl_gate (messages Examples.awaiting_mail) [] = Raised e.
Proof.
  apply (gated_call_waits_for_decision (messages Examples.awaiting_mail)).
  left. reflexivity.
Defined.

(** ** The identifier of an indexed document *)

(** X25: the identifier under which an email is indexed in the vector
    store has the 36 characters of a UUID, and two email identifiers of
    sixteen characters that give the same document identifier are the same:
    emails with different identifiers never take each other's place in the
    index. *)
Theorem doc_uuid_is_injective (id1 id2 : string) :
  String.length id1 = 16%nat -> String.length id2 = 16%nat ->
  String.length (doc_uuid id1) = 36%nat
  /\ (doc_uuid id1 = doc_uuid id2 -> id1 = id2).
Proof.
  intros H1 H2.
  do 17 (destruct id1 as [|? id1]; try discriminate H1).
  do 17 (destruct id2 as [|? id2]; try discriminate H2).
  split; [reflexivity|].
  intros H. vm_compute in H. by injection H as -> -> -> -> -> -> -> -> -> -> -> -> -> -> -> ->.
Qed.

Lemma doc_uuid_is_injective_witness :
  String.length (doc_uuid "5af6c4a04306da52") = 36%nat.
Proof.
  apply (proj1 (doc_uuid_is_injective "5af6c4a04306da52" "0000000000000000"
                  eq_refl eq_refl)).
Defined.


(** ** A query without words *)

Import SearchTool.

Lemma text_match_no_words (f : file_content) : text_match [] f = None.
Proof. by destruct f. Qed.

Lemma omap_none {A B : Type} (f : A -> option B) (l : list A) :
  (forall x, f x = None) -> omap f l = [].
Proof.
  intros Hf. induction l as [|x l IH]; [done|].
  change (omap f (x :: l))
    with (match f x with Some y => y :: omap f l | None => omap f l end).
  by rewrite Hf.
Qed.

Lemma omap_none_forall {A : Type} (l : list (option A)) :
  Forall (fun r => r = None) l -> omap (fun x => x) l = [].
Proof.
  induction l as [|x l IH]; intros H; [done|].
  inversion H as [|? ? Hx Hl]; subst.
  change (omap (fun x => x) (None :: l)) with (omap (fun x : option A => x) l).
  by apply IH.
Qed.

(** X26: a query that holds no word, being empty or made of white space,
    finds nothing in the text search, whatever is stored: without a vector
    index, or with one whose search raises, [search] returns the empty list
    and the search tool answers [No emails found.]. *)
Theorem blank_query_finds_nothing (similarity_search_with_score : similarity_search)
    (self : storage) (query : string) (top_k : Z) :
  split (lower query) = [] ->
  (vector_store self = None
   \/ exists docs e, vector_store self = Some docs
                     /\ similarity_search_with_score docs query top_k = Raise e) ->
  search similarity_search_with_score self query top_k = []
  /\ search_email_history similarity_search_with_score self query top_k
     = "No emails found.".
Proof.
  intros Hq Hvec.
  assert (_text_search self query top_k = []) as Htext.
  { unfold _text_search. rewrite Hq. destruct (_ && _); [|done].
    rewrite omap_none by apply text_match_no_words.
    unfold slice_upto, sort_desc. simpl. destruct (0 <=? top_k); first [done | apply take_nil]. }
  assert (search similarity_search_with_score self query top_k = []) as Hs.
  { unfold search. destruct Hvec as [-> | (docs & e & -> & ->)]; done. }
  split; [done|]. unfold search_email_history. by rewrite Hs.
Qed.

Lemma blank_query_finds_nothing_witness :
  search_email_history Examples.no_vector_search Examples.three_mails "  " 5
  = "No emails found.".
Proof.
  apply (blank_query_finds_nothing Examples.no_vector_search Examples.three_mails "  " 5).
  - reflexivity.
  - left. reflexivity.
Defined.

(** ** The emails handed to the store *)

Import ImportEmails.

(** X27: [process_emails_async] keeps the items that normalise, in their
    order, and drops the others.  It goes through the list item by item,
    putting the normal form of an item that has one in front of what the
    rest gives; so an email is returned exactly when it is the normal form
    of a fetched item.  What is returned are emails with the six fields, no
    more of them than items were fetched; and a list without any filled
    mapping gives no email. *)
Theorem processed_emails_are_normalised (now : nat -> string) (email_list : list pyval) :
  let emails := process_emails_async now email_list in
  (forall e,
      e ∈ emails
      <-> exists i email_item,
            email_list !! i = Some email_item
            /\ normalize_email (now i) email_item = Some e)
  /\ (process_emails_async now [] = []
      /\ forall email_item rest,
           process_emails_async now (email_item :: rest)
           = match normalize_email (now 0%nat) email_item with
             | Some e => e :: process_emails_async (fun i => now (S i)) rest
             | None => process_emails_async (fun i => now (S i)) rest
             end)
  /\ Forall (fun e =>
               dom e = list_to_set ["author"; "to"; "subject"; "body"; "received_at";
                                    "message_id"])
            emails
  /\ (length emails <= length email_list)%nat
  /\ (Forall (fun email_item => forall d, email_item = PDict d -> d = []) email_list ->
      emails = []).
Proof.
  intros emails. subst emails. unfold process_emails_async.
  assert (forall e,
             e ∈ omap (fun x => x)
                      (imap (fun i email_item => normalize_email (now i) email_item)
                            email_list)
             <-> exists i email_item,
                   email_list !! i = Some email_item
                   /\ normalize_email (now i) email_item = Some e) as Hmem.
  { intros e. rewrite list_elem_of_omap. split.
    - intros (r & Hr & ->). apply list_elem_of_lookup in Hr as [i Hi].
      rewrite list_lookup_imap in Hi.
      destruct (email_list !! i) as [email_item|] eqn:Hitem; [|discriminate].
      simpl in Hi. injection Hi as Hi. by exists i, email_item.
    - intros (i & email_item & Hitem & Hn). exists (Some e). split; [|done].
      apply list_elem_of_lookup. exists i. by rewrite list_lookup_imap, Hitem, <- Hn. }
  split; [exact Hmem|]. split; [|split; [|split]].
  - split; [done|]. intros email_item rest. rewrite imap_cons.
    change (omap (fun x => x) (?r :: ?l))
      with (match r with Some y => y :: omap (fun x => x) l | None => omap (fun x => x) l end).
    done.
  - apply Forall_forall. intros e He.
    apply Hmem in He as (i & email_item & _ & Hn).
    destruct email_item as [| | | | |d]; try discriminate.
    by apply normalize_email_fields in Hn as (_ & Hdom & _).
  - etrans; [apply length_omap_le|]. by rewrite length_imap.
  - intros Hall. apply omap_none_forall. apply Forall_forall. intros r Hr.
    apply list_elem_of_lookup in Hr as [i Hi]. rewrite list_lookup_imap in Hi.
    destruct (email_list !! i) as [email_item|] eqn:Hitem; [|discriminate].
    simpl in Hi. injection Hi as <-.
    rewrite Forall_forall in Hall.
    specialize (Hall email_item (list_elem_of_lookup_2 _ _ _ Hitem)).
    destruct email_item as [| | | | |d]; try done.
    by rewrite (Hall d eq_refl).
Qed.
